(** * The batch generation engine of [faker_producer.py]

    A shallow embedding of the validation layer, the uniqueness registry,
    the entity factories and the batch builder of
    [src/swiggy-sf-dbt-pipeline/faker_producer.py], with the properties the
    specification states about them.

    Conventions of the embedding:
    - a Python [str] is a [string] whose characters are code points below
      256 (Latin-1); [str.isdigit], [str.isspace] and [str.lower] are the
      restrictions of Python's Unicode tables to that range;
    - a Python [dict] is an association list in insertion order;
    - a [Decimal] is a sign, a coefficient and an exponent, computed in the
      default context (28 digits, ROUND_HALF_EVEN, InvalidOperation
      trapped);
    - a [float] only ever occurs as the decimal numeral that [str] prints
      for it;
    - [random], [uuid.uuid4], [Faker] and the clock are read from an
      explicit entropy stream and from tables taken as parameters. *)

From Stdlib Require Import ZArith NArith Lia Bool Ascii String List.
From stdpp Require Import base decidable option list strings gmap.

Local Open Scope string_scope.
Local Open Scope N_scope.

(* ===================================================================== *)
(** ** Python strings                                                     *)
(* ===================================================================== *)

Module PyStr.

Definition code (c : ascii) : N := N_of_ascii c.

Definition in_range (lo hi : N) (c : ascii) : bool :=
  (lo <=? code c) && (code c <=? hi).

(** [str.isspace] on one character: TAB..CR, FS..US, SPACE, NEL, NBSP. *)
Definition isspace (c : ascii) : bool :=
  in_range 9 13 c || in_range 28 32 c || (code c =? 133) || (code c =? 160).

(** ASCII digits, the class [0-9]. *)
Definition is_ascii_digit (c : ascii) : bool := in_range 48 57 c.

(** [str.isdigit] on one character: the ASCII digits and the superscript
    digits two, three and one (code points 178, 179 and 185). *)
Definition isdigit_char (c : ascii) : bool :=
  is_ascii_digit c || (code c =? 178) || (code c =? 179) || (code c =? 185).

(** [str.lower] on one character: A-Z, and the Latin-1 capitals except the
    multiplication sign. *)
Definition lower_char (c : ascii) : ascii :=
  if in_range 65 90 c || (in_range 192 222 c && negb (code c =? 215))
  then ascii_of_N (code c + 32) else c.

Fixpoint lower (s : string) : string :=
  match s with
  | EmptyString => EmptyString
  | String c r => String (lower_char c) (lower r)
  end.

Fixpoint all_chars (p : ascii -> bool) (s : string) : bool :=
  match s with
  | EmptyString => true
  | String c r => p c && all_chars p r
  end.

(** [s.isdigit()]: at least one character, and all of them digits. *)
Definition isdigit (s : string) : bool :=
  match s with
  | EmptyString => false
  | _ => all_chars isdigit_char s
  end.

Definition is_empty (s : string) : bool :=
  match s with EmptyString => true | _ => false end.

Fixpoint lstrip (s : string) : string :=
  match s with
  | EmptyString => EmptyString
  | String c r => if isspace c then lstrip r else s
  end.

Fixpoint rstrip (s : string) : string :=
  match s with
  | EmptyString => EmptyString
  | String c r =>
      let r' := rstrip r in
      if is_empty r' && isspace c then EmptyString else String c r'
  end.

(** [s.strip()] *)
Definition strip (s : string) : string := lstrip (rstrip s).

(** [s.count(c)] for a one-character needle. *)
Fixpoint count_char (x : ascii) (s : string) : nat :=
  match s with
  | EmptyString => O
  | String c r => (if Ascii.eqb c x then 1 else 0)%nat + count_char x r
  end.

(** [s.replace(x, t)] for a one-character needle. *)
Fixpoint replace_char (x : ascii) (t : string) (s : string) : string :=
  match s with
  | EmptyString => EmptyString
  | String c r =>
      if Ascii.eqb c x then t ++ replace_char x t r
      else String c (replace_char x t r)
  end.

(** [s.split(x)] for a one-character separator. *)
Fixpoint split_char (x : ascii) (s : string) : list string :=
  match s with
  | EmptyString => [EmptyString]
  | String c r =>
      match split_char x r with
      | [] => [EmptyString]
      | w :: ws => if Ascii.eqb c x then EmptyString :: w :: ws
                   else String c w :: ws
      end
  end.

(** [c in t] for a one-character [c]. *)
Fixpoint char_in (c : ascii) (t : string) : bool :=
  match t with
  | EmptyString => false
  | String d r => Ascii.eqb c d || char_in c r
  end.

Fixpoint remove_char (x : ascii) (s : string) : string :=
  match s with
  | EmptyString => EmptyString
  | String c r => if Ascii.eqb c x then remove_char x r
                  else String c (remove_char x r)
  end.

(** The longest prefix of ASCII digits, and the rest. *)
Fixpoint span_digits (s : string) : string * string :=
  match s with
  | EmptyString => (EmptyString, EmptyString)
  | String c r =>
      if is_ascii_digit c
      then let '(a, b) := span_digits r in (String c a, b)
      else (EmptyString, s)
  end.

(** The value of a string of ASCII digits, most significant first. *)
Fixpoint digits_value (acc : N) (s : string) : N :=
  match s with
  | EmptyString => acc
  | String c r => digits_value (10 * acc + (code c - 48)) r
  end.

Definition digit_char (d : N) : ascii := ascii_of_N (48 + d).

Fixpoint digits_aux (fuel : nat) (n : N) (acc : string) : string :=
  match fuel with
  | O => acc
  | S f =>
      if n <? 10 then String (digit_char n) acc
      else digits_aux f (n / 10) (String (digit_char (n mod 10)) acc)
  end.

(** [str(n)] for a natural number: no leading zero, ["0"] for zero. *)
Definition of_N (n : N) : string := digits_aux (S (N.size_nat n)) n EmptyString.

Fixpoint zeros (k : nat) : string :=
  match k with O => EmptyString | S k' => String "0" (zeros k') end.

Fixpoint str_take (k : nat) (s : string) : string :=
  match k, s with
  | S k', String c r => String c (str_take k' r)
  | _, _ => EmptyString
  end.

Fixpoint str_drop (k : nat) (s : string) : string :=
  match k, s with
  | S k', String c r => str_drop k' r
  | _, _ => s
  end.

End PyStr.

(* ===================================================================== *)
(** ** Exceptions and results                                             *)
(* ===================================================================== *)

(** The exception classes that occur. [ValueError] and [AssertionError]
    are the two that Pydantic turns into a validation error when a
    validator raises them; every other class leaves [model_validate] as it
    is. *)
Inductive exn :=
| ValueError (msg : string)
| TypeError
| AttributeError
| KeyError (key : string)
| IndexError
| OverflowError
| InvalidOperation.

Inductive res (A : Type) :=
| Ok (a : A)
| Raise (e : exn).
Arguments Ok {A} a.
Arguments Raise {A} e.

Definition res_bind {A B} (r : res A) (k : A -> res B) : res B :=
  match r with
  | Ok a => k a
  | Raise e => Raise e
  end.

Declare Scope res_scope.
Delimit Scope res_scope with res.
Notation "'try!' x := r 'in' k" := (res_bind r (fun x => k))
  (at level 10, x name, r at level 100, k at level 200) : res_scope.

(* ===================================================================== *)
(** ** [decimal.Decimal] in the default context                           *)
(* ===================================================================== *)

Module Dec.
Import PyStr.

(** [DFin neg c e] is [(-1)^neg * c * 10^e]. The exponent is any integer:
    the bounds beyond which the library raises (an exponent beyond 999999
    either way for the arithmetic of the default context, beyond 10^18 or
    so for the parser) are not modelled, and the diagnostic digits of a
    NaN are not kept. *)
Inductive Decimal :=
| DFin (neg : bool) (coef : N) (exp : Z)
| DInf (neg : bool)
| DNaN (signaling : bool).

(** [getcontext().prec] *)
Definition prec : N := 28.

Definition signed (neg : bool) (c : N) : Z :=
  if neg then (- Z.of_N c)%Z else Z.of_N c.

(** *** [Decimal(s)] for a string *)

Definition parse_sign (s : string) : bool * string :=
  match s with
  | String "-" r => (true, r)
  | String "+" r => (false, r)
  | _ => (false, s)
  end.

(** The exponent after the letter E: an optional sign and one digit or
    more, up to the end of the string. *)
Definition parse_exponent (s : string) : option Z :=
  let '(neg, r) := parse_sign s in
  let '(ds, rest) := span_digits r in
  if is_empty ds || negb (is_empty rest) then None
  else Some (signed neg (digits_value 0 ds)).

(** A number with at least one digit: integer part, optional fraction,
    optional exponent. *)
Definition parse_number (s : string) : option (N * Z) :=
  let '(ip, r1) := span_digits s in
  let '(fp, r2) :=
    match r1 with
    | String "." r => span_digits r
    | _ => (EmptyString, r1)
    end in
  if is_empty ip && is_empty fp then None
  else
    let c := digits_value 0 (ip ++ fp) in
    let k := Z.of_nat (String.length fp) in
    match r2 with
    | EmptyString => Some (c, (- k)%Z)
    | String x r3 =>
        if Ascii.eqb x "e" || Ascii.eqb x "E" then
          match parse_exponent r3 with
          | Some e => Some (c, (e - k)%Z)
          | None => None
          end
        else None
    end.

(** Inf, Infinity, NaN and sNaN (with diagnostic digits), in any case. *)
Definition parse_special (neg : bool) (s : string) : option Decimal :=
  let t := lower s in
  if String.eqb t "inf" || String.eqb t "infinity" then Some (DInf neg)
  else match t with
       | String "n" (String "a" (String "n" r)) =>
           if all_chars is_ascii_digit r then Some (DNaN false) else None
       | String "s" (String "n" (String "a" (String "n" r))) =>
           if all_chars is_ascii_digit r then Some (DNaN true) else None
       | _ => None
       end.

(** [Decimal(s)]: surrounding whitespace and all underscores are removed
    first; [None] stands for the InvalidOperation of a malformed string. *)
Definition parse_decimal (s : string) : option Decimal :=
  let t := remove_char "_" (strip s) in
  let '(neg, r) := parse_sign t in
  match parse_number r with
  | Some (c, e) => Some (DFin neg c e)
  | None => parse_special neg r
  end.

(** *** Printing *)

(** The digits [ds] with the point [k] places from the right. *)
Definition print_fixed (ds : string) (k : nat) : string :=
  match k with
  | O => ds
  | _ =>
      let n := String.length ds in
      if (k <? n)%nat
      then str_take (n - k) ds ++ "." ++ str_drop (n - k) ds
      else "0." ++ zeros (k - n) ++ ds
  end.

Definition sign_str (neg : bool) : string := if neg then "-" else "".

(** [format(d, "f")] *)
Definition format_f (d : Decimal) : string :=
  match d with
  | DFin s c e =>
      sign_str s ++
      (if (0 <=? e)%Z then of_N c ++ zeros (Z.to_nat e)
       else print_fixed (of_N c) (Z.to_nat (- e)))
  | DInf s => sign_str s ++ "Infinity"
  | DNaN sg => if sg then "sNaN" else "NaN"
  end.

(** [str(z)] for an [int], and the [%+d] of an exponent. *)
Definition str_int (z : Z) : string :=
  sign_str (z <? 0)%Z ++ of_N (Z.abs_N z).

Definition str_exp (z : Z) : string :=
  (if (z <? 0)%Z then "-" else "+") ++ of_N (Z.abs_N z).

(** [str(d)]: plain notation when the exponent is at most zero and there
    are fewer than six zeros after the point, scientific otherwise. *)
Definition dstr (d : Decimal) : string :=
  match d with
  | DFin s c e =>
      let ds := of_N c in
      let n := Z.of_nat (String.length ds) in
      let leftdigits := (e + n)%Z in
      if (e <=? 0)%Z && (-6 <? leftdigits)%Z
      then sign_str s ++ print_fixed ds (Z.to_nat (- e))
      else
        sign_str s ++ str_take 1 ds ++
        (if (1 <? n)%Z then "." ++ str_drop 1 ds else "") ++
        (if (leftdigits =? 1)%Z then "" else "E" ++ str_exp (leftdigits - 1))
  | DInf s => sign_str s ++ "Infinity"
  | DNaN sg => if sg then "sNaN" else "NaN"
  end.

(** *** Rounding *)

(** The coefficient of [c * 10^e] at exponent -2, ties away from zero
    (ROUND_HALF_UP). *)
Definition rescale_half_up (c : N) (e : Z) : N :=
  if (-2 <=? e)%Z then c * 10 ^ Z.to_N (e + 2)
  else
    let p := 10 ^ Z.to_N (-2 - e) in
    c / p + (if p <=? 2 * (c mod p) then 1 else 0).

(** [d.quantize(Decimal("0.01"), rounding=ROUND_HALF_UP)]: InvalidOperation
    when the result needs more than [prec] digits, on an infinity and on a
    signaling NaN; a quiet NaN is returned as it is. *)
Definition quantize2 (d : Decimal) : res Decimal :=
  match d with
  | DFin s c e =>
      let r := rescale_half_up c e in
      if r <? 10 ^ prec then Ok (DFin s r (-2)) else Raise InvalidOperation
  | DInf _ => Raise InvalidOperation
  | DNaN false => Ok d
  | DNaN true => Raise InvalidOperation
  end.

(** The rounding every arithmetic result gets: at most [prec] digits, ties
    to even. *)
Definition fix_ctx (s : bool) (c : N) (e : Z) : Decimal :=
  if c <? 10 ^ prec then DFin s c e
  else
    let k := N.of_nat (String.length (of_N c)) - prec in
    let p := 10 ^ k in
    let q := c / p in
    let r := c mod p in
    let q' := q + (if (p <? 2 * r) || ((p =? 2 * r) && N.odd q) then 1 else 0) in
    if q' <? 10 ^ prec then DFin s q' (e + Z.of_N k)
    else DFin s (q' / 10) (e + Z.of_N k + 1).

(** *** Arithmetic and comparison *)

Definition of_int (z : Z) : Decimal := DFin (z <? 0)%Z (Z.abs_N z) 0.

Definition is_zero (d : Decimal) : bool :=
  match d with DFin _ c _ => c =? 0 | _ => false end.

Definition dneg (d : Decimal) : Decimal :=
  match d with
  | DFin s c e => DFin (negb s) c e
  | DInf s => DInf (negb s)
  | DNaN sg => DNaN sg
  end.

(** [a * b] *)
Definition dmul (a b : Decimal) : res Decimal :=
  match a, b with
  | DNaN true, _ | _, DNaN true => Raise InvalidOperation
  | DNaN false, _ | _, DNaN false => Ok (DNaN false)
  | DInf s1, DInf s2 => Ok (DInf (xorb s1 s2))
  | DInf s1, DFin s2 c2 _ =>
      if c2 =? 0 then Raise InvalidOperation else Ok (DInf (xorb s1 s2))
  | DFin s1 c1 _, DInf s2 =>
      if c1 =? 0 then Raise InvalidOperation else Ok (DInf (xorb s1 s2))
  | DFin s1 c1 e1, DFin s2 c2 e2 =>
      Ok (fix_ctx (xorb s1 s2) (c1 * c2) (e1 + e2))
  end.

(** [a + b]; a zero sum is negative only when both operands are. *)
Definition dadd (a b : Decimal) : res Decimal :=
  match a, b with
  | DNaN true, _ | _, DNaN true => Raise InvalidOperation
  | DNaN false, _ | _, DNaN false => Ok (DNaN false)
  | DInf s1, DInf s2 =>
      if Bool.eqb s1 s2 then Ok (DInf s1) else Raise InvalidOperation
  | DInf s1, DFin _ _ _ => Ok (DInf s1)
  | DFin _ _ _, DInf s2 => Ok (DInf s2)
  | DFin s1 c1 e1, DFin s2 c2 e2 =>
      let e := Z.min e1 e2 in
      let z := (signed s1 c1 * 10 ^ (e1 - e) + signed s2 c2 * 10 ^ (e2 - e))%Z in
      let s := if (z =? 0)%Z then s1 && s2 else (z <? 0)%Z in
      Ok (fix_ctx s (Z.abs_N z) e)
  end.

(** [a - b] *)
Definition dsub (a b : Decimal) : res Decimal := dadd a (dneg b).

Definition cmp_fin (s1 : bool) (c1 : N) (e1 : Z) (s2 : bool) (c2 : N) (e2 : Z)
  : comparison :=
  let m := Z.min e1 e2 in
  (signed s1 c1 * 10 ^ (e1 - m) ?= signed s2 c2 * 10 ^ (e2 - m))%Z.

(** The ordering behind [<], [<=], [>]: InvalidOperation on a NaN. *)
Definition dcompare (a b : Decimal) : res comparison :=
  match a, b with
  | DNaN _, _ | _, DNaN _ => Raise InvalidOperation
  | DInf s1, DInf s2 =>
      Ok (if s1 then (if s2 then Eq else Lt) else (if s2 then Gt else Eq))
  | DInf s1, DFin _ _ _ => Ok (if s1 then Lt else Gt)
  | DFin _ _ _, DInf s2 => Ok (if s2 then Gt else Lt)
  | DFin s1 c1 e1, DFin s2 c2 e2 => Ok (cmp_fin s1 c1 e1 s2 c2 e2)
  end.

Definition dlt (a b : Decimal) : res bool :=
  (try! c := dcompare a b in Ok (match c with Lt => true | _ => false end))%res.

Definition dle (a b : Decimal) : res bool :=
  (try! c := dcompare a b in Ok (match c with Gt => false | _ => true end))%res.

Definition dgt (a b : Decimal) : res bool := dlt b a.

(** [a != b]: true on a quiet NaN, InvalidOperation on a signaling one. *)
Definition dne (a b : Decimal) : res bool :=
  match a, b with
  | DNaN true, _ | _, DNaN true => Raise InvalidOperation
  | DNaN false, _ | _, DNaN false => Ok true
  | _, _ => (try! c := dcompare a b in Ok (match c with Eq => false | _ => true end))%res
  end.

End Dec.

(* ===================================================================== *)
(** ** Python values and dictionaries                                     *)
(* ===================================================================== *)

Import PyStr Dec.

#[warnings="-register-all"] Inductive pyval :=
| VNone
| VBool (b : bool)
| VInt (z : Z)
| VStr (s : string)
| VDec (d : Decimal)
| VDict (kv : list (string * pyval)).

(** A dict with string keys, in insertion order. *)
Abbreviation pydict := (list (string * pyval)).

(** [d.get(k)] *)
Fixpoint dict_get (k : string) (d : pydict) : option pyval :=
  match d with
  | [] => None
  | (k', v) :: r => if String.eqb k k' then Some v else dict_get k r
  end.

(** [d[k]] *)
Definition dict_item (k : string) (d : pydict) : res pyval :=
  match dict_get k d with
  | Some v => Ok v
  | None => Raise (KeyError k)
  end.

(** [list(d.keys())] *)
Definition dict_keys (d : pydict) : list string := map fst d.

(** Truthiness, as [if v:] and [v or ...] test it. *)
Definition truthy (v : pyval) : bool :=
  match v with
  | VNone => false
  | VBool b => b
  | VInt z => negb (z =? 0)%Z
  | VStr s => negb (is_empty s)
  | VDec d => negb (is_zero d)
  | VDict kv => match kv with [] => false | _ => true end
  end.

(** [sys.get_int_max_str_digits()]: the longest numeral that [str] makes
    of an [int] and that [int] takes from a [str]. *)
Definition int_max_str_digits : nat := 4300.

Definition int_limit_error : exn :=
  ValueError "Exceeds the limit (4300 digits) for integer string conversion".

(** [str(z)] returns: the numeral of [z] is within the limit. *)
Definition int_prints (z : Z) : bool :=
  (String.length (of_N (Z.abs_N z)) <=? int_max_str_digits)%nat.

(** [str(v)] and [repr(v)] return: no [int] in [v] is beyond the limit. *)
Fixpoint prints (v : pyval) : bool :=
  match v with
  | VInt z => int_prints z
  | VDict kv =>
      (fix all (kv : list (string * pyval)) : bool :=
         match kv with
         | [] => true
         | (_, x) :: r => prints x && all r
         end) kv
  | VNone | VBool _ | VStr _ | VDec _ => true
  end.

(** The receiver of a [str] method: any other value has no such
    attribute. *)
Definition as_str (v : pyval) : res string :=
  match v with
  | VStr s => Ok s
  | _ => Raise AttributeError
  end.

(** [Decimal(str(v))]. [str] raises for an [int] beyond the limit, also
    inside a dict; the text of [None], of a bool and of a dict is not a
    numeral. *)
Definition decimal_of_str (v : pyval) : res Decimal :=
  let parse s :=
    match parse_decimal s with
    | Some d => Ok d
    | None => Raise InvalidOperation
    end in
  match v with
  | VStr s => parse s
  | VInt z => if int_prints z then parse (str_int z) else Raise int_limit_error
  | VDec d => parse (dstr d)
  | VNone | VBool _ => Raise InvalidOperation
  | VDict _ => if prints v then Raise InvalidOperation else Raise int_limit_error
  end.

(** [to_decimal(v)]: a Decimal with 2 decimal places. *)
Definition to_decimal (v : pyval) : res Decimal :=
  (try! d := decimal_of_str v in quantize2 d)%res.

(** [int(s)] for a string: surrounding whitespace, an optional sign, and
    digits with single underscores between them. *)
Fixpoint int_body_ok (prev_digit : bool) (s : string) : bool :=
  match s with
  | EmptyString => prev_digit
  | String c r =>
      if is_ascii_digit c then int_body_ok true r
      else if Ascii.eqb c "_" then prev_digit && int_body_ok false r
      else false
  end.

(** The white space that [int] skips around a numeral: that of
    [str.strip] without the separators FS..US. *)
Definition int_space (c : ascii) : bool := isspace c && negb (in_range 28 31 c).

Fixpoint int_lstrip (s : string) : string :=
  match s with
  | EmptyString => EmptyString
  | String c r => if int_space c then int_lstrip r else s
  end.

Fixpoint int_rstrip (s : string) : string :=
  match s with
  | EmptyString => EmptyString
  | String c r =>
      let r' := int_rstrip r in
      if is_empty r' && int_space c then EmptyString else String c r'
  end.

(** A numeral of more than 4300 digits, underscores not counted, is
    refused with another ValueError. *)
Definition int_of_string (s : string) : res Z :=
  let '(neg, r) := parse_sign (int_lstrip (int_rstrip s)) in
  if int_body_ok false r
  then
    let ds := remove_char "_" r in
    if (String.length ds <=? int_max_str_digits)%nat
    then Ok (signed neg (digits_value 0 ds))
    else Raise int_limit_error
  else Raise (ValueError "invalid literal for int()").

(** [int(v)] *)
Definition py_int (v : pyval) : res Z :=
  match v with
  | VInt z => Ok z
  | VBool b => Ok (if b then 1 else 0)%Z
  | VStr s => int_of_string s
  | VDec (DFin s c e) =>
      Ok (if (0 <=? e)%Z then signed s (c * 10 ^ Z.to_N e)
          else signed s (c / 10 ^ Z.to_N (- e)))
  | VDec (DInf _) => Raise OverflowError
  | VDec (DNaN _) => Raise (ValueError "cannot convert NaN to integer")
  | VNone | VDict _ => Raise TypeError
  end.

(* ===================================================================== *)
(** ** What the program takes from outside the repository                 *)
(* ===================================================================== *)

(** The entropy that [random], [uuid] and [Faker] consume, the clock, and
    the library parsers the validators call. Every draw reads the stream
    [rnd] at the current position; the tables turn a drawn number into the
    text the library would have produced. *)
Record Lib := {
  rnd : nat -> nat;
  uuid4 : nat -> string;                 (* str(uuid.uuid4()) *)
  now_iso_at : nat -> string;            (* now_iso() *)
  fromisoformat_ok : string -> bool;     (* datetime.fromisoformat accepts *)
  py_float_within : Z -> Z -> string -> option bool;
    (* float(s) raises (None), or lo <= float(s) <= hi *)
  lax_int_of_str : string -> option Z;   (* Pydantic's str-to-int coercion *)
  fake_name : nat -> string;
  fake_company : nat -> string;
  fake_word_title : nat -> string;       (* fake.word().title() *)
  fake_food : nat -> string;             (* getattr(fake, "food", ...)() *)
  fake_sentence : nat -> string;
  fake_street_name : nat -> string;
  fake_street_address : nat -> string;
  fake_latitude : nat -> string;
  fake_longitude : nat -> string;
  fake_city_suffix : nat -> string;
  fake_city : nat -> string;
  fake_state : nat -> string;
  fake_postcode : nat -> string;
  fake_user_agent : nat -> string;
  fake_date_of_birth : nat -> string     (* ...date_of_birth(...).isoformat() *)
}.

(* ===================================================================== *)
(** ** Pydantic models                                                    *)
(* ===================================================================== *)

Module Pydantic.

Inductive ftype :=
| TStr
| TInt
| TDecimal
| TDict
| TLiteral (s : string)
| TOptional (t : ftype).

(** A field: its annotation, its default when it has one, and its
    [field_validator]s of mode "before" and of the default mode "after". *)
Record field := Field {
  fname : string;
  ftyp : ftype;
  fdefault : option pyval;
  fbefore : option (pyval -> res pyval);
  fafter : option (pyval -> res pyval)
}.

(** A model class: its fields in declaration order and its
    [model_validator(mode="after")]. *)
Record model := Model {
  mname : string;
  mfields : list field;
  mafter : option (pydict -> res unit)
}.

Definition is_finite (d : Decimal) : bool :=
  match d with DFin _ _ _ => true | _ => false end.

Definition is_integral (d : Decimal) : option Z :=
  match d with
  | DFin s c e =>
      if (0 <=? e)%Z then Some (signed s (c * 10 ^ Z.to_N e))
      else if c mod 10 ^ Z.to_N (- e) =? 0
           then Some (signed s (c / 10 ^ Z.to_N (- e))) else None
  | _ => None
  end.

Section Coerce.
Context (L : Lib).

(** The annotation's own validation, in lax mode; [None] is a validation
    error. A [str] field takes only a [str]; numbers are not turned into
    text. *)
Fixpoint coerce (t : ftype) (v : pyval) : option pyval :=
  match t with
  | TStr => match v with VStr _ => Some v | _ => None end
  | TInt =>
      match v with
      | VInt _ => Some v
      | VBool b => Some (VInt (if b then 1 else 0))
      | VStr s => option_map VInt (lax_int_of_str L s)
      | VDec d => option_map VInt (is_integral d)
      | _ => None
      end
  | TDecimal =>
      match v with
      | VDec d => if is_finite d then Some v else None
      | VStr s =>
          match parse_decimal s with
          | Some d => if is_finite d then Some (VDec d) else None
          | None => None
          end
      | VInt z => Some (VDec (of_int z))
      | _ => None
      end
  | TDict => match v with VDict _ => Some v | _ => None end
  | TLiteral s =>
      match v with
      | VStr s' => if String.eqb s' s then Some v else None
      | _ => None
      end
  | TOptional t' =>
      match v with
      | VNone => Some VNone
      | _ => coerce t' v
      end
  end.

(** What validating one field yields. *)
Inductive fres :=
| FValid (v : pyval)
| FInvalid (msg : string)
| FRaised (e : exn).

(** A validator that raises ValueError adds a validation error; any other
    exception leaves the validation as it is. *)
Definition run_validator (g : option (pyval -> res pyval)) (v : pyval)
    (k : pyval -> fres) : fres :=
  match g with
  | None => k v
  | Some f =>
      match f v with
      | Ok v' => k v'
      | Raise (ValueError msg) => FInvalid msg
      | Raise e => FRaised e
      end
  end.

Definition validate_field (f : field) (payload : pydict) : fres :=
  match dict_get (fname f) payload with
  | None =>
      match fdefault f with
      | Some d => FValid d
      | None => FInvalid "Field required"
      end
  | Some raw =>
      run_validator (fbefore f) raw (fun v1 =>
        match coerce (ftyp f) v1 with
        | None => FInvalid "Input should be a valid value of the field's type"
        | Some v2 => run_validator (fafter f) v2 FValid
        end)
  end.

(** The input that the error of a field carries, as [errors()] lists it:
    the whole payload when the field is missing, the value as given when
    the "before" validator refuses it, and else the value that this
    validator returned. *)
Definition error_input (f : field) (payload : pydict) : pyval :=
  match dict_get (fname f) payload with
  | None => VDict payload
  | Some raw =>
      match fbefore f with
      | Some g => match g raw with Ok v1 => v1 | Raise _ => raw end
      | None => raw
      end
  end.

(** The outcome of [model_validate]. *)
Inductive outcome :=
| Valid (d : pydict)
| Invalid (errors : list (string * string))
| Raised (e : exn).

(** All fields are validated in order and their errors collected. *)
Fixpoint validate_fields (fs : list field) (payload : pydict)
    (acc : pydict) (errs : list (string * string)) : outcome :=
  match fs with
  | [] =>
      match errs with
      | [] => Valid (rev acc)
      | _ => Invalid (rev errs)
      end
  | f :: fs' =>
      match validate_field f payload with
      | FValid v => validate_fields fs' payload ((fname f, v) :: acc) errs
      | FInvalid msg => validate_fields fs' payload acc ((fname f, msg) :: errs)
      | FRaised e => Raised e
      end
  end.

(** [model_cls.model_validate(payload)], read as the field values that
    [model_dump()] returns. *)
Definition model_validate (m : model) (payload : pydict) : outcome :=
  match validate_fields (mfields m) payload [] [] with
  | Valid d =>
      match mafter m with
      | None => Valid d
      | Some g =>
          match g d with
          | Ok _ => Valid d
          | Raise (ValueError msg) => Invalid [("", msg)]
          | Raise e => Raised e
          end
      end
  | o => o
  end.

(** The inputs that the errors of a refused payload carry: those of the
    fields that failed, in order; when every field passed, it is the
    model's own validator that refused, and its error carries the
    payload. *)
Definition error_inputs (m : model) (payload : pydict) : list pyval :=
  match validate_fields (mfields m) payload [] [] with
  | Valid _ => [VDict payload]
  | _ =>
      flat_map (fun f =>
                  match validate_field f payload with
                  | FInvalid _ => [error_input f payload]
                  | _ => []
                  end) (mfields m)
  end.

End Coerce.
End Pydantic.

(* ===================================================================== *)
(** ** The model classes                                                  *)
(* ===================================================================== *)

Module Models.
Import Pydantic.

Local Open Scope res_scope.

Definition fld (name : string) (t : ftype) : field :=
  Field name t None None None.

Definition fld_before (name : string) (t : ftype) (g : pyval -> res pyval) : field :=
  Field name t None (Some g) None.

Definition fld_after (name : string) (t : ftype) (g : pyval -> res pyval) : field :=
  Field name t None None (Some g).

(** The [type] tag: a literal with itself as default. *)
Definition fld_type (tag : string) : field :=
  Field "type" (TLiteral tag) (Some (VStr tag)) None None.

(** [CustomerModel.validate_mobile], [DeliveryAgentModel.validate_mobile] *)
Definition validate_mobile (v : pyval) : res pyval :=
  try! s := as_str v in
  if negb (String.length s =? 10)%nat
     || match s with
        | String c _ => negb (char_in c "6789")
        | EmptyString => true
        end
     || negb (isdigit s)
  then Raise (ValueError "Invalid Mobile Number")
  else Ok v.

(** [RestaurantModel.name_nonempty], [MenuModel.itemname_nonempty] *)
Definition nonempty_upto (limit : nat) (what : string) (v : pyval) : res pyval :=
  try! s := as_str v in
  let t := strip s in
  if is_empty t then Raise (ValueError (what ++ " cannot be empty"))
  else if (limit <? String.length t)%nat then Raise (ValueError (what ++ " too long"))
  else Ok (VStr t).

Definition name_nonempty := nonempty_upto 200 "Restaurant name".
Definition itemname_nonempty := nonempty_upto 150 "Item name".

(** [RestaurantModel.validate_price], [MenuModel.validate_price] *)
Definition validate_price (v : pyval) : res pyval :=
  match v with
  | VDec d =>
      try! nonpos := dle d (of_int 0) in
      if nonpos then Raise (ValueError "Price must be positive")
      else try! q := to_decimal v in Ok (VDec q)
  | _ => Raise TypeError
  end.

(** [OrderItemModel.quantity_positive] *)
Definition quantity_positive (v : pyval) : res pyval :=
  try! n := py_int v in
  if (n <=? 0)%Z then Raise (ValueError "Quantity must be > 0")
  else Ok (VInt n).

(** [OrderItemModel.decimal_positive], [OrderModel.total_positive] *)
Definition nonnegative_amount (msg : string) (v : pyval) : res pyval :=
  try! d := to_decimal v in
  try! neg := dlt d (of_int 0) in
  if neg then Raise (ValueError msg) else Ok (VDec d).

Definition decimal_positive :=
  nonnegative_amount "Price/Subtotal must be non-negative".
Definition total_positive :=
  nonnegative_amount "Total amount must be non-negative".

(** [DeliveryAgentModel.rating_ok] *)
Definition rating_ok (v : pyval) : res pyval :=
  match v with
  | VNone => Ok v
  | _ =>
      try! d := to_decimal v in
      try! low := dlt d (of_int 0) in
      if low then Raise (ValueError "Rating must be between 0 and 5")
      else
        try! high := dgt d (of_int 5) in
        if high then Raise (ValueError "Rating must be between 0 and 5")
        else Ok (VDec d)
  end.

(** [AddressModel.validate_pincode] *)
Definition validate_pincode (v : pyval) : res pyval :=
  match v with
  | VInt z =>
      if negb (z =? 0)%Z && ((z <? 100000)%Z || (999999 <? z)%Z)
      then Raise (ValueError "Pincode must be 6 digits")
      else Ok v
  | _ => Ok v
  end.

(** The attributes [check_subtotal] reads off the validated item. *)
Definition attr_decimal (k : string) (d : pydict) : res Decimal :=
  try! v := dict_item k d in
  match v with VDec x => Ok x | _ => Raise TypeError end.

Definition attr_int (k : string) (d : pydict) : res Z :=
  try! v := dict_item k d in
  match v with VInt z => Ok z | _ => Raise TypeError end.

(** [OrderItemModel.check_subtotal] *)
Definition check_subtotal (self : pydict) : res unit :=
  try! price := attr_decimal "price" self in
  try! quantity := attr_int "quantity" self in
  try! subtotal := attr_decimal "subtotal" self in
  try! product := dmul price (of_int quantity) in
  try! expected := quantize2 product in
  try! differs := dne subtotal expected in
  if differs then
    try! bound := dsub expected (DFin false 1 (-2)) in
    try! below := dlt subtotal bound in
    if below then
      Raise (ValueError
        ("Subtotal does not match price*quantity (expected " ++ dstr expected
           ++ ", got " ++ dstr subtotal ++ ")"))
    else Ok tt
  else Ok tt.

Section WithLib.
Context (L : Lib).

Definition iso_error : exn := ValueError "Invalid ISO timestamp".

(** The [validate_iso] of the models that take no null timestamp, and
    [LoginAuditModel.lastlogin_ok]: whatever goes wrong inside the [try],
    a missing [replace] attribute included, becomes a ValueError. *)
Definition validate_iso (v : pyval) : res pyval :=
  match v with
  | VStr s =>
      if fromisoformat_ok L (replace_char "Z" "+00:00" s) then Ok v
      else Raise iso_error
  | _ => Raise iso_error
  end.

Definition lastlogin_ok := validate_iso.

(** The [validate_iso] of [CustomerModel] and [DeliveryModel], which
    returns a null timestamp as it is. *)
Definition validate_iso_opt (v : pyval) : res pyval :=
  match v with
  | VNone => Ok v
  | _ => validate_iso v
  end.

(** [AddressModel.validate_coordinates] *)
Definition validate_coordinates (v : pyval) : res pyval :=
  match v with
  | VStr s =>
      if is_empty s then Ok v
      else
        match split_char "," s with
        | [a; b] =>
            match py_float_within L (-90) 90 a, py_float_within L (-180) 180 b with
            | Some lat_ok, Some lon_ok =>
                if lat_ok && lon_ok then Ok v
                else Raise (ValueError "Coordinates out of range")
            | _, _ => Raise (ValueError "could not convert string to float")
            end
        | _ => Raise (ValueError "Coordinates must be 'lat,lon'")
        end
  | _ => Ok v
  end.

Definition CustomerModel : model :=
  Model "CustomerModel"
    [ fld_type "customer";
      fld "customer_id" TStr;
      fld "name" TStr;
      fld_after "mobile" TStr validate_mobile;
      fld "email" TStr;
      fld "loginbyusing" (TOptional TStr);
      fld "gender" (TOptional TStr);
      fld_before "dob" (TOptional TStr) validate_iso_opt;
      fld "preferences" (TOptional TDict);
      fld_before "created_date" TStr validate_iso_opt ]
    None.

Definition AddressModel : model :=
  Model "AddressModel"
    [ fld_type "customeraddressbook";
      fld "address_id" TStr;
      fld "customer_id" TStr;
      fld "flatno" (TOptional TStr);
      fld "houseno" (TOptional TStr);
      fld "floor" (TOptional TStr);
      fld "building" (TOptional TStr);
      fld "landmark" (TOptional TStr);
      fld_after "coordinates" (TOptional TStr) validate_coordinates;
      fld "primaryflag" (TOptional TStr);
      fld "address_type" (TOptional TStr);
      fld "locality" (TOptional TStr);
      fld "city" (TOptional TStr);
      fld "state" (TOptional TStr);
      fld_after "pincode" (TOptional TInt) validate_pincode;
      fld_before "created_date" TStr validate_iso ]
    None.

Definition LocationModel : model :=
  Model "LocationModel"
    [ fld_type "location";
      fld "location_id" TStr;
      fld "city" TStr;
      fld "state" TStr;
      fld "zipcode" (TOptional TStr);
      fld "activeflag" (TOptional TStr);
      fld_before "created_date" TStr validate_iso ]
    None.

Definition RestaurantModel : model :=
  Model "RestaurantModel"
    [ fld_type "restaurant";
      fld "restaurant_id" TStr;
      fld_after "name" TStr name_nonempty;
      fld "cuisine_type" (TOptional TStr);
      fld_after "pricing_for_2" TDecimal validate_price;
      fld "location_id" (TOptional TStr);
      fld_before "created_date" TStr validate_iso ]
    None.

Definition MenuModel : model :=
  Model "MenuModel"
    [ fld_type "menu";
      fld "menu_id" TStr;
      fld "restaurant_id" TStr;
      fld_after "itemname" TStr itemname_nonempty;
      fld "description" (TOptional TStr);
      fld_after "price" TDecimal validate_price;
      fld "activeflag" (TOptional TStr);
      fld_before "created_date" TStr validate_iso ]
    None.

Definition OrderItemModel : model :=
  Model "OrderItemModel"
    [ fld_type "orderitem";
      fld "orderitem_id" TStr;
      fld "order_id" TStr;
      fld "menu_id" TStr;
      fld_before "quantity" TInt quantity_positive;
      fld_before "price" TDecimal decimal_positive;
      fld_before "subtotal" TDecimal decimal_positive ]
    (Some check_subtotal).

Definition OrderModel : model :=
  Model "OrderModel"
    [ fld_type "orders";
      fld "order_id" TStr;
      fld "customer_id" TStr;
      fld "restaurant_id" TStr;
      fld_before "order_date" TStr validate_iso;
      fld_before "totalamount" TDecimal total_positive;
      fld "status" (TOptional TStr);
      fld "paymentmethod" (TOptional TStr);
      fld_before "created_date" TStr validate_iso ]
    None.

Definition DeliveryAgentModel : model :=
  Model "DeliveryAgentModel"
    [ fld_type "deliveryagent";
      fld "deliveryagent_id" TStr;
      fld "name" TStr;
      fld_after "phone" TStr validate_mobile;
      fld "vehicle_type" (TOptional TStr);
      fld "location_id" (TOptional TStr);
      fld "status" (TOptional TStr);
      fld_before "rating" (TOptional TDecimal) rating_ok;
      fld_before "created_date" TStr validate_iso ]
    None.

Definition DeliveryModel : model :=
  Model "DeliveryModel"
    [ fld_type "delivery";
      fld "delivery_id" TStr;
      fld "order_id" TStr;
      fld "deliveryagent_id" TStr;
      fld "deliverystatus" (TOptional TStr);
      fld "estimated_time" (TOptional TStr);
      fld "address_id" TStr;
      fld_before "delivery_date" (TOptional TStr) validate_iso_opt;
      fld_before "created_date" TStr validate_iso_opt ]
    None.

Definition LoginAuditModel : model :=
  Model "LoginAuditModel"
    [ fld_type "loginaudit";
      fld "login_id" TStr;
      fld "customer_id" TStr;
      fld "logintype" (TOptional TStr);
      fld "deviceinterface" (TOptional TStr);
      fld "mobiledevicename" (TOptional TStr);
      fld "webinterface" (TOptional TStr);
      fld_before "lastlogin" (TOptional TStr) lastlogin_ok ]
    None.

End WithLib.
End Models.

(* ===================================================================== *)
(** ** The uniqueness registry and the state of the process               *)
(* ===================================================================== *)

(** The six global sets of natural keys. *)
Record Registry := {
  existing_customer_mobiles : gset string;
  existing_customer_emails : gset string;
  existing_customer_name_dob : gset (string * option string);
  existing_agent_phones : gset string;
  existing_restaurant_keys : gset (string * option string);
  existing_menu_keys : gset (string * string)
}.

Definition empty_registry : Registry :=
  {| existing_customer_mobiles := ∅;
     existing_customer_emails := ∅;
     existing_customer_name_dob := ∅;
     existing_agent_phones := ∅;
     existing_restaurant_keys := ∅;
     existing_menu_keys := ∅ |}.

(** What the program prints: the diagnostics of [validate_or_log] and the
    warnings of the factories. *)
Inductive log_entry :=
| ValidationFailed (model_name : string) (ident : pyval)
    (errors : list (string * string))
| Warning (msg : string).

(** The state of the process: how much entropy has been consumed, the
    registry, and the output so far (latest first). *)
Record World := {
  tick : nat;
  registry : Registry;
  output : list log_entry
}.

Definition initial_world : World :=
  {| tick := 0; registry := empty_registry; output := [] |}.

(** Computations that read and change the state and may raise. *)
Definition M (A : Type) : Type := World -> res A * World.

Definition ret {A} (a : A) : M A := fun w => (Ok a, w).

Definition raise {A} (e : exn) : M A := fun w => (Raise e, w).

Definition bind {A B} (m : M A) (k : A -> M B) : M B :=
  fun w =>
    match m w with
    | (Ok a, w') => k a w'
    | (Raise e, w') => (Raise e, w')
    end.

Definition lift {A} (r : res A) : M A := fun w => (r, w).

Declare Scope M_scope.
Delimit Scope M_scope with M.
Notation "'let!' x := m 'in' k" := (bind m (fun x => k))
  (at level 10, x name, m at level 100, k at level 200) : M_scope.
Notation "'let!' ' p := m 'in' k" := (bind m (fun x => let 'p := x in k))
  (at level 10, p strict pattern, m at level 100, k at level 200) : M_scope.
Notation "m ;;! k" := (bind m (fun _ => k))
  (at level 100, k at level 200, right associativity) : M_scope.

Definition get_registry : M Registry := fun w => (Ok (registry w), w).

Definition update_registry (f : Registry -> Registry) : M unit :=
  fun w => (Ok tt, {| tick := tick w; registry := f (registry w); output := output w |}).

Definition emit (e : log_entry) : M unit :=
  fun w => (Ok tt, {| tick := tick w; registry := registry w; output := e :: output w |}).

Definition add_customer_keys (mobile email : string) (name_dob : string * option string)
    (r : Registry) : Registry :=
  {| existing_customer_mobiles := {[ mobile ]} ∪ existing_customer_mobiles r;
     existing_customer_emails := {[ email ]} ∪ existing_customer_emails r;
     existing_customer_name_dob := {[ name_dob ]} ∪ existing_customer_name_dob r;
     existing_agent_phones := existing_agent_phones r;
     existing_restaurant_keys := existing_restaurant_keys r;
     existing_menu_keys := existing_menu_keys r |}.

Definition add_agent_phone (phone : string) (r : Registry) : Registry :=
  {| existing_customer_mobiles := existing_customer_mobiles r;
     existing_customer_emails := existing_customer_emails r;
     existing_customer_name_dob := existing_customer_name_dob r;
     existing_agent_phones := {[ phone ]} ∪ existing_agent_phones r;
     existing_restaurant_keys := existing_restaurant_keys r;
     existing_menu_keys := existing_menu_keys r |}.

Definition add_restaurant_key (key : string * option string) (r : Registry) : Registry :=
  {| existing_customer_mobiles := existing_customer_mobiles r;
     existing_customer_emails := existing_customer_emails r;
     existing_customer_name_dob := existing_customer_name_dob r;
     existing_agent_phones := existing_agent_phones r;
     existing_restaurant_keys := {[ key ]} ∪ existing_restaurant_keys r;
     existing_menu_keys := existing_menu_keys r |}.

Definition add_menu_key (key : string * string) (r : Registry) : Registry :=
  {| existing_customer_mobiles := existing_customer_mobiles r;
     existing_customer_emails := existing_customer_emails r;
     existing_customer_name_dob := existing_customer_name_dob r;
     existing_agent_phones := existing_agent_phones r;
     existing_restaurant_keys := existing_restaurant_keys r;
     existing_menu_keys := {[ key ]} ∪ existing_menu_keys r |}.

(* ===================================================================== *)
(** ** Validation helper, generators and factories                        *)
(* ===================================================================== *)

Module Engine.
Import Pydantic Models.

Local Open Scope list_scope.
Local Open Scope M_scope.

Definition MAX_UNIQUENESS_ATTEMPTS : nat := 20.

(** [model.model_dump()] followed by the loop that turns every top-level
    Decimal into [format(v, "f")]. *)
Definition dump (d : pydict) : pydict :=
  map (fun kv => match kv.2 with
                 | VDec x => (kv.1, VStr (format_f x))
                 | _ => kv
                 end) d.

(** A result that the callers' [if valid:] takes: a non-empty dict. *)
Definition accepted (o : option pydict) : option pydict :=
  match o with
  | Some ((_ :: _) as d) => Some d
  | _ => None
  end.

(** A key of a set of strings; the candidates only ever hold a [str]
    here. *)
Definition key_str (v : pyval) : res string :=
  match v with
  | VStr s => Ok s
  | _ => Raise TypeError
  end.

(** A key that may be null. *)
Definition key_opt_str (v : pyval) : res (option string) :=
  match v with
  | VNone => Ok None
  | VStr s => Ok (Some s)
  | _ => Raise TypeError
  end.

(** [rows[:n]] *)
Definition slice_to {A} (n : Z) (l : list A) : list A :=
  if (0 <=? n)%Z then take (Z.to_nat n) l
  else take (length l - Z.to_nat (- n)) l.

(** The text of a float that has at most two decimals: [c] hundredths,
    printed without a trailing zero but with one decimal at least. *)
Definition str_float2 (c : N) : string :=
  if c mod 10 =? 0 then print_fixed (of_N (c / 10)) 1
  else print_fixed (of_N c) 2.

(** The same for a float with one decimal: [c] tenths. *)
Definition str_float1 (c : N) : string := print_fixed (of_N c) 1.

Section WithLib.
Context (L : Lib).

(** [validate_or_log(payload, model_cls)]. The handler formats the
    identifying value and [exc.errors()], which holds the input of every
    error, before it prints: an [int] beyond the limit in one of them
    raises the ValueError of [str], and nothing is printed. *)
Definition validate_or_log (payload : pydict) (m : model) : M (option pydict) :=
  match model_validate L m payload with
  | Valid d => ret (Some (dump d))
  | Invalid errors =>
      match dict_keys payload !! 1%nat with
      | None => raise IndexError
      | Some k =>
          let ident := default (VStr "unknown") (dict_get k payload) in
          if prints ident && forallb prints (error_inputs L m payload)
          then emit (ValidationFailed (mname m) ident errors) ;;! ret None
          else raise int_limit_error
      end
  | Raised e => raise e
  end.

(** *** Entropy *)

Definition draw : M nat :=
  fun w => (Ok (rnd L (tick w)),
            {| tick := S (tick w); registry := registry w; output := output w |}).

(** [random.choice(seq)] *)
Definition choice {A} (l : list A) : M A :=
  let! n := draw in
  match l !! (n mod length l)%nat with
  | Some x => ret x
  | None => raise IndexError
  end.

(** [random.randint(a, b)] *)
Definition randint (a b : Z) : M Z :=
  let! n := draw in ret (a + Z.of_nat n mod (b - a + 1))%Z.

(** [random.random() < num/den] *)
Definition random_below (num den : nat) : M bool :=
  let! n := draw in ret (n mod den <? num)%nat.

(** [str(round(random.uniform(a, b), 2))] *)
Definition uniform_str2 (a b : N) : M string :=
  let! n := draw in
  ret (str_float2 (100 * a + N.of_nat n mod (100 * (b - a) + 1))).

(** [str(round(random.uniform(a, b), 1))] *)
Definition uniform_str1 (a b : N) : M string :=
  let! n := draw in
  ret (str_float1 (10 * a + N.of_nat n mod (10 * (b - a) + 1))).

(** [random.uniform(a, b)], as the text of the float: a point of
    [[a, b)] on a grid of 10^-15. *)
Definition uniform (a b : N) : M pyval :=
  let! n := draw in
  ret (VStr (print_fixed
               (of_N (10 ^ 15 * a + N.of_nat n mod (10 ^ 15 * (b - a)))) 15)).

Definition uuid4_str : M string := let! n := draw in ret (uuid4 L n).
Definition now_iso : M string := let! n := draw in ret (now_iso_at L n).
Definition fake (table : Lib -> nat -> string) : M string :=
  let! n := draw in ret (table L n).

Fixpoint random_digits (k : nat) : M string :=
  match k with
  | O => ret EmptyString
  | S k' =>
      let! n := draw in
      let! r := random_digits k' in
      ret (String (digit_char (N.of_nat (n mod 10))) r)
  end.

(** [random_phone_india()] *)
Definition random_phone_india : M string :=
  let! c := choice ["6"; "7"; "8"; "9"]%char in
  let! ds := random_digits 9 in
  ret (String c ds).

(** [random.sample(l, k)]: [k] elements at distinct positions. *)
Fixpoint sample {A} (l : list A) (k : nat) : M (list A) :=
  match k with
  | O => ret []
  | S k' =>
      let! n := draw in
      let i := (n mod length l)%nat in
      match l !! i with
      | None => raise (ValueError "Sample larger than population")
      | Some x => let! r := sample (delete i l) k' in ret (x :: r)
      end
  end.

(** *** Customers *)

(** [make_customer_candidate(customer_id)] *)
Definition make_customer_candidate (customer_id : option string) : M pydict :=
  let! cid :=
    match customer_id with
    | Some ((String _ _) as s) => ret s
    | _ => uuid4_str
    end in
  let! name := fake fake_name in
  let! domain := choice ["gmail"; "outlook"; "hotmail"; "icloud"] in
  let! k := randint 1 9999 in
  let email := strip (lower name) +:+ str_int k +:+ "@" +:+ domain +:+ ".com" in
  let! mobile := random_phone_india in
  let! login := choice ["OTP"; "Google"; "Facebook"; "Email"] in
  let! gender := choice ["Male"; "Female"; "Other"] in
  let! dob := fake fake_date_of_birth in
  let! vegan := choice [true; false] in
  let! spicy := choice ["low"; "medium"; "high"] in
  let! created := now_iso in
  ret [ ("type", VStr "customer");
        ("customer_id", VStr cid);
        ("name", VStr name);
        ("mobile", VStr mobile);
        ("email", VStr email);
        ("loginbyusing", VStr login);
        ("gender", VStr gender);
        ("dob", VStr dob);
        ("preferences", VDict [("vegan", VBool vegan); ("spicy", VStr spicy)]);
        ("created_date", VStr created) ].

Definition warn_customer : log_entry :=
  Warning "[WARNING] Unable to create a unique customer after attempts; skipping.".

(** One pass through the body of the loop of [make_customer_unique]:
    [None] is [continue], [Some valid] is [return valid]. *)
Definition customer_attempt (customer_id : option string) : M (option pydict) :=
  let! payload := make_customer_candidate customer_id in
  let! mobile := lift (res_bind (dict_item "mobile" payload) key_str) in
  let! email := lift (res_bind (dict_item "email" payload) as_str) in
  let email := lower email in
  let! name := lift (res_bind (dict_item "name" payload) as_str) in
  let! dob := lift (res_bind (dict_item "dob" payload) key_opt_str) in
  let name_dob := (lower (strip name), dob) in
  let! reg := get_registry in
  if bool_decide (mobile ∈ existing_customer_mobiles reg)
     || bool_decide (email ∈ existing_customer_emails reg)
     || bool_decide (name_dob ∈ existing_customer_name_dob reg)
  then ret None
  else
    let! valid := validate_or_log payload (CustomerModel L) in
    match accepted valid with
    | None => ret None
    | Some valid =>
        let! vmobile := lift (res_bind (dict_item "mobile" valid) key_str) in
        let! vemail := lift (res_bind (dict_item "email" valid) as_str) in
        let! vname := lift (res_bind (dict_item "name" valid) as_str) in
        let! vdob :=
          lift (key_opt_str (default VNone (dict_get "dob" valid))) in
        update_registry
          (add_customer_keys vmobile (lower vemail) (lower (strip vname), vdob)) ;;!
        ret (Some valid)
    end.

(** [for _ in range(n)]: the body until it returns, then the code after
    the loop. *)
Fixpoint for_attempts {A} (n : nat) (body : M (option A)) (after : M (option A))
  : M (option A) :=
  match n with
  | O => after
  | S n' =>
      let! r := body in
      match r with
      | Some a => ret (Some a)
      | None => for_attempts n' body after
      end
  end.

(** [make_customer_unique(customer_id)] *)
Definition make_customer_unique (customer_id : option string) : M (option pydict) :=
  for_attempts MAX_UNIQUENESS_ATTEMPTS (customer_attempt customer_id)
    (emit warn_customer ;;! ret None).

(** *** Addresses, locations, login audits, deliveries *)

(** The [pincode] and [zipcode] expressions: three separate postcodes are
    drawn, two by the condition and one by the branch. *)
Definition postcode_or_random {A} (of_postcode : string -> M A) (of_int : Z -> A)
  : M A :=
  let! p1 := fake fake_postcode in
  let! six :=
    if isdigit p1
    then let! p2 := fake fake_postcode in ret (String.length p2 =? 6)%nat
    else ret false in
  if six then let! p3 := fake fake_postcode in of_postcode p3
  else let! k := randint 100000 999999 in ret (of_int k).

(** [make_address(customer_id)] *)
Definition make_address (customer_id : pyval) : M (option pydict) :=
  let! address_id := uuid4_str in
  let! flatno := randint 1 500 in
  let! houseno := randint 1 2000 in
  let! floor := randint 0 40 in
  let! building := fake fake_street_name in
  let! landmark := fake fake_street_address in
  let! lat := fake fake_latitude in
  let! lon := fake fake_longitude in
  let! primaryflag := choice ["Y"; "N"] in
  let! address_type := choice ["Home"; "Work"] in
  let! locality := fake fake_city_suffix in
  let! city := fake fake_city in
  let! state := fake fake_state in
  let! pincode :=
    postcode_or_random
      (fun p => let! z := lift (py_int (VStr p)) in ret (VInt z)) VInt in
  let! created := now_iso in
  validate_or_log
    [ ("type", VStr "customeraddressbook");
      ("address_id", VStr address_id);
      ("customer_id", customer_id);
      ("flatno", VStr (str_int flatno));
      ("houseno", VStr (str_int houseno));
      ("floor", VInt floor);
      ("building", VStr building);
      ("landmark", VStr landmark);
      ("coordinates", VStr (lat +:+ "," +:+ lon));
      ("primaryflag", VStr primaryflag);
      ("address_type", VStr address_type);
      ("locality", VStr locality);
      ("city", VStr city);
      ("state", VStr state);
      ("pincode", pincode);
      ("created_date", VStr created) ]
    (AddressModel L).

(** [make_location()] *)
Definition make_location : M (option pydict) :=
  let! location_id := uuid4_str in
  let! city := fake fake_city in
  let! state := fake fake_state in
  let! zipcode :=
    postcode_or_random (fun p => ret (VStr p)) (fun k => VStr (str_int k)) in
  let! activeflag := choice ["Y"; "N"] in
  let! created := now_iso in
  validate_or_log
    [ ("type", VStr "location");
      ("location_id", VStr location_id);
      ("city", VStr city);
      ("state", VStr state);
      ("zipcode", zipcode);
      ("activeflag", VStr activeflag);
      ("created_date", VStr created) ]
    (LocationModel L).

(** [make_delivery(order_id, deliveryagent_id, address_id)] *)
Definition make_delivery (order_id deliveryagent_id address_id : pyval)
  : M (option pydict) :=
  let! delivery_id := uuid4_str in
  let! status := choice ["assigned"; "picked_up"; "delivered"] in
  let! minutes := randint 10 40 in
  let! delivery_date := now_iso in
  let! created := now_iso in
  validate_or_log
    [ ("type", VStr "delivery");
      ("delivery_id", VStr delivery_id);
      ("order_id", order_id);
      ("deliveryagent_id", deliveryagent_id);
      ("deliverystatus", VStr status);
      ("estimated_time", VStr ("00:" +:+ str_int minutes +:+ ":00"));
      ("address_id", address_id);
      ("delivery_date", VStr delivery_date);
      ("created_date", VStr created) ]
    (DeliveryModel L).

(** [make_loginaudit(customer_id)] *)
Definition make_loginaudit (customer_id : pyval) : M (option pydict) :=
  let! login_id := uuid4_str in
  let! logintype := choice ["web"; "mobile"] in
  let! device := choice ["iOS"; "Android"; "Chrome"; "Firefox"] in
  let! mobiledevicename := fake fake_user_agent in
  let! webinterface := fake fake_user_agent in
  let! lastlogin := now_iso in
  validate_or_log
    [ ("type", VStr "loginaudit");
      ("login_id", VStr login_id);
      ("customer_id", customer_id);
      ("logintype", VStr logintype);
      ("deviceinterface", VStr device);
      ("mobiledevicename", VStr mobiledevicename);
      ("webinterface", VStr webinterface);
      ("lastlogin", VStr lastlogin) ]
    (LoginAuditModel L).

(** *** Restaurants, menu items, delivery agents *)

Definition warn_restaurant : log_entry :=
  Warning "[WARNING] Unable to create a unique restaurant after attempts; skipping.".

Definition restaurant_attempt : M (option pydict) :=
  let! location_id := uuid4_str in
  let! name := fake fake_company in
  let key := (lower (strip name), Some location_id) in
  let! reg := get_registry in
  if bool_decide (key ∈ existing_restaurant_keys reg) then ret None
  else
    let! restaurant_id := uuid4_str in
    let! cuisine :=
      choice ["Indian"; "Chinese"; "Italian"; "Fast Food"; "Mexican"] in
    let! pricing := uniform_str2 100 2000 in
    let! created := now_iso in
    let! valid :=
      validate_or_log
        [ ("type", VStr "restaurant");
          ("restaurant_id", VStr restaurant_id);
          ("name", VStr name);
          ("cuisine_type", VStr cuisine);
          ("pricing_for_2", VStr pricing);
          ("location_id", VStr location_id);
          ("created_date", VStr created) ]
        (RestaurantModel L) in
    match accepted valid with
    | None => ret None
    | Some valid =>
        let! vname := lift (res_bind (dict_item "name" valid) as_str) in
        let! vloc := lift (res_bind (dict_item "location_id" valid) key_opt_str) in
        update_registry (add_restaurant_key (lower (strip vname), vloc)) ;;!
        ret (Some valid)
    end.

(** [make_restaurant_unique()] *)
Definition make_restaurant_unique : M (option pydict) :=
  for_attempts MAX_UNIQUENESS_ATTEMPTS restaurant_attempt
    (emit warn_restaurant ;;! ret None).

Definition warn_menu : log_entry :=
  Warning "[WARNING] Unable to create a unique menu item after attempts; skipping.".

Definition menu_attempt (restaurant_id : string) : M (option pydict) :=
  let! word := fake fake_word_title in
  let! food := fake fake_food in
  let itemname := strip (word +:+ " " +:+ food) in
  let key := (restaurant_id, lower (strip itemname)) in
  let! reg := get_registry in
  if bool_decide (key ∈ existing_menu_keys reg) then ret None
  else
    let! menu_id := uuid4_str in
    let! description := fake fake_sentence in
    let! price := uniform_str2 50 800 in
    let! activeflag := choice ["Y"; "N"] in
    let! created := now_iso in
    let! valid :=
      validate_or_log
        [ ("type", VStr "menu");
          ("menu_id", VStr menu_id);
          ("restaurant_id", VStr restaurant_id);
          ("itemname", VStr itemname);
          ("description", VStr description);
          ("price", VStr price);
          ("activeflag", VStr activeflag);
          ("created_date", VStr created) ]
        (MenuModel L) in
    match accepted valid with
    | None => ret None
    | Some valid =>
        let! vrest := lift (res_bind (dict_item "restaurant_id" valid) key_str) in
        let! vitem := lift (res_bind (dict_item "itemname" valid) as_str) in
        update_registry (add_menu_key (vrest, lower (strip vitem))) ;;!
        ret (Some valid)
    end.

(** [make_menu_unique(restaurant_id)] *)
Definition make_menu_unique (restaurant_id : string) : M (option pydict) :=
  for_attempts MAX_UNIQUENESS_ATTEMPTS (menu_attempt restaurant_id)
    (emit warn_menu ;;! ret None).

Definition warn_agent : log_entry :=
  Warning "[WARNING] Unable to create a unique delivery agent after attempts; skipping.".

Definition deliveryagent_attempt : M (option pydict) :=
  let! phone := random_phone_india in
  let! reg := get_registry in
  if bool_decide (phone ∈ existing_agent_phones reg) then ret None
  else
    let! agent_id := uuid4_str in
    let! name := fake fake_name in
    let! vehicle := choice ["bike"; "scooter"; "car"] in
    let! location_id := uuid4_str in
    let! status := choice ["available"; "busy"; "offline"] in
    let! rating := uniform_str1 1 5 in
    let! created := now_iso in
    let! valid :=
      validate_or_log
        [ ("type", VStr "deliveryagent");
          ("deliveryagent_id", VStr agent_id);
          ("name", VStr name);
          ("phone", VStr phone);
          ("vehicle_type", VStr vehicle);
          ("location_id", VStr location_id);
          ("status", VStr status);
          ("rating", VStr rating);
          ("created_date", VStr created) ]
        (DeliveryAgentModel L) in
    match accepted valid with
    | None => ret None
    | Some valid =>
        let! vphone := lift (res_bind (dict_item "phone" valid) key_str) in
        update_registry (add_agent_phone vphone) ;;!
        ret (Some valid)
    end.

(** [make_deliveryagent_unique()] *)
Definition make_deliveryagent_unique : M (option pydict) :=
  for_attempts MAX_UNIQUENESS_ATTEMPTS deliveryagent_attempt
    (emit warn_agent ;;! ret None).

(** *** Orders with their items *)

(** [Decimal(v)] for a field of a dumped record. *)
Definition decimal_ctor (v : pyval) : res Decimal :=
  match v with
  | VStr s =>
      match parse_decimal s with
      | Some d => Ok d
      | None => Raise InvalidOperation
      end
  | VInt z => Ok (of_int z)
  | VDec d => Ok d
  | _ => Raise TypeError
  end.

(** [sum(Decimal(itm["subtotal"]) for itm in items)], from the [int] 0. *)
Fixpoint sum_subtotals (acc : Decimal) (items : list pydict) : res Decimal :=
  match items with
  | [] => Ok acc
  | itm :: rest =>
      (try! v := dict_item "subtotal" itm in
       try! d := decimal_ctor v in
       try! acc' := dadd acc d in
       sum_subtotals acc' rest)%res
  end.

(** The loop over the chosen menu items. *)
Fixpoint order_items (order_id : string) (chosen : list pydict) : M (list pydict) :=
  match chosen with
  | [] => ret []
  | menu_item :: rest =>
      let! qty := randint 1 3 in
      let! price := lift (res_bind (dict_item "price" menu_item) decimal_of_str) in
      let! subtotal := lift (res_bind (dmul price (of_int qty)) quantize2) in
      let! orderitem_id := uuid4_str in
      let! menu_id := lift (dict_item "menu_id" menu_item) in
      let! itm_valid :=
        validate_or_log
          [ ("type", VStr "orderitem");
            ("orderitem_id", VStr orderitem_id);
            ("order_id", VStr order_id);
            ("menu_id", menu_id);
            ("quantity", VInt qty);
            ("price", VStr (dstr price));
            ("subtotal", VStr (dstr subtotal)) ]
          OrderItemModel in
      let! more := order_items order_id rest in
      ret (match accepted itm_valid with
           | Some itm => itm :: more
           | None => more
           end)
  end.

(** [make_order_with_items(customer_id, restaurant_id, menus_for_rest)] *)
Definition make_order_with_items (customer_id restaurant_id : pyval)
    (menus_for_rest : list pydict) : M (option pydict * list pydict) :=
  let! order_id := uuid4_str in
  match menus_for_rest with
  | [] => ret (None, [])
  | _ =>
      let! k := randint 1 (Z.min 3 (Z.of_nat (length menus_for_rest))) in
      let! chosen := sample menus_for_rest (Z.to_nat k) in
      let! items := order_items order_id chosen in
      match items with
      | [] => ret (None, [])
      | _ =>
          let! subtotals := lift (sum_subtotals (of_int 0) items) in
          let! u := uniform 10 60 in
          let! surcharge := lift (to_decimal u) in
          let! total := lift (dadd subtotals surcharge) in
          let! order_date := now_iso in
          let! status := choice ["placed"; "preparing"; "on_the_way"; "delivered"] in
          let! paymentmethod := choice ["card"; "cash"; "wallet"; "upi"] in
          let! created := now_iso in
          let! order_valid :=
            validate_or_log
              [ ("type", VStr "orders");
                ("order_id", VStr order_id);
                ("customer_id", customer_id);
                ("restaurant_id", restaurant_id);
                ("order_date", VStr order_date);
                ("totalamount", VStr (dstr total));
                ("status", VStr status);
                ("paymentmethod", VStr paymentmethod);
                ("created_date", VStr created) ]
              (OrderModel L) in
          ret (order_valid, items)
      end
  end.

(* ===================================================================== *)
(** ** The batch builder                                                  *)
(* ===================================================================== *)

(** [a == b] on identifiers, which the models keep as [str]. *)
Definition py_eq (a b : pyval) : bool :=
  match a, b with
  | VStr x, VStr y => String.eqb x y
  | VNone, VNone => true
  | VInt x, VInt y => (x =? y)%Z
  | VBool x, VBool y => Bool.eqb x y
  | _, _ => false
  end.

(** The [while] loop that fills the customer pool; [fuel] is what is left
    of the attempt budget. *)
Fixpoint customer_loop (fuel : nat) (num_customers : Z)
    (customers rows : list pydict) : M (list pydict * list pydict) :=
  match fuel with
  | O => ret (customers, rows)
  | S fuel' =>
      if (Z.of_nat (length customers) <? num_customers)%Z then
        let! c := make_customer_unique None in
        match accepted c with
        | Some c => customer_loop fuel' num_customers (customers ++ [c]) (rows ++ [c])
        | None => customer_loop fuel' num_customers customers rows
        end
      else ret (customers, rows)
  end.

(** [for _ in range(k): a = make_address(...)] *)
Fixpoint address_loop (k : nat) (customer_id : pyval)
    (addresses rows : list pydict) : M (list pydict * list pydict) :=
  match k with
  | O => ret (addresses, rows)
  | S k' =>
      let! a := make_address customer_id in
      match accepted a with
      | Some a => address_loop k' customer_id (addresses ++ [a]) (rows ++ [a])
      | None => address_loop k' customer_id addresses rows
      end
  end.

(** [for c in customers]: addresses and the occasional login event. *)
Fixpoint address_stage (customers : list pydict)
    (addresses rows : list pydict) : M (list pydict * list pydict) :=
  match customers with
  | [] => ret (addresses, rows)
  | c :: rest =>
      let! k := randint 1 2 in
      let! cid := lift (dict_item "customer_id" c) in
      let! '(addresses, rows) := address_loop (Z.to_nat k) cid addresses rows in
      let! login := random_below 4 10 in
      let! rows :=
        if login then
          let! cid := lift (dict_item "customer_id" c) in
          let! la := make_loginaudit cid in
          ret (match accepted la with Some la => rows ++ [la] | None => rows end)
        else ret rows in
      address_stage rest addresses rows
  end.

(** A pool filled by [n] calls of a factory. *)
Fixpoint pool_loop (n : nat) (factory : M (option pydict))
    (pool rows : list pydict) : M (list pydict * list pydict) :=
  match n with
  | O => ret (pool, rows)
  | S n' =>
      let! r := factory in
      match accepted r with
      | Some r => pool_loop n' factory (pool ++ [r]) (rows ++ [r])
      | None => pool_loop n' factory pool rows
      end
  end.

(** [for _ in range(k): m = make_menu_unique(...)] *)
Fixpoint menu_loop (k : nat) (restaurant_id : string)
    (mlist rows : list pydict) : M (list pydict * list pydict) :=
  match k with
  | O => ret (mlist, rows)
  | S k' =>
      let! m := make_menu_unique restaurant_id in
      match accepted m with
      | Some m => menu_loop k' restaurant_id (mlist ++ [m]) (rows ++ [m])
      | None => menu_loop k' restaurant_id mlist rows
      end
  end.

(** The fallback menu item of a restaurant. *)
Definition fallback_menu (menu_id : string) (restaurant_id : pyval) (created : string)
  : pydict :=
  [ ("type", VStr "menu");
    ("menu_id", VStr menu_id);
    ("restaurant_id", restaurant_id);
    ("itemname", VStr "Basic Item");
    ("description", VStr "auto-created");
    ("price", VStr "100.00");
    ("activeflag", VStr "Y");
    ("created_date", VStr created) ].

(** The body of [for r in restaurants] in the menu stage: the menu list of
    one restaurant and the rows it adds. *)
Definition menus_of_restaurant (r : pydict) (rows : list pydict)
  : M (list pydict * list pydict) :=
  let! k := randint 3 6 in
  let! rid := lift (res_bind (dict_item "restaurant_id" r) key_str) in
  let! '(mlist, rows) := menu_loop (Z.to_nat k) rid [] rows in
  match mlist with
  | [] =>
      let! menu_id := uuid4_str in
      let! rid := lift (dict_item "restaurant_id" r) in
      let! created := now_iso in
      let fallback := fallback_menu menu_id rid created in
      let! frid := lift (res_bind (dict_item "restaurant_id" fallback) key_str) in
      let! fname := lift (res_bind (dict_item "itemname" fallback) as_str) in
      update_registry (add_menu_key (frid, lower (strip fname))) ;;!
      ret ([fallback], rows ++ [fallback])
  | _ => ret (mlist, rows)
  end.

Fixpoint menu_stage (restaurants : list pydict)
    (menus : gmap string (list pydict)) (rows : list pydict)
  : M (gmap string (list pydict) * list pydict) :=
  match restaurants with
  | [] => ret (menus, rows)
  | r :: rest =>
      let! '(mlist, rows) := menus_of_restaurant r rows in
      let! rid := lift (res_bind (dict_item "restaurant_id" r) key_str) in
      menu_stage rest (<[rid := mlist]> menus) rows
  end.

(** [[a for a in addresses if a["customer_id"] == cust["customer_id"]]] *)
Fixpoint addresses_of (cust : pydict) (addresses : list pydict) : res (list pydict) :=
  match addresses with
  | [] => Ok []
  | a :: rest =>
      (try! x := dict_item "customer_id" a in
       try! y := dict_item "customer_id" cust in
       try! more := addresses_of cust rest in
       Ok (if py_eq x y then a :: more else more))%res
  end.

(** The optional delivery of an order that was just appended. *)
Definition delivery_for (cust order_valid : pydict)
    (addresses agents rows : list pydict) : M (list pydict) :=
  let! wanted := random_below 6 10 in
  if wanted && match agents with [] => false | _ => true end then
    let! cust_addresses := lift (addresses_of cust addresses) in
    let! address_id :=
      match cust_addresses, addresses with
      | _ :: _, _ =>
          let! a := choice cust_addresses in lift (dict_item "address_id" a)
      | [], _ :: _ =>
          let! a := choice addresses in lift (dict_item "address_id" a)
      | [], [] => ret VNone
      end in
    let! agent := choice agents in
    if truthy address_id then
      let! oid := lift (dict_item "order_id" order_valid) in
      let! aid := lift (dict_item "deliveryagent_id" agent) in
      let! delivery_rec := make_delivery oid aid address_id in
      ret (match accepted delivery_rec with
           | Some d => rows ++ [d]
           | None => rows
           end)
    else ret rows
  else ret rows.

(** The [while] loop that creates orders; [fuel] is what is left of the
    attempt budget. *)
Fixpoint order_loop (fuel : nat) (batch_size : Z)
    (customers restaurants : list pydict) (menus : gmap string (list pydict))
    (addresses agents rows : list pydict) : M (list pydict) :=
  match fuel with
  | O => ret rows
  | S fuel' =>
      if (Z.of_nat (length rows) <? batch_size)%Z then
        let! cust := choice customers in
        let! rest := choice restaurants in
        let! rid := lift (dict_item "restaurant_id" rest) in
        let rest_menus :=
          match rid with
          | VStr k => default [] (menus !! k)
          | _ => []
          end in
        let! cid := lift (dict_item "customer_id" cust) in
        let! rid := lift (dict_item "restaurant_id" rest) in
        let! '(order_valid, items) := make_order_with_items cid rid rest_menus in
        let! rows :=
          match accepted order_valid with
          | Some order_valid =>
              delivery_for cust order_valid addresses agents
                (rows ++ [order_valid] ++ items)
          | None => ret rows
          end in
        order_loop fuel' batch_size customers restaurants menus addresses agents rows
      else ret rows
  end.

(** The last step of [build_batch]: slice when the target was overshot. *)
Definition finish (batch_size : Z) (rows : list pydict) : list pydict :=
  if (batch_size <? Z.of_nat (length rows))%Z then slice_to batch_size rows
  else rows.

(** Everything [build_batch] does before that: the rows it assembles. *)
Definition assemble (batch_size : Z) : M (list pydict) :=
  let num_customers := Z.max 10 (batch_size / 20) in
  let num_restaurants := Z.max 5 (batch_size / 50) in
  let num_agents := Z.max 5 (batch_size / 50) in
  let! '(customers, rows) :=
    customer_loop (Z.to_nat (num_customers * 10)) num_customers [] [] in
  let! '(addresses, rows) := address_stage customers [] rows in
  let! '(restaurants, rows) :=
    pool_loop (Z.to_nat num_restaurants) make_restaurant_unique [] rows in
  let! '(menus, rows) := menu_stage restaurants ∅ rows in
  let! '(agents, rows) :=
    pool_loop (Z.to_nat num_agents) make_deliveryagent_unique [] rows in
  order_loop (Z.to_nat (batch_size * 10)) batch_size
    customers restaurants menus addresses agents rows.

(** [build_batch(batch_size)] *)
Definition build_batch (batch_size : Z) : M (list pydict) :=
  let! rows := assemble batch_size in
  ret (finish batch_size rows).

End WithLib.
End Engine.

(* ===================================================================== *)
(** ** Reasoning about computations                                       *)
(* ===================================================================== *)

(** [entropy_only w w']: between [w] and [w'] only entropy was consumed;
    the registry and the output are the same. *)
Definition entropy_only (w w' : World) : Prop :=
  registry w' = registry w /\ output w' = output w.

(** [returns m Q w]: run from [w], the computation [m] returns (it does
    not raise) and its value and final state satisfy [Q]. *)
Definition returns {A} (m : M A) (Q : A -> World -> Prop) (w : World) : Prop :=
  match m w with
  | (Ok a, w') => Q a w'
  | (Raise _, _) => False
  end.

(** What the specification says in §8 about the mobile number: the regular
    expression [^[6-9]\d{9}$], read as exactly ten characters, the first
    one of 6, 7, 8, 9 and all of them decimal digits 0-9. *)
Definition mobile_regex (s : string) : bool :=
  match s with
  | String c r =>
      char_in c "6789" && (String.length r =? 9)%nat && all_chars is_ascii_digit r
  | EmptyString => false
  end.

(** A ten-character string that starts with 6 and goes on with nine
    superscript twos (code point 178). *)
Definition superscript_mobile : string :=
  String "6" (String.concat "" (replicate 9 (String (ascii_of_N 178) ""))).

(** What [make_customer_candidate] builds: the payload, with the name read
    from Faker's table and the mobile number made of ASCII digits. *)
Definition customer_candidate (L : Lib) (p : pydict) : Prop :=
  exists cid n domain k mobile login gender dob vegan spicy created,
    p = [ ("type", VStr "customer");
          ("customer_id", VStr cid);
          ("name", VStr (fake_name L n));
          ("mobile", VStr mobile);
          ("email", VStr (strip (lower (fake_name L n)) +:+ str_int k +:+ "@"
                            +:+ domain +:+ ".com"));
          ("loginbyusing", VStr login);
          ("gender", VStr gender);
          ("dob", VStr dob);
          ("preferences", VDict [("vegan", VBool vegan); ("spicy", VStr spicy)]);
          ("created_date", VStr created) ]
    /\ domain ∈ ["gmail"; "outlook"; "hotmail"; "icloud"]
    /\ mobile_regex mobile = true.

(** A customer payload as a caller of the validation layer may build it. *)
Definition customer_payload (mobile email : pyval) : pydict :=
  [ ("type", VStr "customer");
    ("customer_id", VStr "c-1");
    ("name", VStr "Asha Rao");
    ("mobile", mobile);
    ("email", email);
    ("loginbyusing", VStr "OTP");
    ("gender", VStr "Female");
    ("dob", VStr "1990-01-01");
    ("preferences", VNone);
    ("created_date", VStr "2024-01-01T00:00:00+00:00") ].

(** The characters of a numeral in plain notation (digits, the point, the
    minus sign) and in scientific notation. *)
Definition numeral_char (c : ascii) : bool :=
  is_ascii_digit c || Ascii.eqb c "." || Ascii.eqb c "-".

Definition sci_char (c : ascii) : bool :=
  numeral_char c || Ascii.eqb c "E" || Ascii.eqb c "+".

(** An order item payload as a caller of the validation layer may build
    it. *)
Definition order_item_payload (quantity price subtotal : pyval) : pydict :=
  [ ("type", VStr "orderitem");
    ("orderitem_id", VStr "oi-1");
    ("order_id", VStr "o-1");
    ("menu_id", VStr "m-1");
    ("quantity", quantity);
    ("price", price);
    ("subtotal", subtotal) ].

(** A login audit payload with the given [lastlogin]. *)
Definition loginaudit_payload (lastlogin : pyval) : pydict :=
  [ ("type", VStr "loginaudit");
    ("login_id", VStr "l-1");
    ("customer_id", VStr "c-1");
    ("logintype", VStr "web");
    ("deviceinterface", VStr "Chrome");
    ("mobiledevicename", VStr "agent");
    ("webinterface", VStr "agent");
    ("lastlogin", lastlogin) ].

(** A delivery agent payload with the given phone number. *)
Definition agent_payload (phone : pyval) : pydict :=
  [ ("type", VStr "deliveryagent");
    ("deliveryagent_id", VStr "a-1");
    ("name", VStr "Ravi Kumar");
    ("phone", phone);
    ("vehicle_type", VStr "bike");
    ("location_id", VStr "loc-1");
    ("status", VStr "available");
    ("rating", VStr "4.5");
    ("created_date", VStr "2024-01-01T00:00:00+00:00") ].

(** The validated form of an order item: its fields after validation. *)
Definition order_item_fields (quantity : Z) (price subtotal : Decimal) : pydict :=
  [ ("type", VStr "orderitem");
    ("orderitem_id", VStr "oi-1");
    ("order_id", VStr "o-1");
    ("menu_id", VStr "m-1");
    ("quantity", VInt quantity);
    ("price", VDec price);
    ("subtotal", VDec subtotal) ].

(** The claim C4 as it is stated: every customer that the validation layer
    accepts carries an email with exactly one at sign. *)
Definition accepted_emails_have_one_at (L : Lib) : Prop :=
  forall (payload validated : pydict) (w w' : World),
    Engine.validate_or_log L payload (Models.CustomerModel L) w = (Ok (Some validated), w') ->
    exists e, dict_get "email" validated = Some (VStr e) /\ count_char "@" e = 1%nat.

(** The two ValueErrors of [int] on a string: no numeral, and a numeral
    beyond the limit. *)
Definition int_error (e : exn) : Prop :=
  e = ValueError "invalid literal for int()" \/ e = int_limit_error.

(** A payload that the handler of [validate_or_log] can format: every
    value has a text. *)
Definition all_print (p : pydict) : Prop := Forall (fun kv => prints kv.2 = true) p.

(** A validator that makes a value with a text of a value with a text. *)
Definition keeps_printing (g : pyval -> res pyval) : Prop :=
  forall raw v, g raw = Ok v -> prints raw = true -> prints v = true.

(** A field whose error, on a payload with a text, carries an input with
    a text. *)
Definition field_prints (L : Lib) (f : Pydantic.field) : Prop :=
  forall p msg,
    all_print p -> Pydantic.validate_field L f p = Pydantic.FInvalid msg ->
    prints (Pydantic.error_input f p) = true.

Definition fields_print (L : Lib) (m : Pydantic.model) : Prop :=
  Forall (field_prints L) (Pydantic.mfields m).

(** The state after the diagnostic of a refused payload. *)
Definition refused (m : Pydantic.model) (ident : pyval)
    (errors : list (string * string)) (w : World) : World :=
  {| tick := tick w; registry := registry w;
     output := ValidationFailed (Pydantic.mname m) ident errors :: output w |}.

(** The email that [make_customer_candidate] builds from a name, a number
    and a domain. *)
Definition candidate_email (name : string) (k : Z) (domain : string) : string :=
  strip (lower name) +:+ str_int k +:+ "@" +:+ domain +:+ ".com".

(** A payload, or a record, with another email. *)
Definition with_email (e : string) (p : pydict) : pydict :=
  map (fun kv => if String.eqb kv.1 "email" then (kv.1, VStr e) else kv) p.

(** *** Natural keys and the lifetime of a registry *)

(** A string field of a record, and a field that may be null. *)
Definition field_str (k : string) (r : pydict) : string :=
  match dict_get k r with
  | Some (VStr s) => s
  | _ => EmptyString
  end.

Definition field_opt (k : string) (r : pydict) : option string :=
  match dict_get k r with
  | Some (VStr s) => Some s
  | _ => None
  end.

(** The natural keys as the factories compute them before they register
    them. *)
Definition customer_name_dob (c : pydict) : string * option string :=
  (lower (strip (field_str "name" c)), field_opt "dob" c).

Definition restaurant_key (r : pydict) : string * option string :=
  (lower (strip (field_str "name" r)), field_opt "location_id" r).

Definition menu_key (m : pydict) : string * string :=
  (field_str "restaurant_id" m, lower (strip (field_str "itemname" m))).

(** A factory returned [c] from registry [R] and left [R']: the keys of
    [c] were not in [R], and [R'] is [R] with them. *)
Definition customer_registered (c : pydict) (R R' : Registry) : Prop :=
  (field_str "mobile" c ∉ existing_customer_mobiles R) /\
  (lower (field_str "email" c) ∉ existing_customer_emails R) /\
  (customer_name_dob c ∉ existing_customer_name_dob R) /\
  R' = add_customer_keys (field_str "mobile" c) (lower (field_str "email" c))
         (customer_name_dob c) R.

Definition restaurant_registered (r : pydict) (R R' : Registry) : Prop :=
  (restaurant_key r ∉ existing_restaurant_keys R) /\
  R' = add_restaurant_key (restaurant_key r) R.

Definition menu_registered (m : pydict) (R R' : Registry) : Prop :=
  (menu_key m ∉ existing_menu_keys R) /\
  R' = add_menu_key (menu_key m) R.

Definition agent_registered (a : pydict) (R R' : Registry) : Prop :=
  (field_str "phone" a ∉ existing_agent_phones R) /\
  R' = add_agent_phone (field_str "phone" a) R.

(** No key is ever removed: each set of [R] is within that of [R']. *)
Definition registry_grows (R R' : Registry) : Prop :=
  (existing_customer_mobiles R ⊆ existing_customer_mobiles R') /\
  (existing_customer_emails R ⊆ existing_customer_emails R') /\
  (existing_customer_name_dob R ⊆ existing_customer_name_dob R') /\
  (existing_agent_phones R ⊆ existing_agent_phones R') /\
  (existing_restaurant_keys R ⊆ existing_restaurant_keys R') /\
  (existing_menu_keys R ⊆ existing_menu_keys R').

(** [k] passes through the body of a retry loop, each ending in
    [continue], lead from [w] to [w']. *)
Fixpoint failed_attempts {A} (k : nat) (body : M (option A)) (w w' : World) : Prop :=
  match k with
  | O => w' = w
  | S k' => exists w1, body w = (Ok None, w1) /\ failed_attempts k' body w1 w'
  end.

(** A factory that retries [body] at most [n] times: it never raises; a
    record it returns comes out of one of the first [n] passes, after
    passes that all failed; the null result comes after [n] failed passes
    and the warning, with the registry as it was before the call. *)
Definition gives_up_after (n : nat) (factory body : M (option pydict))
    (warning : log_entry) : Prop :=
  forall w,
    match factory w with
    | (Raise _, _) => False
    | (Ok (Some r), w') =>
        exists k w_k,
          (k < n)%nat /\ failed_attempts k body w w_k /\
          body w_k = (Ok (Some r), w')
    | (Ok None, w') =>
        exists w_n,
          failed_attempts n body w w_n /\
          registry w' = registry w /\
          output w' = warning :: output w_n
    end.

(** One lifetime of the registry: from any state, a run of calls of the
    four uniqueness-constrained factories, with whatever else happens in
    between (failed calls, validations, the fallback registration of the
    batch builder), none of which removes a key. The four lists are the
    customers, restaurants, menu items and delivery agents that the
    factories have returned, latest first. *)
Inductive lifetime (L : Lib) :
  World -> list pydict -> list pydict -> list pydict -> list pydict -> Prop :=
| lifetime_start w : lifetime L w [] [] [] []
| lifetime_customer w cs rs ms ags cid c w' :
    lifetime L w cs rs ms ags ->
    Engine.make_customer_unique L cid w = (Ok (Some c), w') ->
    lifetime L w' (c :: cs) rs ms ags
| lifetime_restaurant w cs rs ms ags r w' :
    lifetime L w cs rs ms ags ->
    Engine.make_restaurant_unique L w = (Ok (Some r), w') ->
    lifetime L w' cs (r :: rs) ms ags
| lifetime_menu w cs rs ms ags rid m w' :
    lifetime L w cs rs ms ags ->
    Engine.make_menu_unique L rid w = (Ok (Some m), w') ->
    lifetime L w' cs rs (m :: ms) ags
| lifetime_agent w cs rs ms ags a w' :
    lifetime L w cs rs ms ags ->
    Engine.make_deliveryagent_unique L w = (Ok (Some a), w') ->
    lifetime L w' cs rs ms (a :: ags)
| lifetime_other w cs rs ms ags w' :
    lifetime L w cs rs ms ags ->
    registry_grows (registry w) (registry w') ->
    lifetime L w' cs rs ms ags.

(** The natural keys as the claims name them. *)
Definition key_mobile (c : pydict) : string := field_str "mobile" c.
Definition key_email (c : pydict) : string := lower (field_str "email" c).
Definition key_name_dob (c : pydict) : string * option string :=
  (lower (field_str "name" c), field_opt "dob" c).
Definition key_restaurant (r : pydict) : string * option string :=
  (lower (field_str "name" r), field_opt "location_id" r).
Definition key_menu (m : pydict) : string * string :=
  (field_str "restaurant_id" m, lower (field_str "itemname" m)).
Definition key_phone (a : pydict) : string := field_str "phone" a.

(** What holds along a lifetime: the keys of the returned records, as the
    factories compute them, are pairwise distinct and all registered. *)
Definition keys_registered {K} `{Countable K} (key : pydict -> K)
    (records : list pydict) (registered : gset K) : Prop :=
  NoDup (map key records) /\ forall r, r ∈ records -> key r ∈ registered.

(** The records the factories return. *)
Definition restaurant_record (r : pydict) : Prop :=
  exists rid name cuisine price loc created,
    r = [ ("type", VStr "restaurant");
          ("restaurant_id", VStr rid);
          ("name", VStr name);
          ("cuisine_type", VStr cuisine);
          ("pricing_for_2", VStr price);
          ("location_id", VStr loc);
          ("created_date", VStr created) ].

Definition menu_record (restaurant_id : string) (m : pydict) : Prop :=
  exists mid itemname description price activeflag created,
    m = [ ("type", VStr "menu");
          ("menu_id", VStr mid);
          ("restaurant_id", VStr restaurant_id);
          ("itemname", VStr itemname);
          ("description", VStr description);
          ("price", VStr (format_f (DFin false price (-2))));
          ("activeflag", VStr activeflag);
          ("created_date", VStr created) ]
    /\ (0 < price < 10 ^ 26)%N.

Definition agent_record (a : pydict) : Prop :=
  exists aid name phone vehicle loc status rating created,
    a = [ ("type", VStr "deliveryagent");
          ("deliveryagent_id", VStr aid);
          ("name", VStr name);
          ("phone", VStr phone);
          ("vehicle_type", VStr vehicle);
          ("location_id", VStr loc);
          ("status", VStr status);
          ("rating", VStr rating);
          ("created_date", VStr created) ].

(** The text of a drawn price or rating: [c] units of the [k]-th decimal
    place, [k] being 1 or 2, with [c] at most [bound]. *)
Definition drawn_amount (bound : N) (s : string) : Prop :=
  exists c k, s = print_fixed (of_N c) k /\ (k = 1%nat \/ k = 2%nat) /\ (c <= bound)%N.

(** The invariant of a lifetime. *)
Definition lifetime_invariant (w : World) (cs rs ms ags : list pydict) : Prop :=
  keys_registered (field_str "mobile") cs (existing_customer_mobiles (registry w)) /\
  keys_registered (fun c => lower (field_str "email" c)) cs
    (existing_customer_emails (registry w)) /\
  keys_registered customer_name_dob cs (existing_customer_name_dob (registry w)) /\
  keys_registered restaurant_key rs (existing_restaurant_keys (registry w)) /\
  keys_registered menu_key ms (existing_menu_keys (registry w)) /\
  keys_registered (field_str "phone") ags (existing_agent_phones (registry w)).

(** A computation that removes no key from the registry, whether it
    returns or raises. *)
Definition keeps_keys {A} (m : M A) : Prop :=
  forall w, registry_grows (registry w) (registry (snd (m w))).

(** [ends m Q E w]: run from [w], the computation [m] either returns a
    value and a state that satisfy [Q], or raises an exception that
    satisfies [E]. *)
Definition ends {A} (m : M A) (Q : A -> World -> Prop) (E : exn -> Prop) (w : World)
  : Prop :=
  match m w with
  | (Ok a, w') => Q a w'
  | (Raise e, _) => E e
  end.

(** Whether a value is a Decimal. *)
Definition is_decimal (v : pyval) : bool :=
  match v with VDec _ => true | _ => false end.

(** Whether a value is a [str]. *)
Definition is_str (v : pyval) : bool :=
  match v with VStr _ => true | _ => false end.

(** Whether [datetime.fromisoformat] takes the timestamp once its Z is
    replaced, as every [validate_iso] tries. *)
Definition iso_parses (L : Lib) (s : string) : bool :=
  fromisoformat_ok L (replace_char "Z" "+00:00" s).

(** The payload of [make_delivery]. *)
Definition delivery_payload (delivery_id : string) (order_id deliveryagent_id : pyval)
    (status : string) (minutes : Z) (address_id : pyval) (delivery_date created : string)
  : pydict :=
  [ ("type", VStr "delivery");
    ("delivery_id", VStr delivery_id);
    ("order_id", order_id);
    ("deliveryagent_id", deliveryagent_id);
    ("deliverystatus", VStr status);
    ("estimated_time", VStr ("00:" +:+ str_int minutes +:+ ":00"));
    ("address_id", address_id);
    ("delivery_date", VStr delivery_date);
    ("created_date", VStr created) ].

(** The state [w'] is [k] draws after [w], with the same registry. *)
Definition drew (k : nat) (w w' : World) : Prop :=
  tick w' = (tick w + k)%nat /\ registry w' = registry w.

(** A menu item as the order step reads it: an identifier and a price that
    is a positive amount in hundredths, as in the records that
    [make_menu_unique] returns and in the fallback item. *)
Definition menu_ok (m : pydict) : Prop :=
  exists menu_id price,
    dict_get "menu_id" m = Some (VStr menu_id) /\
    dict_get "price" m = Some (VStr (format_f (DFin false price (-2)))) /\
    (0 < price < 10 ^ 26)%N.

(** An order item of the order [order_id] made from the menu item [m]: a
    quantity of 1 to 3 at the price of [m], and [subtotal] hundredths,
    which is the price times the quantity. *)
Definition order_item_record (order_id : string) (m itm : pydict) (subtotal : N) : Prop :=
  exists orderitem_id menu_id price quantity,
    dict_get "menu_id" m = Some (VStr menu_id) /\
    dict_get "price" m = Some (VStr (format_f (DFin false price (-2)))) /\
    (1 <= quantity <= 3)%Z /\
    subtotal = (price * Z.to_N quantity)%N /\
    itm = [ ("type", VStr "orderitem");
            ("orderitem_id", VStr orderitem_id);
            ("order_id", VStr order_id);
            ("menu_id", VStr menu_id);
            ("quantity", VInt quantity);
            ("price", VStr (format_f (DFin false price (-2))));
            ("subtotal", VStr (format_f (DFin false subtotal (-2)))) ].

(** The sum of amounts. *)
Definition total_of (amounts : list N) : N := foldr N.add 0%N amounts.

(** The payload of an order. *)
Definition order_payload (order_id : string) (customer_id restaurant_id : pyval)
    (order_date : string) (total : N) (status paymentmethod created : string) : pydict :=
  [ ("type", VStr "orders");
    ("order_id", VStr order_id);
    ("customer_id", customer_id);
    ("restaurant_id", restaurant_id);
    ("order_date", VStr order_date);
    ("totalamount", VStr (format_f (DFin false total (-2))));
    ("status", VStr status);
    ("paymentmethod", VStr paymentmethod);
    ("created_date", VStr created) ].

(** The payload of [make_loginaudit]. *)
Definition login_payload (login_id : string) (customer_id : pyval)
    (logintype device mobiledevicename webinterface lastlogin : string) : pydict :=
  [ ("type", VStr "loginaudit");
    ("login_id", VStr login_id);
    ("customer_id", customer_id);
    ("logintype", VStr logintype);
    ("deviceinterface", VStr device);
    ("mobiledevicename", VStr mobiledevicename);
    ("webinterface", VStr webinterface);
    ("lastlogin", VStr lastlogin) ].

(** The payload of [make_location]. *)
Definition location_payload (location_id city state zipcode activeflag created : string)
  : pydict :=
  [ ("type", VStr "location");
    ("location_id", VStr location_id);
    ("city", VStr city);
    ("state", VStr state);
    ("zipcode", VStr zipcode);
    ("activeflag", VStr activeflag);
    ("created_date", VStr created) ].

(** The kinds of record that a batch holds. *)
Definition batch_kinds : list string :=
  ["customer"; "loginaudit"; "restaurant"; "menu"; "deliveryagent"; "orders"; "orderitem"].

(** A record whose [type] is one of [kinds]. *)
Definition of_kind (kinds : list string) (r : pydict) : Prop :=
  exists t, dict_get "type" r = Some (VStr t) /\ t ∈ kinds.

(** The exceptions that end [build_batch]. *)
Definition batch_error (e : exn) : Prop := e = IndexError \/ int_error e.








(* ===================================================================== *)
(** ** A concrete library, for running the engine                         *)
(* ===================================================================== *)

Module Sample.
Import Engine.
Local Open Scope list_scope.

Definition numbered (prefix : string) (n : nat) : string :=
  prefix +:+ of_N (N.of_nat n).

(** A deterministic stand-in for the outside world: the entropy is a
    quadratic sequence, every table numbers its entries, every timestamp
    parses. *)
Definition lib : Lib :=
  {| rnd := fun n =>
       N.to_nat ((N.of_nat n * N.of_nat n * 31 + N.of_nat n * 17 + 7) mod 1009);
     uuid4 := numbered "uuid-";
     now_iso_at := numbered "2024-01-01T00:00:00.";
     fromisoformat_ok := fun _ => true;
     py_float_within := fun _ _ _ => Some true;
     lax_int_of_str := fun _ => None;
     fake_name := numbered "Name ";
     fake_company := numbered "Company ";
     fake_word_title := numbered "Word";
     fake_food := fun _ => "Item";
     fake_sentence := numbered "Sentence ";
     fake_street_name := numbered "Street ";
     fake_street_address := numbered "Address ";
     fake_latitude := numbered "12.";
     fake_longitude := numbered "77.";
     fake_city_suffix := numbered "Suffix ";
     fake_city := numbered "City ";
     fake_state := numbered "State ";
     fake_postcode := fun _ => "560001";
     fake_user_agent := numbered "Agent ";
     fake_date_of_birth := fun _ => "1990-01-01" |}.

(** The record a run returned, or the empty dict. *)
Definition returned (run : res (option pydict) * World) : pydict :=
  match fst run with
  | Ok (Some r) => r
  | _ => []
  end.

(** Whether a run returned a record. *)
Definition returned_some (run : res (option pydict) * World) : bool :=
  match fst run with
  | Ok (Some _) => true
  | _ => false
  end.

(** Two customers, a restaurant, a menu item of it and a delivery agent,
    made one after the other from the empty registry. *)
Definition customer_1 := make_customer_unique lib None initial_world.
Definition customer_2 := make_customer_unique lib None (snd customer_1).
Definition restaurant_1 := make_restaurant_unique lib (snd customer_2).
Definition menu_1 :=
  make_menu_unique lib (field_str "restaurant_id" (returned restaurant_1))
    (snd restaurant_1).
Definition agent_1 := make_deliveryagent_unique lib (snd menu_1).

End Sample.

(* ===================================================================== *)
(** ** Properties                                                        *)
(* ===================================================================== *)

Module Properties.
Import Pydantic Models Engine.

Local Open Scope list_scope.

(** Stepping through a computation: name the result of the first action. *)
Ltac mstep :=
  match goal with
  | |- context [bind ?m ?k ?w] =>
      let r := fresh "r" in
      let w' := fresh "w" in
      let E := fresh "E" in
      unfold bind at 1; destruct (m w) as [[r | r] w'] eqn:E
  end.

Section Numerals.
Local Open Scope string_scope.
Local Open Scope N_scope.

(** *** Strings of digits *)

Lemma str_app_cons c (a b : string) : String c a +:+ b = String c (a +:+ b).
Proof. reflexivity. Qed.

Lemma str_app_nil_l (b : string) : "" +:+ b = b.
Proof. reflexivity. Qed.

Lemma str_app_nil_r (a : string) : a +:+ "" = a.
Proof. induction a as [| c a IH]; [reflexivity |]. rewrite str_app_cons, IH. reflexivity. Qed.

Lemma str_app_assoc (a b c : string) : (a +:+ b) +:+ c = a +:+ (b +:+ c).
Proof. induction a as [| x a IH]; [reflexivity |]. rewrite !str_app_cons, IH. reflexivity. Qed.

Lemma str_length_app (a b : string) :
  String.length (a +:+ b) = (String.length a + String.length b)%nat.
Proof. induction a as [| c a IH]; [reflexivity |]. rewrite str_app_cons. cbn. rewrite IH. reflexivity. Qed.

Lemma all_chars_app p (a b : string) :
  all_chars p (a +:+ b) = all_chars p a && all_chars p b.
Proof.
  induction a as [| c a IH]; [reflexivity |].
  rewrite str_app_cons. cbn [all_chars]. rewrite IH, andb_assoc. reflexivity.
Qed.

Lemma all_chars_impl (p q : ascii -> bool) s :
  (forall c, p c = true -> q c = true) -> all_chars p s = true -> all_chars q s = true.
Proof.
  intros Hpq. induction s as [| c s IH]; [reflexivity |]. cbn [all_chars].
  intros H. apply andb_prop in H as [Hc Hs]. rewrite (Hpq c Hc), (IH Hs). reflexivity.
Qed.

Lemma str_take_drop_id k s : str_take k s +:+ str_drop k s = s.
Proof.
  revert s. induction k as [| k IH]; intros [| c s]; try reflexivity.
  cbn [str_take str_drop]. rewrite str_app_cons, IH. reflexivity.
Qed.

Lemma str_length_take k s : (k <= String.length s)%nat -> String.length (str_take k s) = k.
Proof.
  revert s. induction k as [| k IH]; intros [| c s]; cbn; try lia.
  intros H. rewrite IH; lia.
Qed.

Lemma str_length_drop k s : String.length (str_drop k s) = (String.length s - k)%nat.
Proof.
  revert s. induction k as [| k IH]; intros [| c s]; cbn; try lia. apply IH.
Qed.

Lemma all_chars_take p k s : all_chars p s = true -> all_chars p (str_take k s) = true.
Proof.
  revert s. induction k as [| k IH]; intros [| c s]; try reflexivity.
  cbn [str_take all_chars]. intros H. apply andb_prop in H as [Hc Hs].
  rewrite Hc, (IH _ Hs). reflexivity.
Qed.

Lemma all_chars_drop p k s : all_chars p s = true -> all_chars p (str_drop k s) = true.
Proof.
  revert s. induction k as [| k IH]; intros [| c s]; try (intros; assumption || reflexivity).
  cbn [str_drop all_chars]. intros H. apply andb_prop in H as [Hc Hs]. apply IH, Hs.
Qed.

Lemma length_zeros k : String.length (zeros k) = k.
Proof. induction k as [| k IH]; [reflexivity |]. cbn. rewrite IH. reflexivity. Qed.

Lemma zeros_all_digits k : all_chars is_ascii_digit (zeros k) = true.
Proof. induction k as [| k IH]; [reflexivity |]. cbn [zeros all_chars]. rewrite IH. reflexivity. Qed.

(** A property of the ten digits, checked one by one. *)
Lemma below_ten (P : N -> Prop) :
  (forall k : nat, (k < 10)%nat -> P (N.of_nat k)) -> forall n, n < 10 -> P n.
Proof.
  intros HP n Hn. rewrite <- (N2Nat.id n). apply HP. lia.
Qed.

Lemma digit_char_is_digit (n : N) : n < 10 -> is_ascii_digit (digit_char n) = true.
Proof.
  revert n. apply below_ten. intros k Hk.
  do 10 (destruct k as [| k]; [reflexivity |]). lia.
Qed.

Lemma digit_char_code (n : N) : n < 10 -> code (digit_char n) - 48 = n.
Proof.
  revert n. apply below_ten. intros k Hk.
  do 10 (destruct k as [| k]; [reflexivity |]). lia.
Qed.

Lemma digits_aux_all_digits fuel n acc :
  all_chars is_ascii_digit acc = true ->
  all_chars is_ascii_digit (digits_aux fuel n acc) = true.
Proof.
  revert n acc. induction fuel as [| fuel IH]; intros n acc Hacc; [exact Hacc |].
  cbn [digits_aux]. destruct (n <? 10) eqn:E.
  - cbn [all_chars]. rewrite Hacc, andb_true_r. apply digit_char_is_digit.
    apply N.ltb_lt, E.
  - apply IH. cbn [all_chars]. rewrite Hacc, andb_true_r. apply digit_char_is_digit.
    apply N.mod_lt. discriminate.
Qed.

Lemma of_N_all_digits n : all_chars is_ascii_digit (of_N n) = true.
Proof. apply digits_aux_all_digits. reflexivity. Qed.

Lemma digits_aux_nonempty fuel n acc :
  is_empty (digits_aux (S fuel) n acc) = false.
Proof.
  revert n acc. induction fuel as [| fuel IH]; intros n acc.
  - cbn. destruct (n <? 10); [reflexivity |]. destruct acc; reflexivity.
  - change (digits_aux (S (S fuel)) n acc)
      with (if n <? 10 then String (digit_char n) acc
            else digits_aux (S fuel) (n / 10) (String (digit_char (n mod 10)) acc)).
    destruct (n <? 10); [reflexivity | apply IH].
Qed.

Lemma of_N_nonempty n : is_empty (of_N n) = false.
Proof. apply digits_aux_nonempty. Qed.

(** The value of a digit string, with an accumulator. *)
Lemma digits_value_acc acc s :
  digits_value acc s = acc * 10 ^ N.of_nat (String.length s) + digits_value 0 s.
Proof.
  revert acc. induction s as [| c s IH]; intros acc.
  - cbn. lia.
  - cbn [digits_value String.length]. rewrite (IH (10 * acc + _)), (IH (10 * 0 + _)).
    rewrite Nat2N.inj_succ, N.pow_succ_r'. lia.
Qed.

Lemma digits_value_app a b :
  digits_value 0 (a +:+ b)
  = digits_value 0 a * 10 ^ N.of_nat (String.length b) + digits_value 0 b.
Proof.
  assert (forall acc, digits_value acc (a +:+ b) = digits_value (digits_value acc a) b) as H.
  { induction a as [| c a IH]; intros acc; [reflexivity |].
    rewrite str_app_cons. cbn [digits_value]. apply IH. }
  rewrite H. apply digits_value_acc.
Qed.

Lemma digits_value_zeros k : digits_value 0 (zeros k) = 0.
Proof. induction k as [| k IH]; [reflexivity |]. cbn [zeros digits_value]. exact IH. Qed.

Lemma size_nat_bound p : N.pos p < 2 ^ N.of_nat (Pos.size_nat p).
Proof.
  induction p as [p IH | p IH |]; cbn [Pos.size_nat].
  - rewrite Nat2N.inj_succ, N.pow_succ_r'. lia.
  - rewrite Nat2N.inj_succ, N.pow_succ_r'. lia.
  - cbn. lia.
Qed.

Lemma digits_aux_value fuel n acc :
  n < 2 ^ N.of_nat fuel ->
  digits_value 0 (digits_aux fuel n acc)
  = n * 10 ^ N.of_nat (String.length acc) + digits_value 0 acc.
Proof.
  revert n acc. induction fuel as [| fuel IH]; intros n acc Hn.
  - cbn in Hn. assert (n = 0) as -> by lia. cbn. lia.
  - cbn [digits_aux]. destruct (n <? 10) eqn:E.
    + apply N.ltb_lt in E. cbn [digits_value].
      rewrite digits_value_acc, digit_char_code by exact E. lia.
    + apply N.ltb_ge in E. rewrite IH.
      * cbn [String.length digits_value].
        rewrite (digits_value_acc (10 * 0 + _)), digit_char_code
          by (apply N.mod_lt; discriminate).
        rewrite Nat2N.inj_succ, N.pow_succ_r'.
        pose proof (N.div_mod n 10 ltac:(discriminate)) as Hdm.
        set (q := n / 10) in *. set (r := n mod 10) in *.
        set (t := 10 ^ N.of_nat (String.length acc)). nia.
      * rewrite Nat2N.inj_succ, N.pow_succ_r' in Hn.
        apply N.Div0.div_lt_upper_bound. lia.
Qed.

Lemma of_N_value n : digits_value 0 (of_N n) = n.
Proof.
  unfold of_N. rewrite digits_aux_value.
  - cbn. lia.
  - destruct n as [| p]; [cbn; lia |].
    cbn [N.size_nat]. rewrite Nat2N.inj_succ, N.pow_succ_r'.
    pose proof (size_nat_bound p). lia.
Qed.

(** *** Parsing what was printed *)


Lemma digit_numeral c : is_ascii_digit c = true -> numeral_char c = true.
Proof. intros H. unfold numeral_char. rewrite H. reflexivity. Qed.

Lemma numeral_char_facts c :
  numeral_char c = true -> isspace c = false /\ Ascii.eqb c "_" = false.
Proof. destruct c as [[] [] [] [] [] [] [] []]; try discriminate; split; reflexivity. Qed.

Lemma rstrip_numeral s : all_chars numeral_char s = true -> rstrip s = s.
Proof.
  induction s as [| c s IH]; [reflexivity |]. cbn [all_chars rstrip].
  intros H. apply andb_prop in H as [Hc Hs]. rewrite (IH Hs).
  destruct (numeral_char_facts c Hc) as [-> _]. rewrite andb_false_r. reflexivity.
Qed.

Lemma strip_numeral s : all_chars numeral_char s = true -> strip s = s.
Proof.
  intros H. unfold strip. rewrite (rstrip_numeral s H).
  destruct s as [| c s]; [reflexivity |]. cbn [all_chars] in H.
  apply andb_prop in H as [Hc _]. cbn [lstrip].
  destruct (numeral_char_facts c Hc) as [-> _]. reflexivity.
Qed.

Lemma remove_underscore_numeral s :
  all_chars numeral_char s = true -> remove_char "_" s = s.
Proof.
  induction s as [| c s IH]; [reflexivity |]. cbn [all_chars remove_char].
  intros H. apply andb_prop in H as [Hc Hs]. rewrite (IH Hs).
  destruct (numeral_char_facts c Hc) as [_ ->]. reflexivity.
Qed.

Lemma span_digits_all s : all_chars is_ascii_digit s = true -> span_digits s = (s, "").
Proof.
  induction s as [| c s IH]; [reflexivity |]. cbn [all_chars span_digits].
  intros H. apply andb_prop in H as [Hc Hs]. rewrite Hc, (IH Hs). reflexivity.
Qed.

Lemma span_digits_app a c b :
  all_chars is_ascii_digit a = true -> is_ascii_digit c = false ->
  span_digits (a +:+ String c b) = (a, String c b).
Proof.
  intros Ha Hc. induction a as [| x a IH].
  - cbn [String.append]. rewrite str_app_nil_l. cbn [span_digits]. rewrite Hc. reflexivity.
  - cbn [all_chars] in Ha. apply andb_prop in Ha as [Hx Ha].
    rewrite str_app_cons. cbn [span_digits]. rewrite Hx, (IH Ha). reflexivity.
Qed.

(** A numeral with a point: integer digits, the point, fraction digits. *)
Lemma parse_number_point ip fp :
  all_chars is_ascii_digit ip = true -> all_chars is_ascii_digit fp = true ->
  is_empty ip = false ->
  parse_number (ip +:+ "." +:+ fp)
  = Some (digits_value 0 (ip +:+ fp), (- Z.of_nat (String.length fp))%Z).
Proof.
  intros Hip Hfp Hne. unfold parse_number.
  change ("." +:+ fp) with (String "." fp).
  rewrite (span_digits_app ip "." fp Hip eq_refl), (span_digits_all fp Hfp).
  rewrite Hne. reflexivity.
Qed.

(** A numeral without a point. *)
Lemma parse_number_digits ip :
  all_chars is_ascii_digit ip = true -> is_empty ip = false ->
  parse_number ip = Some (digits_value 0 ip, 0%Z).
Proof.
  intros Hip Hne. unfold parse_number. rewrite (span_digits_all ip Hip), Hne.
  cbn. rewrite str_app_nil_r. reflexivity.
Qed.

(** How [print_fixed] splits the digits around the point. *)
Lemma print_fixed_split ds k :
  all_chars is_ascii_digit ds = true -> is_empty ds = false -> (0 < k)%nat ->
  exists ip fp,
    print_fixed ds k = ip +:+ "." +:+ fp /\
    all_chars is_ascii_digit ip = true /\ all_chars is_ascii_digit fp = true /\
    is_empty ip = false /\ String.length fp = k /\
    digits_value 0 (ip +:+ fp) = digits_value 0 ds.
Proof.
  intros Hds Hne Hk. unfold print_fixed. destruct k as [| k]; [lia |].
  set (n := String.length ds). destruct (S k <? n)%nat eqn:E.
  - apply Nat.ltb_lt in E.
    exists (str_take (n - S k) ds), (str_drop (n - S k) ds).
    split; [reflexivity |].
    split; [apply all_chars_take, Hds |]. split; [apply all_chars_drop, Hds |].
    split.
    + pose proof (str_length_take (n - S k) ds ltac:(lia)) as Hl.
      destruct (str_take (n - S k) ds); [cbn in Hl; lia | reflexivity].
    + split; [rewrite str_length_drop; lia | rewrite str_take_drop_id; reflexivity].
  - apply Nat.ltb_ge in E.
    exists "0", (zeros (S k - n) +:+ ds).
    split; [reflexivity |].
    split; [reflexivity |].
    split; [rewrite all_chars_app, zeros_all_digits, Hds; reflexivity |].
    split; [reflexivity |].
    split; [rewrite str_length_app, length_zeros; lia |].
    change ("0" +:+ zeros (S k - n) +:+ ds) with (zeros (S (S k - n)) +:+ ds).
    rewrite digits_value_app, digits_value_zeros. lia.
Qed.

Lemma print_fixed_numeral ds k :
  all_chars is_ascii_digit ds = true -> all_chars numeral_char (print_fixed ds k) = true.
Proof.
  intros Hds.
  assert (forall t, all_chars is_ascii_digit t = true -> all_chars numeral_char t = true) as Hd.
  { intros t. apply all_chars_impl, digit_numeral. }
  unfold print_fixed. destruct k as [| k]; [apply Hd, Hds |].
  destruct (S k <? String.length ds)%nat.
  - rewrite !all_chars_app, (Hd _ (all_chars_take _ _ _ Hds)),
      (Hd _ (all_chars_drop _ _ _ Hds)). reflexivity.
  - rewrite !all_chars_app, (Hd _ (zeros_all_digits _)), (Hd _ Hds). reflexivity.
Qed.

Lemma parse_sign_digits s t :
  (match t with String c _ => is_ascii_digit c | EmptyString => false end) = true ->
  parse_sign (sign_str s +:+ t) = (s, t).
Proof.
  intros Ht. destruct s; [reflexivity |]. cbn [sign_str]. rewrite str_app_nil_l.
  destruct t as [| c t]; [discriminate |].
  destruct c as [[] [] [] [] [] [] [] []]; try discriminate Ht; reflexivity.
Qed.

Lemma print_fixed_starts_with_digit ds k :
  all_chars is_ascii_digit ds = true -> is_empty ds = false ->
  (match print_fixed ds k with
   | String c _ => is_ascii_digit c
   | EmptyString => false
   end) = true.
Proof.
  intros Hds Hne. destruct k as [| k].
  - cbn. destruct ds as [| c ds]; [discriminate |]. cbn [all_chars] in Hds.
    apply andb_prop in Hds as [Hc _]. exact Hc.
  - destruct (print_fixed_split ds (S k) Hds Hne ltac:(lia))
      as (ip & fp & -> & Hip & _ & Hipne & _).
    destruct ip as [| c ip]; [discriminate |]. rewrite str_app_cons.
    cbn [all_chars] in Hip. apply andb_prop in Hip as [Hc _]. exact Hc.
Qed.

(** [Decimal(s)] reads back a numeral printed in plain notation. *)
Theorem parse_print_fixed (s : bool) (c : N) (k : nat) :
  parse_decimal (sign_str s +:+ print_fixed (of_N c) k)
  = Some (DFin s c (- Z.of_nat k)).
Proof.
  pose proof (of_N_all_digits c) as Hds. pose proof (of_N_nonempty c) as Hne.
  unfold parse_decimal.
  assert (all_chars numeral_char (sign_str s +:+ print_fixed (of_N c) k) = true) as Hnum.
  { rewrite all_chars_app, (print_fixed_numeral _ k Hds). destruct s; reflexivity. }
  rewrite (strip_numeral _ Hnum), (remove_underscore_numeral _ Hnum).
  rewrite (parse_sign_digits s _ (print_fixed_starts_with_digit _ k Hds Hne)).
  destruct k as [| k].
  - cbn [print_fixed]. rewrite (parse_number_digits _ Hds Hne), of_N_value. reflexivity.
  - destruct (print_fixed_split _ (S k) Hds Hne ltac:(lia))
      as (ip & fp & -> & Hip & Hfp & Hipne & Hlen & Hval).
    rewrite (parse_number_point ip fp Hip Hfp Hipne), Hval, of_N_value, Hlen.
    reflexivity.
Qed.

Lemma dstr_plain s c e :
  (e <= 0)%Z -> (-6 < e + Z.of_nat (String.length (of_N c)))%Z ->
  dstr (DFin s c e) = sign_str s +:+ print_fixed (of_N c) (Z.to_nat (- e)).
Proof.
  intros He Hl. unfold dstr.
  apply Z.leb_le in He. apply Z.ltb_lt in Hl. rewrite He, Hl. reflexivity.
Qed.

Lemma parse_exponent_str_exp z : parse_exponent (str_exp z) = Some z.
Proof.
  unfold parse_exponent, str_exp.
  assert (parse_sign ((if (z <? 0)%Z then "-" else "+") +:+ of_N (Z.abs_N z))
          = ((z <? 0)%Z, of_N (Z.abs_N z))) as ->.
  { destruct (z <? 0)%Z; reflexivity. }
  rewrite (span_digits_all _ (of_N_all_digits _)), of_N_nonempty, of_N_value.
  cbn [orb negb is_empty]. f_equal. unfold signed.
  destruct (z <? 0)%Z eqn:E; [apply Z.ltb_lt in E | apply Z.ltb_ge in E]; lia.
Qed.


Lemma sci_char_facts c :
  sci_char c = true -> isspace c = false /\ Ascii.eqb c "_" = false.
Proof. destruct c as [[] [] [] [] [] [] [] []]; try discriminate; split; reflexivity. Qed.

Lemma clean_sci s :
  all_chars sci_char s = true -> remove_char "_" (strip s) = s.
Proof.
  intros H.
  assert (rstrip s = s) as Hr.
  { induction s as [| c s IH]; [reflexivity |]. cbn [all_chars rstrip] in *.
    apply andb_prop in H as [Hc Hs]. rewrite (IH Hs).
    destruct (sci_char_facts c Hc) as [-> _]. rewrite andb_false_r. reflexivity. }
  assert (strip s = s) as ->.
  { unfold strip. rewrite Hr. destruct s as [| c s]; [reflexivity |].
    cbn [all_chars] in H. apply andb_prop in H as [Hc _]. cbn [lstrip].
    destruct (sci_char_facts c Hc) as [-> _]. reflexivity. }
  induction s as [| c s IH]; [reflexivity |]. cbn [all_chars remove_char] in *.
  apply andb_prop in H as [Hc Hs].
  assert (rstrip s = s) as Hr'.
  { clear -Hs. induction s as [| c s IH]; [reflexivity |]. cbn [all_chars rstrip] in *.
    apply andb_prop in Hs as [Hc Hs]. rewrite (IH Hs).
    destruct (sci_char_facts c Hc) as [-> _]. rewrite andb_false_r. reflexivity. }
  rewrite (IH Hs Hr'). destruct (sci_char_facts c Hc) as [_ ->]. reflexivity.
Qed.

Lemma digits_sci t : all_chars is_ascii_digit t = true -> all_chars sci_char t = true.
Proof.
  apply all_chars_impl. intros c H. unfold sci_char, numeral_char. rewrite H. reflexivity.
Qed.

Lemma str_exp_sci z : all_chars sci_char (str_exp z) = true.
Proof.
  unfold str_exp. rewrite all_chars_app, (digits_sci _ (of_N_all_digits _)).
  destruct (z <? 0)%Z; reflexivity.
Qed.


(** A numeral with an exponent, with or without a fraction. *)
Lemma parse_number_exponent ip fp (point : bool) z :
  all_chars is_ascii_digit ip = true -> all_chars is_ascii_digit fp = true ->
  is_empty ip = false -> (point = false -> fp = "") ->
  parse_number (ip +:+ (if point then String "." fp else "") +:+ String "E" (str_exp z))
  = Some (digits_value 0 (ip +:+ fp), (z - Z.of_nat (String.length fp))%Z).
Proof.
  intros Hip Hfp Hne Hpoint. unfold parse_number. destruct point.
  - change (String "." fp +:+ String "E" (str_exp z))
      with (String "." (fp +:+ String "E" (str_exp z))).
    rewrite (span_digits_app ip "." _ Hip eq_refl).
    rewrite (span_digits_app fp "E" _ Hfp eq_refl).
    rewrite Hne. cbn [andb].
    change (Ascii.eqb "E" "e") with false. change (Ascii.eqb "E" "E") with true.
    cbn [orb]. rewrite parse_exponent_str_exp. reflexivity.
  - rewrite (Hpoint eq_refl). rewrite str_app_nil_l.
    rewrite (span_digits_app ip "E" _ Hip eq_refl).
    rewrite Hne. cbn [andb].
    change (Ascii.eqb "E" "e") with false. change (Ascii.eqb "E" "E") with true.
    cbn [orb]. rewrite parse_exponent_str_exp. reflexivity.
Qed.

(** [Decimal(s)] reads back a numeral printed in scientific notation. *)
Lemma parse_scientific (s : bool) (c : N) (e : Z) :
  let ds := of_N c in
  let n := Z.of_nat (String.length ds) in
  parse_decimal
    (sign_str s +:+ str_take 1 ds +:+
     (if (1 <? n)%Z then "." +:+ str_drop 1 ds else "") +:+
     "E" +:+ str_exp (e + n - 1))
  = Some (DFin s c e).
Proof.
  intros ds n.
  pose proof (of_N_all_digits c) as Hds. pose proof (of_N_nonempty c) as Hne.
  pose proof (of_N_value c) as Hval. fold ds in Hds, Hne, Hval.
  destruct ds as [| d ds'] eqn:Eds; [discriminate |].
  cbn [all_chars] in Hds. apply andb_prop in Hds as [Hd Hds'].
  assert (n = Z.of_nat (S (String.length ds'))) as Hn by reflexivity.
  cbn [str_take str_drop].
  set (point := (1 <? n)%Z).
  set (fp := if point then ds' else "").
  assert (all_chars is_ascii_digit fp = true) as Hfp.
  { unfold fp. destruct point; [exact Hds' | reflexivity]. }
  assert (String d "" +:+ fp = String d ds') as Hjoin.
  { unfold fp, point. destruct (1 <? n)%Z eqn:E1; [reflexivity |].
    apply Z.ltb_ge in E1. destruct ds'; [reflexivity | cbn in Hn; lia]. }
  assert ((if point then "." +:+ ds' else "") = (if point then String "." fp else "")) as ->.
  { unfold fp. destruct point; reflexivity. }
  set (body := String d "" +:+ (if point then String "." fp else "")
               +:+ String "E" (str_exp (e + n - 1))).
  change ("E" +:+ str_exp (e + n - 1)) with (String "E" (str_exp (e + n - 1))).
  fold body.
  assert (all_chars sci_char body = true) as Hbody.
  { unfold body. rewrite !all_chars_app. cbn [all_chars].
    rewrite str_exp_sci.
    assert (sci_char d = true) as ->.
    { unfold sci_char, numeral_char. rewrite Hd. reflexivity. }
    destruct point; [cbn [all_chars]; rewrite (digits_sci _ Hfp) |]; reflexivity. }
  unfold parse_decimal. rewrite clean_sci.
  2:{ rewrite all_chars_app, Hbody. destruct s; reflexivity. }
  rewrite (parse_sign_digits s body).
  2:{ unfold body. rewrite str_app_cons. exact Hd. }
  unfold body.
  rewrite (parse_number_exponent (String d "") fp point (e + n - 1)); try assumption.
  - rewrite Hjoin, Hval. f_equal. f_equal.
    assert (String.length (String d "" +:+ fp) = String.length (String d ds')) as Hl
      by (rewrite Hjoin; reflexivity).
    rewrite str_app_cons, str_app_nil_l in Hl. cbn [String.length] in Hl. lia.
  - cbn [all_chars]. rewrite Hd. reflexivity.
  - intros H. unfold fp. rewrite H. reflexivity.
Qed.

(** [Decimal(str(d)) == d], with the same sign, coefficient and exponent. *)
Theorem parse_dstr (d : Decimal) : parse_decimal (dstr d) = Some d.
Proof.
  destruct d as [s c e | s | sg].
  - destruct ((e <=? 0)%Z && (-6 <? e + Z.of_nat (String.length (of_N c)))%Z) eqn:E.
    + apply andb_prop in E as [He Hl]. apply Z.leb_le in He. apply Z.ltb_lt in Hl.
      rewrite (dstr_plain s c e He Hl), parse_print_fixed. f_equal. f_equal. lia.
    + unfold dstr. rewrite E.
      assert ((e + Z.of_nat (String.length (of_N c)) =? 1)%Z = false) as ->.
      { apply Z.eqb_neq. intros H. apply andb_false_iff in E as [E | E].
        - apply Z.leb_gt in E. pose proof (of_N_nonempty c) as Hne.
          destruct (of_N c); [discriminate | cbn in H; lia].
        - apply Z.ltb_ge in E. lia. }
      apply (parse_scientific s c e).
  - destruct s; reflexivity.
  - destruct sg; reflexivity.
Qed.

End Numerals.

Section Computations.
Local Open Scope nat_scope.
Local Open Scope string_scope.
Local Open Scope list_scope.

(** *** Rules for [returns] *)

Lemma entropy_only_refl w : entropy_only w w.
Proof. split; reflexivity. Qed.

Lemma entropy_only_trans w1 w2 w3 :
  entropy_only w1 w2 -> entropy_only w2 w3 -> entropy_only w1 w3.
Proof. intros [H1 H2] [H3 H4]. split; congruence. Qed.

Lemma returns_ret {A} (a : A) (Q : A -> World -> Prop) w :
  Q a w -> returns (ret a) Q w.
Proof. intros H. exact H. Qed.

Lemma returns_bind {A B} (m : M A) (k : A -> M B) (Q : B -> World -> Prop) w :
  returns m (fun a w1 => returns (k a) Q w1) w -> returns (bind m k) Q w.
Proof.
  unfold returns, bind. destruct (m w) as [[a | e] w1]; [| intros []].
  intros H. exact H.
Qed.

Lemma returns_mono {A} (m : M A) (Q Q' : A -> World -> Prop) w :
  returns m Q w -> (forall a w', Q a w' -> Q' a w') -> returns m Q' w.
Proof.
  unfold returns. destruct (m w) as [[a | e] w1]; [| intros []].
  intros H HQ. apply HQ, H.
Qed.

Lemma returns_lift {A} (r : res A) (a : A) (Q : A -> World -> Prop) w :
  r = Ok a -> Q a w -> returns (lift r) Q w.
Proof. intros -> H. exact H. Qed.

Lemma returns_inv {A} (m : M A) (Q : A -> World -> Prop) w :
  returns m Q w -> exists a w', m w = (Ok a, w') /\ Q a w'.
Proof.
  unfold returns. destruct (m w) as [[a | e] w1]; [| intros []].
  intros H. exists a, w1. split; [reflexivity | exact H].
Qed.

Section Draws.
Context (L : Lib).

Lemma returns_draw (Q : nat -> World -> Prop) w :
  (forall n w', entropy_only w w' -> Q n w') -> returns (draw L) Q w.
Proof. intros H. apply H. split; reflexivity. Qed.

Lemma returns_choice {A} (l : list A) (Q : A -> World -> Prop) w :
  l <> [] ->
  (forall x w', x ∈ l -> entropy_only w w' -> Q x w') ->
  returns (choice L l) Q w.
Proof.
  intros Hl H. unfold choice. apply returns_bind, returns_draw.
  intros n w' Hw.
  assert (n mod length l < length l)%nat as Hlt.
  { apply Nat.mod_upper_bound. destruct l; [congruence | cbn; lia]. }
  destruct (lookup_lt_is_Some_2 l _ Hlt) as [x Hx]. rewrite Hx.
  apply returns_ret, H; [| exact Hw].
  apply list_elem_of_lookup. eauto.
Qed.

Lemma returns_randint (a b : Z) (Q : Z -> World -> Prop) w :
  (a <= b)%Z ->
  (forall z w', (a <= z <= b)%Z -> entropy_only w w' -> Q z w') ->
  returns (randint L a b) Q w.
Proof.
  intros Hab H. unfold randint. apply returns_bind, returns_draw.
  intros n w' Hw. apply returns_ret, H; [| exact Hw].
  pose proof (Z.mod_pos_bound (Z.of_nat n) (b - a + 1) ltac:(lia)). lia.
Qed.

Lemma returns_fake (table : Lib -> nat -> string) (Q : string -> World -> Prop) w :
  (forall n w', entropy_only w w' -> Q (table L n) w') ->
  returns (fake L table) Q w.
Proof.
  intros H. unfold fake. apply returns_bind, returns_draw.
  intros n w' Hw. apply returns_ret, H, Hw.
Qed.

Lemma returns_uuid4 (Q : string -> World -> Prop) w :
  (forall s w', entropy_only w w' -> Q s w') -> returns (uuid4_str L) Q w.
Proof.
  intros H. unfold uuid4_str. apply returns_bind, returns_draw.
  intros n w' Hw. apply returns_ret, H, Hw.
Qed.

Lemma returns_now_iso (Q : string -> World -> Prop) w :
  (forall n w', entropy_only w w' -> Q (now_iso_at L n) w') -> returns (now_iso L) Q w.
Proof.
  intros H. unfold now_iso. apply returns_bind, returns_draw.
  intros n w' Hw. apply returns_ret, H, Hw.
Qed.


Lemma returns_random_digits (k : nat) (Q : string -> World -> Prop) w :
  (forall s w', String.length s = k -> all_chars is_ascii_digit s = true ->
                entropy_only w w' -> Q s w') ->
  returns (random_digits L k) Q w.
Proof.
  revert Q w. induction k as [| k IH]; intros Q w H.
  - apply returns_ret, H; [reflexivity | reflexivity | apply entropy_only_refl].
  - cbn [random_digits]. apply returns_bind, returns_draw. intros n w1 Hw1.
    apply returns_bind, IH. intros s w2 Hlen Hs Hw2.
    apply returns_ret, H.
    + cbn. rewrite Hlen. reflexivity.
    + cbn [all_chars]. rewrite Hs, andb_true_r. apply digit_char_is_digit.
      pose proof (Nat.mod_upper_bound n 10 ltac:(lia)). lia.
    + eapply entropy_only_trans; eassumption.
Qed.

Lemma returns_random_phone_india (Q : string -> World -> Prop) w :
  (forall s w', mobile_regex s = true -> entropy_only w w' -> Q s w') ->
  returns (random_phone_india L) Q w.
Proof.
  intros H. unfold random_phone_india.
  apply returns_bind, returns_choice; [discriminate |]. intros c w1 Hc Hw1.
  apply returns_bind, returns_random_digits. intros s w2 Hlen Hs Hw2.
  apply returns_ret, H; [| eapply entropy_only_trans; eassumption].
  unfold mobile_regex. rewrite Hlen, Hs, Nat.eqb_refl, !andb_true_r.
  repeat (apply elem_of_cons in Hc as [-> | Hc]; [reflexivity |]).
  apply elem_of_nil in Hc as [].
Qed.

End Draws.

Lemma make_customer_candidate_returns (L : Lib) cid w :
  returns (make_customer_candidate L cid)
    (fun p w' => entropy_only w w' /\ customer_candidate L p) w.
Proof.
  unfold make_customer_candidate.
  apply returns_bind.
  assert (forall (Q : string -> World -> Prop),
            (forall s w', entropy_only w w' -> Q s w') ->
            returns (match cid with
                     | Some ((String _ _) as s) => ret s
                     | _ => uuid4_str L
                     end) Q w) as Hcid.
  { intros Q HQ. destruct cid as [[| c s] |].
    - apply returns_uuid4, HQ.
    - apply returns_ret, HQ, entropy_only_refl.
    - apply returns_uuid4, HQ. }
  apply Hcid. intros c w1 H1.
  apply returns_bind, returns_fake. intros n w2 H2.
  apply returns_bind, returns_choice; [discriminate |]. intros domain w3 Hdomain H3.
  apply returns_bind, returns_randint; [lia |]. intros k w4 Hk H4.
  apply returns_bind, returns_random_phone_india. intros mobile w5 Hmobile H5.
  apply returns_bind, returns_choice; [discriminate |]. intros login w6 _ H6.
  apply returns_bind, returns_choice; [discriminate |]. intros gender w7 _ H7.
  apply returns_bind, returns_fake. intros ndob w8 H8.
  apply returns_bind, returns_choice; [discriminate |]. intros vegan w9 _ H9.
  apply returns_bind, returns_choice; [discriminate |]. intros spicy w10 _ H10.
  apply returns_bind, returns_now_iso. intros nnow w11 H11.
  apply returns_ret. split.
  - repeat (eapply entropy_only_trans; [eassumption |]). apply entropy_only_refl.
  - unfold customer_candidate. do 11 eexists. split; [reflexivity |]. split; assumption.
Qed.

(** *** Counting characters *)

Lemma count_char_app x (a b : string) :
  count_char x (a +:+ b) = (count_char x a + count_char x b)%nat.
Proof.
  induction a as [| c a IH]; [reflexivity |].
  change (String c a +:+ b) with (String c (a +:+ b)).
  cbn [count_char]. rewrite IH. lia.
Qed.

Lemma lower_char_at c : Ascii.eqb (lower_char c) "@" = Ascii.eqb c "@".
Proof. destruct c as [[] [] [] [] [] [] [] []]; reflexivity. Qed.

Lemma count_at_lower s : count_char "@" (lower s) = count_char "@" s.
Proof.
  induction s as [| c s IH]; [reflexivity |].
  cbn [lower count_char]. rewrite lower_char_at, IH. reflexivity.
Qed.

Lemma count_char_lstrip x s : (count_char x (lstrip s) <= count_char x s)%nat.
Proof.
  induction s as [| c s IH]; [reflexivity |]. cbn [lstrip].
  destruct (isspace c); [cbn [count_char]; lia | reflexivity].
Qed.

Lemma count_char_rstrip x s : (count_char x (rstrip s) <= count_char x s)%nat.
Proof.
  induction s as [| c s IH]; [reflexivity |]. cbn [rstrip].
  destruct (is_empty (rstrip s) && isspace c); cbn [count_char]; lia.
Qed.

Lemma count_char_strip x s : (count_char x (strip s) <= count_char x s)%nat.
Proof.
  unfold strip. etransitivity; [apply count_char_lstrip | apply count_char_rstrip].
Qed.

Lemma count_at_digits s : all_chars is_ascii_digit s = true -> count_char "@" s = 0%nat.
Proof.
  induction s as [| c s IH]; [reflexivity |]. cbn [all_chars count_char].
  intros H. apply andb_prop in H as [Hc Hs]. rewrite (IH Hs).
  destruct c as [[] [] [] [] [] [] [] []]; try discriminate Hc; reflexivity.
Qed.



Lemma count_at_str_int z : count_char "@" (str_int z) = 0%nat.
Proof.
  unfold str_int. rewrite count_char_app, (count_at_digits _ (of_N_all_digits _)).
  destruct (z <? 0)%Z; reflexivity.
Qed.

(** *** What the handler of [validate_or_log] formats *)

Lemma digits_aux_length fuel n acc :
  String.length (digits_aux fuel n acc) <= fuel + String.length acc.
Proof.
  revert n acc. induction fuel as [| fuel IH]; intros n acc; cbn [digits_aux]; [lia |].
  destruct (n <? 10)%N; [cbn [String.length]; lia |].
  etransitivity; [apply IH |]. cbn [String.length]. lia.
Qed.

Lemma of_N_length n : String.length (of_N n) <= S (N.size_nat n).
Proof.
  unfold of_N. etransitivity; [apply digits_aux_length |]. cbn [String.length]. lia.
Qed.

Lemma size_nat_le (n m : N) : (n < m)%N -> N.size_nat n <= N.size_nat m.
Proof.
  destruct n as [| p], m as [| q]; cbn [N.size_nat]; try lia.
  apply Pos.size_nat_monotone.
Qed.

(** An int below a bound of fewer than 4300 binary digits has a text. *)
Lemma int_prints_below (b : N) (z : Z) :
  (Z.abs_N z < b)%N -> (N.size_nat b <? int_max_str_digits)%nat = true ->
  int_prints z = true.
Proof.
  intros Hz Hb. unfold int_prints. apply Nat.leb_le. apply Nat.ltb_lt in Hb.
  pose proof (of_N_length (Z.abs_N z)). pose proof (size_nat_le _ _ Hz). lia.
Qed.

Lemma prints_dict p : all_print p -> prints (VDict p) = true.
Proof.
  induction 1 as [| [k v] p Hv _ IH]; [reflexivity |].
  cbn [prints snd] in *. rewrite Hv. exact IH.
Qed.

Lemma prints_lookup k p v : all_print p -> dict_get k p = Some v -> prints v = true.
Proof.
  induction 1 as [| [k' x] p Hx _ IH]; [discriminate |]. cbn [dict_get].
  destruct (String.eqb k k'); [intros [= <-]; exact Hx | exact IH].
Qed.

Lemma int_prints_range (z : Z) :
  (-1000000000 <= z <= 1000000000)%Z -> int_prints z = true.
Proof.
  intros Hz. apply (int_prints_below 10000000000); [lia | vm_compute; reflexivity].
Qed.

Lemma digits_value_below s :
  all_chars is_ascii_digit s = true ->
  (digits_value 0 s < 10 ^ N.of_nat (String.length s))%N.
Proof.
  induction s as [| c s IH]; cbn [all_chars digits_value String.length];
    [intros _; cbn; lia |].
  intros H. apply andb_prop in H as [Hc Hs]. specialize (IH Hs).
  rewrite digits_value_acc, Nat2N.inj_succ, N.pow_succ_r'.
  unfold is_ascii_digit, in_range in Hc. apply andb_prop in Hc as [_ Hc].
  apply N.leb_le in Hc. nia.
Qed.

Lemma digits_aux_short fuel n acc k :
  (n < 10 ^ N.of_nat (S k))%N ->
  String.length (digits_aux fuel n acc) <= S k + String.length acc.
Proof.
  revert n acc k. induction fuel as [| fuel IH]; intros n acc k Hn; cbn [digits_aux]; [lia |].
  destruct (n <? 10)%N eqn:E; [cbn [String.length]; lia |].
  apply N.ltb_ge in E. destruct k as [| k].
  { change (10 ^ N.of_nat 1)%N with 10%N in Hn. lia. }
  etransitivity; [apply (IH _ _ k) |]; [| cbn [String.length]; lia].
  rewrite Nat2N.inj_succ, N.pow_succ_r' in Hn.
  apply N.Div0.div_lt_upper_bound. exact Hn.
Qed.

Lemma int_body_ok_digits p r :
  int_body_ok p r = true -> all_chars is_ascii_digit (remove_char "_" r) = true.
Proof.
  revert p. induction r as [| c r IH]; intros p; cbn [int_body_ok remove_char]; [reflexivity |].
  destruct (is_ascii_digit c) eqn:Hc.
  - destruct (Ascii.eqb_spec c "_") as [-> | _]; [discriminate Hc |].
    intros H. cbn [all_chars]. rewrite Hc. exact (IH _ H).
  - destruct (Ascii.eqb c "_"); [| discriminate].
    intros H. apply andb_prop in H as [_ H]. exact (IH _ H).
Qed.

(** What [int] takes from a string, [str] gives back: the value is within
    the limit. *)
Lemma int_of_string_prints s z : int_of_string s = Ok z -> int_prints z = true.
Proof.
  unfold int_of_string. destruct (parse_sign _) as [neg r].
  destruct (int_body_ok false r) eqn:Hr; [| discriminate].
  destruct (String.length (remove_char "_" r) <=? int_max_str_digits)%nat eqn:Hl;
    [| discriminate].
  intros [= <-]. apply Nat.leb_le in Hl.
  apply int_body_ok_digits in Hr. apply digits_value_below in Hr.
  set (v := digits_value 0 (remove_char "_" r)) in *.
  unfold int_prints. apply Nat.leb_le.
  assert (Z.abs_N (signed neg v) = v) as ->.
  { unfold signed. destruct neg; lia. }
  destruct (String.length (remove_char "_" r)) as [| k] eqn:Hk.
  - change (10 ^ N.of_nat 0)%N with 1%N in Hr. assert (v = 0%N) as -> by lia.
    vm_compute. lia.
  - unfold of_N. pose proof (digits_aux_short (S (N.size_nat v)) v "" k Hr) as H.
    cbn [String.length] in H. lia.
Qed.

(** [int] raises one of two ValueErrors on a string. *)
Lemma int_of_string_raises s e : int_of_string s = Raise e -> int_error e.
Proof.
  unfold int_of_string, int_error. destruct (parse_sign _) as [neg r].
  destruct (int_body_ok false r); [| intros [= <-]; left; reflexivity].
  destruct (String.length _ <=? int_max_str_digits)%nat; [discriminate |].
  intros [= <-]. right. reflexivity.
Qed.

Lemma field_prints_plain (L : Lib) f : fbefore f = None -> field_prints L f.
Proof.
  intros Hf p msg Hp _. unfold error_input. rewrite Hf.
  destruct (dict_get (fname f) p) as [raw |] eqn:E; [| apply prints_dict, Hp].
  exact (prints_lookup _ _ _ Hp E).
Qed.

Lemma field_prints_keeps (L : Lib) f g :
  fbefore f = Some g -> keeps_printing g -> field_prints L f.
Proof.
  intros Hf Hg p msg Hp _. unfold error_input. rewrite Hf.
  destruct (dict_get (fname f) p) as [raw |] eqn:E; [| apply prints_dict, Hp].
  pose proof (prints_lookup _ _ _ Hp E) as Hraw.
  destruct (g raw) as [v1 |] eqn:Eg; [| exact Hraw].
  exact (Hg raw v1 Eg Hraw).
Qed.

Lemma error_inputs_print (L : Lib) m p :
  all_print p -> fields_print L m -> forallb prints (error_inputs L m p) = true.
Proof.
  intros Hp Hm. unfold error_inputs.
  destruct (validate_fields L (mfields m) p [] []) as [d | errs | x].
  { cbn [forallb]. rewrite (prints_dict p Hp). reflexivity. }
  all: unfold fields_print in Hm; induction Hm as [| f fs Hf _ IH]; [reflexivity |];
    cbn [flat_map]; rewrite forallb_app, IH, andb_true_r;
    destruct (validate_field L f p) as [v | msg | e] eqn:E; try reflexivity;
    cbn [forallb]; rewrite (Hf p msg Hp E); reflexivity.
Qed.

(** What [validate_or_log] does with a payload whose values all have a
    text, by the outcome of the validation. *)
Lemma validate_or_log_cases (L : Lib) m p k (Q : option pydict -> World -> Prop) w :
  all_print p -> fields_print L m -> dict_keys p !! 1%nat = Some k ->
  match model_validate L m p with
  | Valid d => Q (Some (dump d)) w
  | Invalid errors => Q None (refused m (default (VStr "unknown") (dict_get k p)) errors w)
  | Raised _ => False
  end ->
  returns (validate_or_log L p m) Q w.
Proof.
  intros Hp Hm Hk. unfold returns, validate_or_log.
  destruct (model_validate L m p) as [d | errors | e]; [exact id | | intros []].
  rewrite Hk, (error_inputs_print L m p Hp Hm), andb_true_r.
  assert (prints (default (VStr "unknown") (dict_get k p)) = true) as ->; [| exact id].
  destruct (dict_get k p) as [v |] eqn:Ev; [| reflexivity].
  exact (prints_lookup _ _ _ Hp Ev).
Qed.

Lemma keeps_validate_iso (L : Lib) : keeps_printing (validate_iso L).
Proof.
  intros raw v. unfold validate_iso. destruct raw; try discriminate.
  destruct (fromisoformat_ok L _); [intros [= <-]; auto | discriminate].
Qed.

Lemma keeps_validate_iso_opt (L : Lib) : keeps_printing (validate_iso_opt L).
Proof.
  intros raw v. unfold validate_iso_opt.
  destruct raw; try apply keeps_validate_iso. intros [= <-]. auto.
Qed.

Lemma keeps_nonnegative_amount msg : keeps_printing (nonnegative_amount msg).
Proof.
  intros raw v. unfold nonnegative_amount.
  destruct (to_decimal raw) as [d |]; [| discriminate]. cbn [res_bind].
  destruct (dlt d (of_int 0)) as [[] |]; try discriminate. intros [= <-]. auto.
Qed.

Lemma keeps_rating_ok : keeps_printing rating_ok.
Proof.
  intros raw v. unfold rating_ok.
  assert (forall x, (try! d := to_decimal raw in
                     try! low := dlt d (of_int 0) in
                     if low then Raise (ValueError "Rating must be between 0 and 5")
                     else
                       try! high := dgt d (of_int 5) in
                       if high then Raise (ValueError "Rating must be between 0 and 5")
                       else Ok (VDec d))%res = Ok x -> prints x = true) as H.
  { intros x. destruct (to_decimal raw) as [d |]; [| discriminate]. cbn [res_bind].
    destruct (dlt d (of_int 0)) as [[] |]; try discriminate. cbn [res_bind].
    destruct (dgt d (of_int 5)) as [[] |]; try discriminate. intros [= <-]. reflexivity. }
  destruct raw; try (intros E _; exact (H v E)). intros [= <-]. auto.
Qed.

(** The quantity: what [quantity_positive] returns is an int, which the
    annotation takes, so an error of this field carries the value as
    given. *)
Lemma field_prints_quantity (L : Lib) :
  field_prints L (fld_before "quantity" TInt quantity_positive).
Proof.
  intros p msg Hp. unfold validate_field, error_input.
  cbn [fname fld_before fbefore ftyp fafter fdefault].
  destruct (dict_get "quantity" p) as [raw |] eqn:E; [| intros _; apply prints_dict, Hp].
  pose proof (prints_lookup _ _ _ Hp E) as Hraw. unfold run_validator.
  destruct (quantity_positive raw) as [v1 |] eqn:Eg; [| intros _; exact Hraw].
  unfold quantity_positive in Eg. destruct (py_int raw) as [n |]; [| discriminate Eg].
  cbn [res_bind] in Eg. destruct (n <=? 0)%Z; [discriminate Eg |].
  injection Eg as <-. cbn [coerce]. discriminate.
Qed.

(** Every field of the models has one of these forms. *)
Ltac fields_print :=
  unfold fields_print; cbn [mfields];
  repeat (apply Forall_cons; split;
          [first [ apply field_prints_plain; reflexivity
                 | apply field_prints_quantity
                 | eapply field_prints_keeps; [reflexivity |];
                   first [ apply keeps_validate_iso_opt | apply keeps_validate_iso
                         | apply keeps_nonnegative_amount | apply keeps_rating_ok ] ] |]);
  apply Forall_nil; exact I.

Lemma customer_fields_print (L : Lib) : fields_print L (CustomerModel L).
Proof. unfold CustomerModel. fields_print. Qed.

Lemma restaurant_fields_print (L : Lib) : fields_print L (RestaurantModel L).
Proof. unfold RestaurantModel. fields_print. Qed.

Lemma menu_fields_print (L : Lib) : fields_print L (MenuModel L).
Proof. unfold MenuModel. fields_print. Qed.

Lemma agent_fields_print (L : Lib) : fields_print L (DeliveryAgentModel L).
Proof. unfold DeliveryAgentModel. fields_print. Qed.

Lemma address_fields_print (L : Lib) : fields_print L (AddressModel L).
Proof. unfold AddressModel. fields_print. Qed.

Lemma location_fields_print (L : Lib) : fields_print L (LocationModel L).
Proof. unfold LocationModel. fields_print. Qed.

Lemma order_item_fields_print (L : Lib) : fields_print L OrderItemModel.
Proof. unfold OrderItemModel. fields_print. Qed.

Lemma order_fields_print (L : Lib) : fields_print L (OrderModel L).
Proof. unfold OrderModel. fields_print. Qed.

Lemma delivery_fields_print (L : Lib) : fields_print L (DeliveryModel L).
Proof. unfold DeliveryModel. fields_print. Qed.

Lemma login_fields_print (L : Lib) : fields_print L (LoginAuditModel L).
Proof. unfold LoginAuditModel. fields_print. Qed.

Lemma mobile_regex_accepted s :
  mobile_regex s = true -> validate_mobile (VStr s) = Ok (VStr s).
Proof.
  unfold mobile_regex, validate_mobile. destruct s as [| c r]; [discriminate |].
  intros H. apply andb_prop in H as [H Hd]. apply andb_prop in H as [Hc Hl].
  cbn [as_str res_bind String.length].
  apply Nat.eqb_eq in Hl. rewrite Hl. cbn [Nat.eqb negb orb].
  rewrite Hc. cbn [negb orb].
  assert (isdigit (String c r) = true) as ->; [| reflexivity].
  unfold isdigit. cbn [all_chars].
  assert (forall t, all_chars is_ascii_digit t = true -> all_chars isdigit_char t = true) as Hall.
  { induction t as [| x t IH]; [reflexivity |]. cbn [all_chars]. intros Hx.
    apply andb_prop in Hx as [Hx Ht]. rewrite (IH Ht), andb_true_r.
    unfold isdigit_char. rewrite Hx. reflexivity. }
  rewrite (Hall r Hd), andb_true_r.
  destruct c as [[] [] [] [] [] [] [] []]; try discriminate Hc; reflexivity.
Qed.

Lemma customer_candidate_validates (L : Lib) (p : pydict) :
  customer_candidate L p ->
  model_validate L (CustomerModel L) p = Valid p \/
  exists errors, model_validate L (CustomerModel L) p = Invalid errors.
Proof.
  intros (cid & n & domain & k & mobile & login & gender & dob & vegan & spicy
          & created & -> & Hdomain & Hmobile).
  unfold model_validate, CustomerModel.
  cbn -[validate_mobile validate_iso_opt String.append].
  rewrite (mobile_regex_accepted _ Hmobile).
  unfold validate_iso_opt, validate_iso, iso_error.
  destruct (fromisoformat_ok L (replace_char "Z" "+00:00" dob));
    destruct (fromisoformat_ok L (replace_char "Z" "+00:00" created));
    cbn -[String.append]; eauto.
Qed.

Lemma customer_candidate_dump (L : Lib) (p : pydict) :
  customer_candidate L p -> dump p = p.
Proof.
  intros (cid & n & domain & k & mobile & login & gender & dob & vegan & spicy
          & created & -> & _). reflexivity.
Qed.

(** Validating a candidate customer never raises; when it succeeds, the
    record is the candidate itself. *)
Lemma validate_customer_candidate (L : Lib) (p : pydict) (w : World) :
  customer_candidate L p ->
  returns (validate_or_log L p (CustomerModel L))
    (fun r w' => registry w' = registry w /\ (r = Some p \/ r = None)) w.
Proof.
  intros Hp.
  destruct (customer_candidate_validates L p Hp) as [E | [errors E]].
  - unfold validate_or_log. rewrite E. apply returns_ret.
    rewrite (customer_candidate_dump L p Hp). auto.
  - destruct Hp as (cid & n & domain & k & mobile & login & gender & dob & vegan
                    & spicy & created & Hp & _).
    eapply validate_or_log_cases;
      [subst p; repeat constructor | apply customer_fields_print
      | subst p; reflexivity |].
    rewrite E. cbn. auto.
Qed.

End Computations.

Section FinalSlice.
Local Open Scope Z_scope.

(** *** The final slice of [build_batch] *)

Lemma finish_length (n : Z) (rows : list pydict) :
  0 <= n -> Z.of_nat (length (finish n rows)) <= n.
Proof.
  intros Hn. unfold finish, slice_to.
  destruct (n <? Z.of_nat (length rows)) eqn:E.
  - apply Z.ltb_lt in E.
    destruct (0 <=? n) eqn:E0; [| apply Z.leb_gt in E0; lia].
    rewrite length_take. lia.
  - apply Z.ltb_ge in E. exact E.
Qed.

Lemma finish_overshoot (n : Z) (rows : list pydict) :
  0 <= n -> n < Z.of_nat (length rows) ->
  finish n rows = take (Z.to_nat n) rows /\ Z.of_nat (length (finish n rows)) = n.
Proof.
  intros Hn Hlt. unfold finish, slice_to.
  destruct (n <? Z.of_nat (length rows)) eqn:E; [| apply Z.ltb_ge in E; lia].
  destruct (0 <=? n) eqn:E0; [| apply Z.leb_gt in E0; lia].
  split; [reflexivity |]. rewrite length_take. lia.
Qed.

Lemma finish_within (n : Z) (rows : list pydict) :
  Z.of_nat (length rows) <= n -> finish n rows = rows.
Proof.
  intros H. unfold finish.
  destruct (n <? Z.of_nat (length rows)) eqn:E; [apply Z.ltb_lt in E; lia | reflexivity].
Qed.

(** C8. For a target size [n] that is a count ([0 <= n]): whenever
    [build_batch] returns, what it returns is the assembled collection cut
    by [finish]; it never holds more than [n] records; if the assembled
    collection exceeds [n] it is exactly its first [n] records; otherwise
    it is the assembled collection itself, which may hold fewer than [n].
    [build_batch] raises only when the assembly does. *)
Theorem build_batch_truncates_to_target (L : Lib) (n : Z) (w : World) :
  0 <= n ->
  match build_batch L n w with
  | (Ok out, w') =>
      exists rows,
        assemble L n w = (Ok rows, w') /\
        Z.of_nat (length out) <= n /\
        (n < Z.of_nat (length rows) ->
           out = take (Z.to_nat n) rows /\ Z.of_nat (length out) = n) /\
        (Z.of_nat (length rows) <= n -> out = rows)
  | (Raise e, w') => assemble L n w = (Raise e, w')
  end.
Proof.
  intros Hn. unfold build_batch, bind.
  destruct (assemble L n w) as [[rows | e] w'] eqn:E; [| reflexivity].
  cbn. exists rows. split; [reflexivity |].
  split; [apply finish_length; exact Hn |].
  split; [intros H; apply finish_overshoot; assumption |].
  apply finish_within.
Qed.

(** The batch of target size 12 built from the sample library overshoots
    (the customer pool alone holds 10 records, the restaurants and their
    menus follow), and is cut to 12 records. *)
Lemma build_batch_truncates_to_target_witness :
  0 <= 12 /\
  match build_batch Sample.lib 12 initial_world with
  | (Ok out, w') =>
      exists rows,
        assemble Sample.lib 12 initial_world = (Ok rows, w') /\
        Z.of_nat (length out) <= 12 /\
        (12 < Z.of_nat (length rows) ->
           out = take (Z.to_nat 12) rows /\ Z.of_nat (length out) = 12) /\
        (Z.of_nat (length rows) <= 12 -> out = rows)
  | (Raise e, w') => assemble Sample.lib 12 initial_world = (Raise e, w')
  end.
Proof.
  split; [lia | apply (build_batch_truncates_to_target Sample.lib 12 initial_world); lia].
Defined.

End FinalSlice.

Section Amounts.
Local Open Scope N_scope.

Lemma fix_ctx_fits s c e : c < 10 ^ prec -> fix_ctx s c e = DFin s c e.
Proof. intros H. unfold fix_ctx. apply N.ltb_lt in H. rewrite H. reflexivity. Qed.

Lemma quantize2_cents s c : c < 10 ^ prec -> quantize2 (DFin s c (-2)) = Ok (DFin s c (-2)).
Proof.
  intros H. unfold quantize2, rescale_half_up. cbn [Z.leb Z.compare Z.add Z.to_N Z.opp Z.pos_sub].
  change (-2 <=? -2)%Z with true. change (Z.to_N (-2 + 2)) with 0.
  rewrite N.pow_0_r, N.mul_1_r. apply N.ltb_lt in H. rewrite H. reflexivity.
Qed.

Lemma cmp_cents s1 c1 s2 c2 :
  cmp_fin s1 c1 (-2) s2 c2 (-2) = (signed s1 c1 ?= signed s2 c2)%Z.
Proof. unfold cmp_fin. cbn. rewrite !Z.mul_1_r. reflexivity. Qed.

(** [check_subtotal] on amounts in hundredths: it passes exactly when the
    subtotal is not more than one hundredth below price times quantity. *)
Lemma check_subtotal_cents (q : Z) (pc sc : N) :
  (0 < q)%Z -> pc * Z.to_N q < 10 ^ prec ->
  let self := order_item_fields q (DFin false pc (-2)) (DFin false sc (-2)) in
  (pc * Z.to_N q <= sc + 1 -> check_subtotal self = Ok tt) /\
  (sc + 1 < pc * Z.to_N q -> exists msg, check_subtotal self = Raise (ValueError msg)).
Proof.
  intros Hq Hfit self. unfold check_subtotal, self, order_item_fields.
  cbn [attr_decimal attr_int dict_item dict_get String.eqb Ascii.eqb Bool.eqb res_bind].
  assert (dmul (DFin false pc (-2)) (of_int q) = Ok (DFin false (pc * Z.to_N q) (-2))) as ->.
  { unfold dmul, of_int. assert ((q <? 0)%Z = false) as -> by (apply Z.ltb_ge; lia).
    cbn [xorb]. rewrite Z.add_0_r.
    assert (Z.abs_N q = Z.to_N q) as -> by lia.
    rewrite (fix_ctx_fits _ _ _ Hfit). reflexivity. }
  cbn [res_bind]. rewrite (quantize2_cents _ _ Hfit). cbn [res_bind].
  set (e := pc * Z.to_N q) in *. clearbody e.
  unfold dne, dcompare. cbn [res_bind]. rewrite !cmp_cents.
  change (signed false sc) with (Z.of_N sc). change (signed false e) with (Z.of_N e).
  assert (dsub (DFin false e (-2)) (DFin false 1 (-2))
          = Ok (DFin (e =? 0) (if e =? 0 then 1 else e - 1) (-2))) as Hsub.
  { unfold dsub, dneg, dadd. cbn [negb Z.min Z.compare]. change (Z.min (-2) (-2)) with (-2)%Z.
    change (-2 - -2)%Z with 0%Z. rewrite Z.pow_0_r, !Z.mul_1_r.
    unfold signed. destruct (e =? 0) eqn:E0.
    - apply N.eqb_eq in E0. rewrite E0. reflexivity.
    - apply N.eqb_neq in E0.
      assert ((Z.of_N e + - Z.of_N 1 =? 0)%Z = (e =? 1)) as ->.
      { destruct (e =? 1) eqn:E1; [apply N.eqb_eq in E1; apply Z.eqb_eq; lia |].
        apply N.eqb_neq in E1. apply Z.eqb_neq. lia. }
      assert ((Z.of_N e + - Z.of_N 1 <? 0)%Z = false) as -> by (apply Z.ltb_ge; lia).
      assert (Z.abs_N (Z.of_N e + - Z.of_N 1) = e - 1) as -> by lia.
      cbn [andb]. destruct (e =? 1); (rewrite fix_ctx_fits by lia); reflexivity. }
  split.
  - intros Hle. destruct (Z.of_N sc ?= Z.of_N e)%Z eqn:C; cbn [res_bind]; try reflexivity.
    + rewrite Hsub. cbn [res_bind]. unfold dlt, dcompare. cbn [res_bind].
      rewrite cmp_cents. unfold signed.
      rewrite Z.compare_lt_iff in C.
      destruct (e =? 0) eqn:E0; [apply N.eqb_eq in E0; exfalso; lia |].
      assert ((Z.of_N sc ?= Z.of_N (e - 1))%Z <> Lt) as Hc.
      { intros Hc. rewrite Z.compare_lt_iff in Hc. lia. }
      destruct (Z.of_N sc ?= Z.of_N (e - 1))%Z; [reflexivity | congruence | reflexivity].
    + rewrite Hsub. cbn [res_bind]. unfold dlt, dcompare. cbn [res_bind].
      rewrite cmp_cents. unfold signed.
      rewrite Z.compare_gt_iff in C.
      destruct (e =? 0) eqn:E0.
      * assert ((Z.of_N sc ?= - Z.of_N 1)%Z = Gt) as -> by (apply Z.compare_gt_iff; lia).
        reflexivity.
      * assert ((Z.of_N sc ?= Z.of_N (e - 1))%Z = Gt) as -> by (apply Z.compare_gt_iff; lia).
        reflexivity.
  - intros Hlt. eexists.
    assert ((Z.of_N sc ?= Z.of_N e)%Z = Lt) as -> by (apply Z.compare_lt_iff; lia).
    cbn [res_bind]. rewrite Hsub. cbn [res_bind]. unfold dlt, dcompare. cbn [res_bind].
    rewrite cmp_cents. unfold signed.
    assert ((e =? 0) = false) as -> by (apply N.eqb_neq; lia).
    assert ((Z.of_N sc ?= Z.of_N (e - 1))%Z = Lt) as -> by (apply Z.compare_lt_iff; lia).
    reflexivity.
Qed.
End Amounts.

Section ValidationLayer.
Local Open Scope nat_scope.
Local Open Scope string_scope.
Local Open Scope list_scope.

(** *** The order item cross-field check *)

(** C1 (the code departs from the claim). An order item whose subtotal lies
    above price times quantity passes validation: with price 10.00 and
    quantity 1 the expected subtotal is 10.00, and the candidate with
    subtotal 20.00 is returned as a validated record, in every state and
    whatever the outside world. The lower side is as the claim says: 9.99
    passes, 9.98 is rejected with the diagnostic of [check_subtotal]. *)
Theorem order_item_above_expected_is_accepted (L : Lib) (w : World) :
  validate_or_log L
    (order_item_payload (VInt 1) (VStr "10.00") (VStr "20.00")) OrderItemModel w
  = (Ok (Some (order_item_payload (VInt 1) (VStr "10.00") (VStr "20.00"))), w)
  /\ validate_or_log L
       (order_item_payload (VInt 1) (VStr "10.00") (VStr "9.99")) OrderItemModel w
     = (Ok (Some (order_item_payload (VInt 1) (VStr "10.00") (VStr "9.99"))), w)
  /\ fst (validate_or_log L
            (order_item_payload (VInt 1) (VStr "10.00") (VStr "9.98")) OrderItemModel w)
     = Ok None.
Proof.
  split; [| split].
  - reflexivity.
  - reflexivity.
  - reflexivity.
Qed.

(** *** Exceptions that leave the validation helper *)

(** C3 (the code departs from the claim). [validate_or_log] ends with an
    exception that is no validation failure on candidates of the entity
    kinds: an order item whose price is the text "abc" raises
    InvalidOperation out of [decimal_positive]; an order item whose
    quantity is null raises TypeError out of [quantity_positive]; a
    candidate with a single key that fails validation raises IndexError in
    the handler that builds the diagnostic. The login audit candidate with
    a null [lastlogin] is as the claim says: the null result after a
    diagnostic. *)
Theorem validate_or_log_raises_other_exceptions (L : Lib) (w : World) :
  validate_or_log L
    (order_item_payload (VInt 1) (VStr "abc") (VStr "1.00")) OrderItemModel w
  = (Raise InvalidOperation, w)
  /\ validate_or_log L
       (order_item_payload VNone (VStr "1.00") (VStr "1.00")) OrderItemModel w
     = (Raise TypeError, w)
  /\ validate_or_log L [("type", VStr "customer")] (CustomerModel L) w
     = (Raise IndexError, w)
  /\ validate_or_log L (loginaudit_payload VNone) (LoginAuditModel L) w
     = (Ok None,
        {| tick := tick w; registry := registry w;
           output := ValidationFailed "LoginAuditModel" (VStr "l-1")
                       [("lastlogin", "Invalid ISO timestamp")] :: output w |}).
Proof.
  split; [| split; [| split]].
  - reflexivity.
  - reflexivity.
  - reflexivity.
  - reflexivity.
Qed.

(** *** Mobile and phone numbers *)

(** Every string that matches the regular expression passes
    [validate_mobile]. *)
Lemma validate_mobile_accepts_regex (s : string) :
  mobile_regex s = true -> validate_mobile (VStr s) = Ok (VStr s).
Proof. apply mobile_regex_accepted. Qed.

(** What [validate_mobile] accepts: ten characters, the first one of 6, 7,
    8, 9, all of them digits in the sense of [str.isdigit]. *)
Lemma validate_mobile_accepts_iff (s : string) :
  validate_mobile (VStr s) = Ok (VStr s) <->
  String.length s = 10 /\ isdigit s = true /\
  match s with String c _ => char_in c "6789" = true | EmptyString => False end.
Proof.
  unfold validate_mobile. cbn [as_str res_bind]. split.
  - intros H. destruct (String.length s =? 10)%nat eqn:El; [| discriminate H].
    cbn [negb orb] in H. destruct s as [| c r]; [discriminate H |].
    destruct (char_in c "6789") eqn:Ec; [| discriminate H].
    cbn [negb orb] in H. destruct (isdigit (String c r)) eqn:Ed; [| discriminate H].
    apply Nat.eqb_eq in El. auto.
  - intros (Hl & Hd & Hc). apply Nat.eqb_eq in Hl. rewrite Hl, Hd.
    destruct s as [| c r]; [destruct Hc |]. rewrite Hc. reflexivity.
Qed.

(** C5 (the code departs from the claim). The ten-character string made of
    a 6 and nine superscript twos does not match the regular expression,
    yet [validate_mobile] accepts it, since [str.isdigit] holds of
    superscript digits; the validation layer returns the customer and the
    delivery agent that carry it. *)
Theorem mobile_validation_accepts_superscript_digits :
  mobile_regex superscript_mobile = false
  /\ validate_mobile (VStr superscript_mobile) = Ok (VStr superscript_mobile)
  /\ fst (validate_or_log Sample.lib
            (customer_payload (VStr superscript_mobile) (VStr "asha@example.com"))
            (CustomerModel Sample.lib) initial_world)
     = Ok (Some (customer_payload (VStr superscript_mobile) (VStr "asha@example.com")))
  /\ (exists agent,
        fst (validate_or_log Sample.lib (agent_payload (VStr superscript_mobile))
               (DeliveryAgentModel Sample.lib) initial_world) = Ok (Some agent)
        /\ dict_get "phone" agent = Some (VStr superscript_mobile)).
Proof.
  split; [reflexivity |].
  split; [apply validate_mobile_accepts_iff; repeat split; reflexivity |].
  split; [vm_compute; reflexivity |].
  eexists. split; vm_compute; reflexivity.
Qed.

(** *** The customer email *)

(** C4 fails as stated: [CustomerModel] has no validator for the email, so
    the candidate with the email "nobody" (no at sign) is accepted. *)
Lemma customer_email_is_not_validated : ~ accepted_emails_have_one_at Sample.lib.
Proof.
  intros H.
  destruct (H (customer_payload (VStr "9876543210") (VStr "nobody"))
              (customer_payload (VStr "9876543210") (VStr "nobody"))
              initial_world initial_world eq_refl) as (e & He & Hcount).
  injection He as <-. discriminate Hcount.
Qed.

End ValidationLayer.

Section Retries.
Local Open Scope nat_scope.
Local Open Scope string_scope.
Local Open Scope list_scope.

(** *** Retry loops *)

Lemma returns_get_registry (Q : Registry -> World -> Prop) w :
  Q (registry w) w -> returns get_registry Q w.
Proof. intros H. exact H. Qed.

Lemma returns_update_registry (f : Registry -> Registry) (Q : unit -> World -> Prop) w :
  (forall w', registry w' = f (registry w) -> output w' = output w -> Q tt w') ->
  returns (update_registry f) Q w.
Proof. intros H. apply H; reflexivity. Qed.

Lemma returns_emit (e : log_entry) (Q : unit -> World -> Prop) w :
  (forall w', registry w' = registry w -> output w' = e :: output w -> Q tt w') ->
  returns (emit e) Q w.
Proof. intros H. apply H; reflexivity. Qed.

(** The rule of the retry loop: an invariant that every failed pass keeps. *)
Lemma returns_for_attempts {A} (n : nat) (body after : M (option A))
    (I : World -> Prop) (Q : option A -> World -> Prop) w :
  I w ->
  (forall w1, I w1 ->
     returns body (fun r w2 => match r with
                               | Some a => Q (Some a) w2
                               | None => I w2
                               end) w1) ->
  (forall w1, I w1 -> returns after Q w1) ->
  returns (for_attempts n body after) Q w.
Proof.
  intros HI Hbody Hafter. revert w HI.
  induction n as [| n IH]; intros w HI; cbn [for_attempts].
  - apply Hafter, HI.
  - apply returns_bind. eapply returns_mono; [apply Hbody, HI |].
    intros [a |] w2 H; [apply returns_ret, H | apply IH, H].
Qed.

(** How a retry loop runs: some passes that fail, then either a pass that
    returns or raises, or the code after the loop. *)
Lemma for_attempts_run {A} (n : nat) (body after : M (option A)) w :
  (exists k w_k,
     k < n /\ failed_attempts k body w w_k /\
     exists r w', body w_k = (r, w') /\ r <> Ok None /\
                  for_attempts n body after w = (r, w'))
  \/ (exists w_n, failed_attempts n body w w_n /\
                  for_attempts n body after w = after w_n).
Proof.
  revert w. induction n as [| n IH]; intros w.
  - right. exists w. split; reflexivity.
  - assert (for_attempts (S n) body after w
            = match body w with
              | (Ok (Some a), w1) => (Ok (Some a), w1)
              | (Ok None, w1) => for_attempts n body after w1
              | (Raise e, w1) => (Raise e, w1)
              end) as Hstep.
    { cbn [for_attempts]. unfold bind. destruct (body w) as [[[a |] | e] w1]; reflexivity. }
    rewrite Hstep. clear Hstep.
    destruct (body w) as [[[a |] | e] w1] eqn:E.
    + left. exists 0, w. split; [lia |]. split; [reflexivity |].
      exists (Ok (Some a)), w1. split; [exact E |]. split; [discriminate | reflexivity].
    + destruct (IH w1) as [(k & w_k & Hk & Hf & r & w' & Hb & Hr & Hrun) | (w_n & Hf & Hrun)].
      * left. exists (S k), w_k. split; [lia |]. split; [exists w1; split; assumption |].
        exists r, w'. split; [exact Hb |]. split; [exact Hr | exact Hrun].
      * right. exists w_n. split; [exists w1; split; assumption | exact Hrun].
    + left. exists 0, w. split; [lia |]. split; [reflexivity |].
      exists (Raise e), w1. split; [exact E |]. split; [discriminate | reflexivity].
Qed.

(** A retry loop whose passes never raise and keep the registry when they
    fail gives up as [gives_up_after] says. *)
Lemma retry_gives_up (n : nat) (body : M (option pydict)) (warning : log_entry) :
  (forall w, returns body (fun r w' => r = None -> registry w' = registry w) w) ->
  gives_up_after n (for_attempts n body (bind (emit warning) (fun _ => ret None)))
    body warning.
Proof.
  intros Hbody w.
  assert (forall k w1 w2, failed_attempts k body w1 w2 -> registry w2 = registry w1) as Hkeep.
  { induction k as [| k IH]; intros w1 w2; cbn [failed_attempts].
    - intros ->. reflexivity.
    - intros (w3 & Hb & Hf). rewrite (IH _ _ Hf).
      specialize (Hbody w1). unfold returns in Hbody. rewrite Hb in Hbody.
      apply Hbody. reflexivity. }
  destruct (for_attempts_run n body (bind (emit warning) (fun _ => ret None)) w)
    as [(k & w_k & Hk & Hf & r & w' & Hb & Hr & ->) | (w_n & Hf & ->)].
  - specialize (Hbody w_k). unfold returns in Hbody. rewrite Hb in Hbody.
    destruct r as [[a |] | e]; [| congruence | destruct Hbody].
    exists k, w_k. auto.
  - cbn. exists w_n. split; [exact Hf |]. split; [apply (Hkeep _ _ _ Hf) | reflexivity].
Qed.

(** *** One pass of [make_customer_unique] *)

Lemma customer_attempt_spec (L : Lib) (cid : option string) (w : World) :
  returns (customer_attempt L cid)
    (fun r w' =>
       match r with
       | None => registry w' = registry w
       | Some c =>
           customer_candidate L c /\ customer_registered c (registry w) (registry w')
       end) w.
Proof.
  unfold customer_attempt.
  apply returns_bind. eapply returns_mono; [apply make_customer_candidate_returns |].
  intros p w1 [[Hreg1 _] Hp].
  pose proof Hp as (c & n & domain & k & mobile & login & gender & dob & vegan & spicy
                    & created & Ep & Hdomain & Hmobile).
  set (email := strip (lower (fake_name L n)) +:+ str_int k +:+ "@" +:+ domain +:+ ".com")
    in Ep.
  assert (dict_get "mobile" p = Some (VStr mobile)) as Gm by (rewrite Ep; reflexivity).
  assert (dict_get "email" p = Some (VStr email)) as Ge by (rewrite Ep; reflexivity).
  assert (dict_get "name" p = Some (VStr (fake_name L n))) as Gn by (rewrite Ep; reflexivity).
  assert (dict_get "dob" p = Some (VStr dob)) as Gd by (rewrite Ep; reflexivity).
  assert (p <> []) as Hne by (rewrite Ep; discriminate).
  clear Ep.
  unfold dict_item. rewrite Gm, Ge, Gn, Gd. cbn [res_bind key_str as_str key_opt_str].
  apply returns_bind, (returns_lift _ mobile); [reflexivity |].
  apply returns_bind, (returns_lift _ email); [reflexivity |].
  apply returns_bind, (returns_lift _ (fake_name L n)); [reflexivity |].
  apply returns_bind, (returns_lift _ (Some dob)); [reflexivity |].
  apply returns_bind, returns_get_registry.
  destruct (bool_decide (mobile ∈ existing_customer_mobiles (registry w1))
            || bool_decide (lower email ∈ existing_customer_emails (registry w1))
            || bool_decide ((lower (strip (fake_name L n)), Some dob)
                              ∈ existing_customer_name_dob (registry w1))) eqn:Eseen.
  - apply returns_ret. exact Hreg1.
  - apply orb_false_elim in Eseen as [Eseen E3]. apply orb_false_elim in Eseen as [E1 E2].
    apply bool_decide_eq_false in E1, E2, E3.
    apply returns_bind. eapply returns_mono; [apply (validate_customer_candidate L p w1 Hp) |].
    intros r w2 [Hreg2 [-> | ->]]; cbn [accepted].
    + destruct p as [| kv p']; [congruence |].
      rewrite Gm, Ge, Gn. cbn [res_bind key_str as_str].
      apply returns_bind, (returns_lift _ mobile); [reflexivity |].
      apply returns_bind, (returns_lift _ email); [reflexivity |].
      apply returns_bind, (returns_lift _ (fake_name L n)); [reflexivity |].
      rewrite Gd. cbn [default key_opt_str].
      apply returns_bind, (returns_lift _ (Some dob)); [reflexivity |].
      apply returns_bind, returns_update_registry. intros w3 Hreg3 _.
      apply returns_ret. split; [exact Hp |].
      unfold customer_registered, customer_name_dob, field_str, field_opt.
      rewrite Gm, Ge, Gn, Gd, Hreg3, Hreg2, Hreg1. rewrite Hreg1 in E1, E2, E3.
      repeat split; assumption.
    + apply returns_ret. congruence.
Qed.

(** *** [strip] is idempotent *)

Lemma lstrip_idem s : lstrip (lstrip s) = lstrip s.
Proof.
  induction s as [| c s IH]; [reflexivity |]. cbn [lstrip].
  destruct (isspace c) eqn:E; [exact IH |]. cbn [lstrip]. rewrite E. reflexivity.
Qed.

Lemma rstrip_idem s : rstrip (rstrip s) = rstrip s.
Proof.
  induction s as [| c s IH]; [reflexivity |]. cbn [rstrip].
  destruct (is_empty (rstrip s) && isspace c) eqn:E; [reflexivity |].
  cbn [rstrip]. rewrite IH, E. reflexivity.
Qed.

Lemma rstrip_lstrip s : rstrip s = s -> rstrip (lstrip s) = lstrip s.
Proof.
  induction s as [| c s IH]; [reflexivity |]. cbn [lstrip]. intros H.
  destruct (isspace c) eqn:E; [| exact H].
  apply IH. cbn [rstrip] in H.
  destruct (is_empty (rstrip s) && isspace c); [discriminate H |].
  injection H as H. exact H.
Qed.

Lemma strip_idem s : strip (strip s) = strip s.
Proof.
  unfold strip. rewrite (rstrip_lstrip (rstrip s) (rstrip_idem s)). apply lstrip_idem.
Qed.

(** *** Prices and ratings the factories draw *)

Section Drawn.
Local Open Scope N_scope.

Lemma str_float2_drawn c : drawn_amount c (str_float2 c).
Proof.
  unfold str_float2. destruct (c mod 10 =? 0).
  - exists (c / 10), 1%nat. split; [reflexivity |]. split; [left; reflexivity |].
    apply N.Div0.div_le_upper_bound. lia.
  - exists c, 2%nat. split; [reflexivity |]. split; [right; reflexivity | lia].
Qed.

Lemma drawn_amount_parses bound s :
  drawn_amount bound s ->
  exists c k, parse_decimal s = Some (DFin false c (- Z.of_nat k))
              /\ (k = 1%nat \/ k = 2%nat) /\ c <= bound.
Proof.
  intros (c & k & -> & Hk & Hc). exists c, k. split; [| auto].
  apply (parse_print_fixed false c k).
Qed.

Lemma quantize2_small s c (k : nat) :
  (k = 1%nat \/ k = 2%nat) -> c < 10 ^ 26 ->
  exists q, quantize2 (DFin s c (- Z.of_nat k)) = Ok (DFin s q (-2)).
Proof.
  intros Hk Hc. unfold quantize2, rescale_half_up.
  assert ((-2 <=? - Z.of_nat k)%Z = true) as -> by (apply Z.leb_le; lia).
  set (p := 10 ^ Z.to_N (- Z.of_nat k + 2)).
  assert (p <= 10 ^ 2) as Hp by (apply N.pow_le_mono_r; lia).
  assert ((c * p <? 10 ^ prec) = true) as ->; [| eauto].
  apply N.ltb_lt. change prec with 28. change (10 ^ 28) with (10 ^ 26 * 10 ^ 2).
  change (10 ^ 2) with 100 in *. nia.
Qed.

(** [validate_price] either rejects a drawn price or returns it with two
    decimals, positive; it does not raise anything else. *)
Lemma validate_price_drawn c (k : nat) :
  (k = 1%nat \/ k = 2%nat) -> c < 10 ^ 24 ->
  validate_price (VDec (DFin false c (- Z.of_nat k)))
    = Raise (ValueError "Price must be positive")
  \/ exists q, validate_price (VDec (DFin false c (- Z.of_nat k)))
               = Ok (VDec (DFin false q (-2))) /\ 0 < q < 10 ^ 26.
Proof.
  intros Hk Hc. unfold validate_price.
  unfold dle, dcompare, of_int. cbn [res_bind].
  destruct (cmp_fin false c (- Z.of_nat k) (0 <? 0)%Z (Z.abs_N 0) 0) eqn:Ecmp;
    [left; reflexivity | left; reflexivity | right].
  unfold to_decimal, decimal_of_str. rewrite parse_dstr. cbn [res_bind].
  unfold quantize2, rescale_half_up.
  assert ((-2 <=? - Z.of_nat k)%Z = true) as -> by (apply Z.leb_le; lia).
  set (p := 10 ^ Z.to_N (- Z.of_nat k + 2)).
  assert (1 <= p <= 10 ^ 2) as Hp.
  { split; [apply (N.pow_le_mono_r 10 0); lia | apply N.pow_le_mono_r; lia]. }
  change (10 ^ 2) with 100 in Hp.
  assert (0 < c) as Hpos.
  { unfold cmp_fin in Ecmp. apply Z.compare_gt_iff in Ecmp.
    change (signed (0 <? 0)%Z (Z.abs_N 0)) with 0%Z in Ecmp.
    rewrite Z.mul_0_l in Ecmp. unfold signed in Ecmp.
    destruct c as [| x]; [rewrite Z.mul_0_l in Ecmp; lia | lia]. }
  assert ((c * p <? 10 ^ prec) = true) as ->.
  { apply N.ltb_lt. change prec with 28. change (10 ^ 28) with (10 ^ 24 * 10000). nia. }
  eexists. split; [reflexivity |]. change (10 ^ 26) with (10 ^ 24 * 100). nia.
Qed.

(** [rating_ok] either rejects a drawn rating or returns it with two
    decimals. *)
Lemma rating_ok_drawn bound s :
  drawn_amount bound s -> bound < 10 ^ 26 ->
  (exists msg, rating_ok (VStr s) = Raise (ValueError msg))
  \/ exists q, rating_ok (VStr s) = Ok (VDec (DFin false q (-2))).
Proof.
  intros Hs Hb. destruct (drawn_amount_parses bound s Hs) as (c & k & Hp & Hk & Hc).
  unfold rating_ok, to_decimal, decimal_of_str. rewrite Hp. cbn [res_bind].
  destruct (quantize2_small false c k Hk ltac:(lia)) as [q ->]. cbn [res_bind].
  unfold dlt, dgt, dlt, dcompare, of_int. cbn [res_bind].
  destruct (match cmp_fin false q (-2) (0 <? 0)%Z (Z.abs_N 0) 0 with
            | Lt => true
            | _ => false
            end); [left; eauto |].
  destruct (match cmp_fin (5 <? 0)%Z (Z.abs_N 5) 0 false q (-2) with
            | Lt => true
            | _ => false
            end); [left; eauto | right; eauto].
Qed.

End Drawn.

Lemma nonempty_upto_cases limit what s :
  (exists msg, nonempty_upto limit what (VStr s) = Raise (ValueError msg))
  \/ nonempty_upto limit what (VStr s) = Ok (VStr (strip s)).
Proof.
  unfold nonempty_upto. cbn [as_str res_bind].
  destruct (is_empty (strip s)); [left; eauto |].
  destruct (limit <? String.length (strip s))%nat; [left; eauto | right; reflexivity].
Qed.

Lemma validate_iso_cases (L : Lib) s :
  validate_iso L (VStr s) = Raise (ValueError "Invalid ISO timestamp")
  \/ validate_iso L (VStr s) = Ok (VStr s).
Proof.
  unfold validate_iso, iso_error.
  destruct (fromisoformat_ok L _); [right | left]; reflexivity.
Qed.

(** Validating the payload of [restaurant_attempt] never raises; when it
    succeeds, the record carries the stripped name and the location. *)
Lemma validate_restaurant_payload (L : Lib) rid name cuisine pricing loc created bound w :
  drawn_amount bound pricing -> (bound < 10 ^ 24)%N ->
  returns
    (validate_or_log L
       [ ("type", VStr "restaurant");
         ("restaurant_id", VStr rid);
         ("name", VStr name);
         ("cuisine_type", VStr cuisine);
         ("pricing_for_2", VStr pricing);
         ("location_id", VStr loc);
         ("created_date", VStr created) ]
       (RestaurantModel L))
    (fun r w' =>
       registry w' = registry w /\
       (r = None \/
        exists price,
          r = Some [ ("type", VStr "restaurant");
                     ("restaurant_id", VStr rid);
                     ("name", VStr (strip name));
                     ("cuisine_type", VStr cuisine);
                     ("pricing_for_2", VStr price);
                     ("location_id", VStr loc);
                     ("created_date", VStr created) ])) w.
Proof.
  intros Hp Hb. destruct (drawn_amount_parses bound pricing Hp) as (c & k & Hparse & Hk & Hc).
  eapply validate_or_log_cases;
    [repeat constructor | apply restaurant_fields_print | reflexivity |].
  unfold model_validate, RestaurantModel.
  cbn -[parse_decimal validate_price name_nonempty validate_iso format_f].
  rewrite Hparse. cbn -[validate_price name_nonempty validate_iso format_f].
  unfold name_nonempty.
  destruct (nonempty_upto_cases 200 "Restaurant name" name) as [[m1 ->] | ->];
    destruct (validate_price_drawn c k Hk ltac:(lia)) as [-> | (q & -> & _)];
    destruct (validate_iso_cases L created) as [-> | ->];
    cbn -[format_f]; eauto.
Qed.

(** Validating the payload of [menu_attempt] never raises; when it
    succeeds, the record carries the stripped item name and a positive
    price with two decimals. *)
Lemma validate_menu_payload (L : Lib) mid rid itemname description price flag created
    bound w :
  drawn_amount bound price -> (bound < 10 ^ 24)%N ->
  returns
    (validate_or_log L
       [ ("type", VStr "menu");
         ("menu_id", VStr mid);
         ("restaurant_id", VStr rid);
         ("itemname", VStr itemname);
         ("description", VStr description);
         ("price", VStr price);
         ("activeflag", VStr flag);
         ("created_date", VStr created) ]
       (MenuModel L))
    (fun r w' =>
       registry w' = registry w /\
       (r = None \/
        exists q,
          (0 < q < 10 ^ 26)%N /\
          r = Some [ ("type", VStr "menu");
                     ("menu_id", VStr mid);
                     ("restaurant_id", VStr rid);
                     ("itemname", VStr (strip itemname));
                     ("description", VStr description);
                     ("price", VStr (format_f (DFin false q (-2))));
                     ("activeflag", VStr flag);
                     ("created_date", VStr created) ])) w.
Proof.
  intros Hp Hb. destruct (drawn_amount_parses bound price Hp) as (c & k & Hparse & Hk & Hc).
  eapply validate_or_log_cases;
    [repeat constructor | apply menu_fields_print | reflexivity |].
  unfold model_validate, MenuModel.
  cbn -[parse_decimal validate_price itemname_nonempty validate_iso format_f].
  rewrite Hparse. cbn -[validate_price itemname_nonempty validate_iso format_f].
  unfold itemname_nonempty.
  destruct (nonempty_upto_cases 150 "Item name" itemname) as [[m1 ->] | ->];
    destruct (validate_price_drawn c k Hk ltac:(lia)) as [-> | (q & -> & Hq)];
    destruct (validate_iso_cases L created) as [-> | ->];
    cbn -[format_f N.pow]; eauto.
Qed.

(** Validating the payload of [deliveryagent_attempt] never raises; when
    it succeeds, the record carries the phone number. *)
Lemma validate_agent_payload (L : Lib) aid name phone vehicle loc status rating created
    bound w :
  mobile_regex phone = true -> drawn_amount bound rating -> (bound < 10 ^ 26)%N ->
  returns
    (validate_or_log L
       [ ("type", VStr "deliveryagent");
         ("deliveryagent_id", VStr aid);
         ("name", VStr name);
         ("phone", VStr phone);
         ("vehicle_type", VStr vehicle);
         ("location_id", VStr loc);
         ("status", VStr status);
         ("rating", VStr rating);
         ("created_date", VStr created) ]
       (DeliveryAgentModel L))
    (fun r w' =>
       registry w' = registry w /\
       (r = None \/
        exists rating',
          r = Some [ ("type", VStr "deliveryagent");
                     ("deliveryagent_id", VStr aid);
                     ("name", VStr name);
                     ("phone", VStr phone);
                     ("vehicle_type", VStr vehicle);
                     ("location_id", VStr loc);
                     ("status", VStr status);
                     ("rating", VStr rating');
                     ("created_date", VStr created) ])) w.
Proof.
  intros Hphone Hr Hb.
  eapply validate_or_log_cases;
    [repeat constructor | apply agent_fields_print | reflexivity |].
  unfold model_validate, DeliveryAgentModel.
  cbn -[validate_mobile rating_ok validate_iso format_f].
  rewrite (mobile_regex_accepted phone Hphone).
  destruct (rating_ok_drawn bound rating Hr Hb) as [[m ->] | [q ->]];
    destruct (validate_iso_cases L created) as [-> | ->];
    cbn -[format_f]; eauto.
Qed.

Section Factories.
Context (L : Lib).

Lemma drawn_amount_mono b b' s : (b <= b')%N -> drawn_amount b s -> drawn_amount b' s.
Proof. intros Hb (c & k & -> & Hk & Hc). exists c, k. split; [reflexivity |]. split; [exact Hk | lia]. Qed.

Lemma returns_uniform_str2 (a b : N) (Q : string -> World -> Prop) w :
  (a <= b)%N ->
  (forall s w', drawn_amount (100 * b) s -> entropy_only w w' -> Q s w') ->
  returns (uniform_str2 L a b) Q w.
Proof.
  intros Hab H. unfold uniform_str2. apply returns_bind, returns_draw.
  intros n w' Hw. apply returns_ret, H; [| exact Hw].
  eapply drawn_amount_mono; [| apply str_float2_drawn].
  pose proof (N.mod_lt (N.of_nat n) (100 * (b - a) + 1) ltac:(lia)). lia.
Qed.

Lemma returns_uniform_str1 (a b : N) (Q : string -> World -> Prop) w :
  (a <= b)%N ->
  (forall s w', drawn_amount (10 * b) s -> entropy_only w w' -> Q s w') ->
  returns (uniform_str1 L a b) Q w.
Proof.
  intros Hab H. unfold uniform_str1. apply returns_bind, returns_draw.
  intros n w' Hw. apply returns_ret, H; [| exact Hw].
  unfold str_float1. eexists _, 1. split; [reflexivity |]. split; [left; reflexivity |].
  pose proof (N.mod_lt (N.of_nat n) (10 * (b - a) + 1) ltac:(lia)). lia.
Qed.

(** *** One pass of [make_restaurant_unique] *)

Lemma restaurant_attempt_spec (w : World) :
  returns (restaurant_attempt L)
    (fun r w' =>
       match r with
       | None => registry w' = registry w
       | Some rec =>
           restaurant_record rec /\ restaurant_registered rec (registry w) (registry w')
       end) w.
Proof.
  unfold restaurant_attempt.
  apply returns_bind, returns_uuid4. intros loc w1 [R1 _].
  apply returns_bind, returns_fake. intros n w2 [R2 _].
  apply returns_bind, returns_get_registry.
  destruct (bool_decide ((lower (strip (fake_company L n)), Some loc)
                           ∈ existing_restaurant_keys (registry w2))) eqn:Eseen.
  - apply returns_ret. congruence.
  - apply bool_decide_eq_false in Eseen.
    apply returns_bind, returns_uuid4. intros rid w3 [R3 _].
    apply returns_bind, returns_choice; [discriminate |]. intros cuisine w4 _ [R4 _].
    apply returns_bind, returns_uniform_str2; [lia |]. intros pricing w5 Hpricing [R5 _].
    apply returns_bind, returns_now_iso. intros created w6 [R6 _].
    apply returns_bind.
    eapply returns_mono;
      [apply (validate_restaurant_payload L rid (fake_company L n) cuisine pricing loc
                (now_iso_at L created) _ w6 Hpricing); reflexivity |].
    intros r w7 [R7 [-> | [price ->]]]; cbn [accepted].
    + apply returns_ret. congruence.
    + cbn [dict_item dict_get String.eqb Ascii.eqb Bool.eqb res_bind as_str key_opt_str].
      apply returns_bind, (returns_lift _ (strip (fake_company L n))); [reflexivity |].
      apply returns_bind, (returns_lift _ (Some loc)); [reflexivity |].
      apply returns_bind, returns_update_registry. intros w8 R8 _.
      apply returns_ret. split; [unfold restaurant_record; do 6 eexists; reflexivity |].
      unfold restaurant_registered, restaurant_key, field_str, field_opt.
      cbn [dict_get String.eqb Ascii.eqb Bool.eqb].
      rewrite strip_idem in *. rewrite R8, R7, R6, R5, R4, R3.
      rewrite R2, R1 in Eseen. rewrite R2, R1. split; [exact Eseen | reflexivity].
Qed.

(** *** One pass of [make_menu_unique] *)

Lemma menu_attempt_spec (rid : string) (w : World) :
  returns (menu_attempt L rid)
    (fun r w' =>
       match r with
       | None => registry w' = registry w
       | Some m => menu_record rid m /\ menu_registered m (registry w) (registry w')
       end) w.
Proof.
  unfold menu_attempt.
  apply returns_bind, returns_fake. intros nw w1 [R1 _].
  apply returns_bind, returns_fake. intros nf w2 [R2 _].
  set (itemname := strip (fake_word_title L nw +:+ " " +:+ fake_food L nf)).
  apply returns_bind, returns_get_registry.
  destruct (bool_decide ((rid, lower (strip itemname))
                           ∈ existing_menu_keys (registry w2))) eqn:Eseen.
  - apply returns_ret. congruence.
  - apply bool_decide_eq_false in Eseen.
    apply returns_bind, returns_uuid4. intros mid w3 [R3 _].
    apply returns_bind, returns_fake. intros nd w4 [R4 _].
    apply returns_bind, returns_uniform_str2; [lia |]. intros price w5 Hprice [R5 _].
    apply returns_bind, returns_choice; [discriminate |]. intros flag w6 _ [R6 _].
    apply returns_bind, returns_now_iso. intros created w7 [R7 _].
    apply returns_bind.
    eapply returns_mono;
      [apply (validate_menu_payload L mid rid itemname (fake_sentence L nd) price flag
                (now_iso_at L created) _ w7 Hprice); reflexivity |].
    intros r w8 [R8 [-> | (q & Hq & ->)]]; cbn [accepted].
    + apply returns_ret. congruence.
    + cbn [dict_item dict_get String.eqb Ascii.eqb Bool.eqb res_bind as_str key_str].
      apply returns_bind, (returns_lift _ rid); [reflexivity |].
      apply returns_bind, (returns_lift _ (strip itemname)); [reflexivity |].
      apply returns_bind, returns_update_registry. intros w9 R9 _.
      apply returns_ret. split; [unfold menu_record; do 6 eexists; split; [reflexivity | exact Hq] |].
      unfold menu_registered, menu_key, field_str.
      cbn [dict_get String.eqb Ascii.eqb Bool.eqb].
      rewrite strip_idem in *. rewrite R9, R8, R7, R6, R5, R4, R3.
      rewrite R2, R1 in Eseen. rewrite R2, R1. split; [exact Eseen | reflexivity].
Qed.

(** *** One pass of [make_deliveryagent_unique] *)

Lemma deliveryagent_attempt_spec (w : World) :
  returns (deliveryagent_attempt L)
    (fun r w' =>
       match r with
       | None => registry w' = registry w
       | Some a => agent_record a /\ agent_registered a (registry w) (registry w')
       end) w.
Proof.
  unfold deliveryagent_attempt.
  apply returns_bind, returns_random_phone_india. intros phone w1 Hphone [R1 _].
  apply returns_bind, returns_get_registry.
  destruct (bool_decide (phone ∈ existing_agent_phones (registry w1))) eqn:Eseen.
  - apply returns_ret. congruence.
  - apply bool_decide_eq_false in Eseen.
    apply returns_bind, returns_uuid4. intros aid w2 [R2 _].
    apply returns_bind, returns_fake. intros nn w3 [R3 _].
    apply returns_bind, returns_choice; [discriminate |]. intros vehicle w4 _ [R4 _].
    apply returns_bind, returns_uuid4. intros loc w5 [R5 _].
    apply returns_bind, returns_choice; [discriminate |]. intros status w6 _ [R6 _].
    apply returns_bind, returns_uniform_str1; [lia |]. intros rating w7 Hrating [R7 _].
    apply returns_bind, returns_now_iso. intros created w8 [R8 _].
    apply returns_bind.
    eapply returns_mono;
      [apply (validate_agent_payload L aid (fake_name L nn) phone vehicle loc status rating
                (now_iso_at L created) _ w8 Hphone Hrating); reflexivity |].
    intros r w9 [R9 [-> | (rating' & ->)]]; cbn [accepted].
    + apply returns_ret. congruence.
    + cbn [dict_item dict_get String.eqb Ascii.eqb Bool.eqb res_bind key_str].
      apply returns_bind, (returns_lift _ phone); [reflexivity |].
      apply returns_bind, returns_update_registry. intros w10 R10 _.
      apply returns_ret. split; [unfold agent_record; do 8 eexists; reflexivity |].
      unfold agent_registered, field_str.
      cbn [dict_get String.eqb Ascii.eqb Bool.eqb].
      rewrite R10, R9, R8, R7, R6, R5, R4, R3, R2.
      rewrite R1 in Eseen. rewrite R1. split; [exact Eseen | reflexivity].
Qed.

End Factories.

End Retries.

Section Registry.
Local Open Scope nat_scope.
Local Open Scope string_scope.
Local Open Scope list_scope.

Section Uniqueness.
Context (L : Lib).

(** *** The four factories *)

(** What a factory whose passes satisfy [P] returns. *)
Lemma factory_spec (body : M (option pydict)) (warning : log_entry)
    (P : pydict -> Registry -> Registry -> Prop) (w : World) :
  (forall w1, returns body
                (fun r w2 => match r with
                             | None => registry w2 = registry w1
                             | Some rec => P rec (registry w1) (registry w2)
                             end) w1) ->
  returns (for_attempts MAX_UNIQUENESS_ATTEMPTS body (bind (emit warning) (fun _ => ret None)))
    (fun r w' => match r with
                 | None => registry w' = registry w
                 | Some rec => P rec (registry w) (registry w')
                 end) w.
Proof.
  intros Hbody.
  apply (returns_for_attempts _ _ _ (fun w1 => registry w1 = registry w)).
  - reflexivity.
  - intros w1 H1. eapply returns_mono; [apply Hbody |].
    intros [rec |] w2 H2; [rewrite <- H1; exact H2 | congruence].
  - intros w1 H1. apply returns_bind, returns_emit. intros w2 H2 _.
    apply returns_ret. congruence.
Qed.

Lemma make_customer_unique_spec (cid : option string) (w : World) :
  returns (make_customer_unique L cid)
    (fun r w' => match r with
                 | None => registry w' = registry w
                 | Some c => customer_candidate L c
                             /\ customer_registered c (registry w) (registry w')
                 end) w.
Proof.
  apply (factory_spec _ _ (fun c R R' => customer_candidate L c /\ customer_registered c R R')).
  intros w1. apply customer_attempt_spec.
Qed.

Lemma make_restaurant_unique_spec (w : World) :
  returns (make_restaurant_unique L)
    (fun r w' => match r with
                 | None => registry w' = registry w
                 | Some rec => restaurant_record rec
                               /\ restaurant_registered rec (registry w) (registry w')
                 end) w.
Proof.
  apply (factory_spec _ _ (fun r R R' => restaurant_record r /\ restaurant_registered r R R')).
  intros w1. apply restaurant_attempt_spec.
Qed.

Lemma make_menu_unique_spec (rid : string) (w : World) :
  returns (make_menu_unique L rid)
    (fun r w' => match r with
                 | None => registry w' = registry w
                 | Some m => menu_record rid m
                             /\ menu_registered m (registry w) (registry w')
                 end) w.
Proof.
  apply (factory_spec _ _ (fun m R R' => menu_record rid m /\ menu_registered m R R')).
  intros w1. apply menu_attempt_spec.
Qed.

Lemma make_deliveryagent_unique_spec (w : World) :
  returns (make_deliveryagent_unique L)
    (fun r w' => match r with
                 | None => registry w' = registry w
                 | Some a => agent_record a
                             /\ agent_registered a (registry w) (registry w')
                 end) w.
Proof.
  apply (factory_spec _ _ (fun a R R' => agent_record a /\ agent_registered a R R')).
  intros w1. apply deliveryagent_attempt_spec.
Qed.

(** C6. Each of the four uniqueness-constrained factories is a retry loop
    of at most MAX_UNIQUENESS_ATTEMPTS = 20 passes: it never raises; a
    record it returns is returned by one of the first 20 passes, all
    passes before it having failed; and when all 20 passes fail it prints
    its warning and returns the null result, with every set of the
    registry as it was before the call. *)
Theorem factories_give_up_after_twenty_attempts :
  MAX_UNIQUENESS_ATTEMPTS = 20 /\
  (forall cid,
     gives_up_after 20 (make_customer_unique L cid) (customer_attempt L cid)
       warn_customer) /\
  gives_up_after 20 (make_restaurant_unique L) (restaurant_attempt L) warn_restaurant /\
  (forall rid,
     gives_up_after 20 (make_menu_unique L rid) (menu_attempt L rid) warn_menu) /\
  gives_up_after 20 (make_deliveryagent_unique L) (deliveryagent_attempt L) warn_agent.
Proof.
  split; [reflexivity |].
  split; [intros cid | split; [| split; [intros rid |]]];
    apply retry_gives_up; intros w.
  - eapply returns_mono; [apply customer_attempt_spec |].
    intros [c |] w' H; [discriminate | intros _; exact H].
  - eapply returns_mono; [apply restaurant_attempt_spec |].
    intros [c |] w' H; [discriminate | intros _; exact H].
  - eapply returns_mono; [apply menu_attempt_spec |].
    intros [c |] w' H; [discriminate | intros _; exact H].
  - eapply returns_mono; [apply deliveryagent_attempt_spec |].
    intros [c |] w' H; [discriminate | intros _; exact H].
Qed.

End Uniqueness.

(** *** [lower] and [strip] commute *)

Lemma isspace_lower_char c : isspace (lower_char c) = isspace c.
Proof. destruct c as [[] [] [] [] [] [] [] []]; reflexivity. Qed.

Lemma is_empty_lower s : is_empty (lower s) = is_empty s.
Proof. destruct s; reflexivity. Qed.

Lemma lstrip_lower s : lstrip (lower s) = lower (lstrip s).
Proof.
  induction s as [| c s IH]; [reflexivity |]. cbn [lower lstrip].
  rewrite isspace_lower_char. destruct (isspace c); [exact IH | reflexivity].
Qed.

Lemma rstrip_lower s : rstrip (lower s) = lower (rstrip s).
Proof.
  induction s as [| c s IH]; [reflexivity |]. cbn [lower rstrip].
  rewrite IH, is_empty_lower, isspace_lower_char.
  destruct (is_empty (rstrip s) && isspace c); reflexivity.
Qed.

Lemma strip_lower s : strip (lower s) = lower (strip s).
Proof. unfold strip. rewrite rstrip_lower, lstrip_lower. reflexivity. Qed.

Section Keys.
Context {K : Type} `{Countable K}.

(** A record whose key is not registered yet joins records whose keys all
    are. *)
Lemma keys_registered_add (key : pydict -> K) (x : pydict) (l : list pydict)
    (S : gset K) :
  keys_registered key l S -> key x ∉ S ->
  keys_registered key (x :: l) ({[ key x ]} ∪ S).
Proof.
  intros [Hnd Hin] Hx. split.
  - cbn [map]. apply NoDup_cons. split; [| exact Hnd].
    intros Hmem. apply list_elem_of_fmap in Hmem as (y & Hy & Hyl).
    apply Hx. rewrite Hy. apply Hin, Hyl.
  - intros r Hr. apply elem_of_cons in Hr as [-> | Hr]; [set_solver |].
    apply elem_of_union_r, Hin, Hr.
Qed.

Lemma keys_registered_grow (key : pydict -> K) (l : list pydict) (S S' : gset K) :
  keys_registered key l S -> S ⊆ S' -> keys_registered key l S'.
Proof. intros [Hnd Hin] Hsub. split; [exact Hnd |]. intros r Hr. apply Hsub, Hin, Hr. Qed.

(** Keys that differ after a function is applied to them differ. *)
Lemma NoDup_map_through {B} (f : pydict -> B) (g : B -> K) (l : list pydict) :
  NoDup (map (fun r => g (f r)) l) -> NoDup (map f l).
Proof.
  intros Hnd. apply (NoDup_fmap_1 g).
  rewrite <- list_fmap_compose. exact Hnd.
Qed.

End Keys.

Lemma registry_grows_refl R : registry_grows R R.
Proof. repeat split; reflexivity. Qed.

Section Lifetime.
Context (L : Lib).

Lemma lifetime_keeps_invariant w cs rs ms ags :
  lifetime L w cs rs ms ags -> lifetime_invariant w cs rs ms ags.
Proof.
  induction 1 as [w | w cs rs ms ags cid c w' _ IH Hrun | w cs rs ms ags r w' _ IH Hrun
                  | w cs rs ms ags rid m w' _ IH Hrun | w cs rs ms ags a w' _ IH Hrun
                  | w cs rs ms ags w' _ IH Hgrow].
  - unfold lifetime_invariant, keys_registered.
    repeat split; (apply NoDup_nil_2 || (intros r Hr; apply elem_of_nil in Hr as [])).
  - pose proof (make_customer_unique_spec L cid w) as Hspec.
    unfold returns in Hspec. rewrite Hrun in Hspec.
    destruct Hspec as (_ & Hm & He & Hn & HR).
    destruct IH as (I1 & I2 & I3 & I4 & I5 & I6).
    unfold lifetime_invariant. rewrite HR.
    cbn [add_customer_keys add_restaurant_key add_menu_key add_agent_phone
         existing_customer_mobiles existing_customer_emails existing_customer_name_dob
         existing_agent_phones existing_restaurant_keys existing_menu_keys].
    refine (conj _ (conj _ (conj _ (conj _ (conj _ _))))).
    + apply (keys_registered_add _ c cs _ I1 Hm).
    + apply (keys_registered_add _ c cs _ I2 He).
    + apply (keys_registered_add _ c cs _ I3 Hn).
    + exact I4.
    + exact I5.
    + exact I6.
  - pose proof (make_restaurant_unique_spec L w) as Hspec.
    unfold returns in Hspec. rewrite Hrun in Hspec.
    destruct Hspec as (_ & Hk & HR).
    destruct IH as (I1 & I2 & I3 & I4 & I5 & I6).
    unfold lifetime_invariant. rewrite HR.
    cbn [add_customer_keys add_restaurant_key add_menu_key add_agent_phone
         existing_customer_mobiles existing_customer_emails existing_customer_name_dob
         existing_agent_phones existing_restaurant_keys existing_menu_keys].
    exact (conj I1 (conj I2 (conj I3
             (conj (keys_registered_add _ r rs _ I4 Hk) (conj I5 I6))))).
  - pose proof (make_menu_unique_spec L rid w) as Hspec.
    unfold returns in Hspec. rewrite Hrun in Hspec.
    destruct Hspec as (_ & Hk & HR).
    destruct IH as (I1 & I2 & I3 & I4 & I5 & I6).
    unfold lifetime_invariant. rewrite HR.
    cbn [add_customer_keys add_restaurant_key add_menu_key add_agent_phone
         existing_customer_mobiles existing_customer_emails existing_customer_name_dob
         existing_agent_phones existing_restaurant_keys existing_menu_keys].
    exact (conj I1 (conj I2 (conj I3
             (conj I4 (conj (keys_registered_add _ m ms _ I5 Hk) I6))))).
  - pose proof (make_deliveryagent_unique_spec L w) as Hspec.
    unfold returns in Hspec. rewrite Hrun in Hspec.
    destruct Hspec as (_ & Hk & HR).
    destruct IH as (I1 & I2 & I3 & I4 & I5 & I6).
    unfold lifetime_invariant. rewrite HR.
    cbn [add_customer_keys add_restaurant_key add_menu_key add_agent_phone
         existing_customer_mobiles existing_customer_emails existing_customer_name_dob
         existing_agent_phones existing_restaurant_keys existing_menu_keys].
    exact (conj I1 (conj I2 (conj I3
             (conj I4 (conj I5 (keys_registered_add _ a ags _ I6 Hk)))))).
  - destruct IH as (I1 & I2 & I3 & I4 & I5 & I6).
    destruct Hgrow as (G1 & G2 & G3 & G4 & G5 & G6).
    refine (conj _ (conj _ (conj _ (conj _ (conj _ _)))));
      eapply keys_registered_grow; eassumption.
Qed.

(** C2. Along one lifetime of the registry, the records that the four
    factories have returned never share a natural key: no two customers
    share the mobile number, the lower-cased email, or the pair of
    lower-cased name and date of birth; no two restaurants share the pair
    of lower-cased name and location; no two menu items share the pair of
    restaurant and lower-cased item name; no two delivery agents share the
    phone number. *)
Theorem returned_records_never_share_a_key (w : World) (cs rs ms ags : list pydict) :
  lifetime L w cs rs ms ags ->
  NoDup (map key_mobile cs) /\ NoDup (map key_email cs) /\ NoDup (map key_name_dob cs) /\
  NoDup (map key_restaurant rs) /\ NoDup (map key_menu ms) /\ NoDup (map key_phone ags).
Proof.
  intros Hlife.
  destruct (lifetime_keeps_invariant w cs rs ms ags Hlife)
    as ([N1 _] & [N2 _] & [N3 _] & [N4 _] & [N5 _] & [N6 _]).
  split; [exact N1 |]. split; [exact N2 |].
  split; [| split; [| split; [| exact N6]]].
  - apply (NoDup_map_through key_name_dob (fun k => (strip k.1, k.2))).
    unfold key_name_dob. cbn [fst snd].
    erewrite map_ext; [exact N3 |].
    intros c. unfold customer_name_dob. rewrite strip_lower. reflexivity.
  - apply (NoDup_map_through key_restaurant (fun k => (strip k.1, k.2))).
    unfold key_restaurant. cbn [fst snd].
    erewrite map_ext; [exact N4 |].
    intros c. unfold restaurant_key. rewrite strip_lower. reflexivity.
  - apply (NoDup_map_through key_menu (fun k => (k.1, strip k.2))).
    unfold key_menu. cbn [fst snd].
    erewrite map_ext; [exact N5 |].
    intros c. unfold menu_key. rewrite strip_lower. reflexivity.
Qed.

End Lifetime.

Lemma returned_run (run : res (option pydict) * World) :
  Sample.returned_some run = true ->
  run = (Ok (Some (Sample.returned run)), snd run).
Proof.
  destruct run as [[[r |] | e] w]; cbn;
    intros H; [reflexivity | discriminate H | discriminate H].
Qed.

(** One more factory call that returns a record extends a lifetime. *)
Section Steps.
Context (L : Lib) (w : World) (cs rs ms ags : list pydict).
Hypothesis Hlife : lifetime L w cs rs ms ags.

Lemma customer_step cid :
  Sample.returned_some (make_customer_unique L cid w) = true ->
  lifetime L (snd (make_customer_unique L cid w))
    (Sample.returned (make_customer_unique L cid w) :: cs) rs ms ags.
Proof.
  intros H. eapply lifetime_customer; [exact Hlife | apply returned_run, H].
Qed.

Lemma restaurant_step :
  Sample.returned_some (make_restaurant_unique L w) = true ->
  lifetime L (snd (make_restaurant_unique L w))
    cs (Sample.returned (make_restaurant_unique L w) :: rs) ms ags.
Proof.
  intros H. eapply lifetime_restaurant; [exact Hlife | apply returned_run, H].
Qed.

Lemma menu_step rid :
  Sample.returned_some (make_menu_unique L rid w) = true ->
  lifetime L (snd (make_menu_unique L rid w))
    cs rs (Sample.returned (make_menu_unique L rid w) :: ms) ags.
Proof.
  intros H. eapply lifetime_menu; [exact Hlife | apply returned_run, H].
Qed.

Lemma agent_step :
  Sample.returned_some (make_deliveryagent_unique L w) = true ->
  lifetime L (snd (make_deliveryagent_unique L w))
    cs rs ms (Sample.returned (make_deliveryagent_unique L w) :: ags).
Proof.
  intros H. eapply lifetime_agent; [exact Hlife | apply returned_run, H].
Qed.

End Steps.

Lemma sample_lifetime :
  lifetime Sample.lib (snd Sample.agent_1)
    [Sample.returned Sample.customer_2; Sample.returned Sample.customer_1]
    [Sample.returned Sample.restaurant_1]
    [Sample.returned Sample.menu_1] [Sample.returned Sample.agent_1].
Proof.
  unfold Sample.agent_1. apply agent_step; [| vm_compute; reflexivity].
  unfold Sample.menu_1. apply menu_step; [| vm_compute; reflexivity].
  unfold Sample.restaurant_1. apply restaurant_step; [| vm_compute; reflexivity].
  unfold Sample.customer_2. apply customer_step; [| vm_compute; reflexivity].
  unfold Sample.customer_1. apply customer_step; [| vm_compute; reflexivity].
  apply lifetime_start.
Qed.

(** Two customers, a restaurant, a menu item and a delivery agent made from
    the empty registry form a lifetime, and share no key. *)
Lemma returned_records_never_share_a_key_witness :
  lifetime Sample.lib (snd Sample.agent_1)
    [Sample.returned Sample.customer_2; Sample.returned Sample.customer_1] [Sample.returned Sample.restaurant_1]
    [Sample.returned Sample.menu_1] [Sample.returned Sample.agent_1]
  /\ (NoDup (map key_mobile [Sample.returned Sample.customer_2; Sample.returned Sample.customer_1]) /\
      NoDup (map key_email [Sample.returned Sample.customer_2; Sample.returned Sample.customer_1]) /\
      NoDup (map key_name_dob [Sample.returned Sample.customer_2; Sample.returned Sample.customer_1]) /\
      NoDup (map key_restaurant [Sample.returned Sample.restaurant_1]) /\
      NoDup (map key_menu [Sample.returned Sample.menu_1]) /\
      NoDup (map key_phone [Sample.returned Sample.agent_1])).
Proof.
  split; [exact sample_lifetime |].
  apply (returned_records_never_share_a_key Sample.lib _ _ _ _ _ sample_lifetime).
Defined.

Section Emails.
Context (L : Lib).

(** Stripping removes white space only, so it removes no at sign. *)
Lemma space_is_no_at c : isspace c = true -> Ascii.eqb c "@" = false.
Proof.
  intros H. destruct (Ascii.eqb_spec c "@") as [-> | _]; [| reflexivity].
  vm_compute in H. discriminate H.
Qed.

Lemma count_at_lstrip s : count_char "@" (lstrip s) = count_char "@" s.
Proof.
  induction s as [| c r IH]; [reflexivity |]. cbn [lstrip].
  destruct (isspace c) eqn:E; [| reflexivity].
  cbn [count_char]. rewrite (space_is_no_at c E). exact IH.
Qed.

Lemma count_at_rstrip s : count_char "@" (rstrip s) = count_char "@" s.
Proof.
  induction s as [| c r IH]; [reflexivity |]. cbn [rstrip].
  destruct (is_empty (rstrip r) && isspace c) eqn:E.
  - apply andb_prop in E as [Hr Hc]. cbn [count_char].
    rewrite (space_is_no_at c Hc), <- IH.
    destruct (rstrip r); [reflexivity | discriminate Hr].
  - cbn [count_char]. rewrite IH. reflexivity.
Qed.

Lemma count_at_strip s : count_char "@" (strip s) = count_char "@" s.
Proof. unfold strip. rewrite count_at_lstrip. apply count_at_rstrip. Qed.

(** The built email has one at sign more than the name it is built from. *)
Lemma candidate_email_count name k domain :
  domain ∈ ["gmail"; "outlook"; "hotmail"; "icloud"] ->
  count_char "@" (candidate_email name k domain) = S (count_char "@" name).
Proof.
  intros Hdomain. unfold candidate_email.
  rewrite !count_char_app, count_at_str_int, count_at_strip, count_at_lower.
  assert (count_char "@" domain = 0%nat) as ->.
  { repeat (apply elem_of_cons in Hdomain as [-> | Hdomain]; [reflexivity |]).
    apply elem_of_nil in Hdomain as []. }
  cbn. lia.
Qed.

(** *** Any string is taken as an email *)

Lemma dict_get_with_email e k p :
  dict_get k (with_email e p)
  = if String.eqb k "email" then option_map (fun _ => VStr e) (dict_get k p)
    else dict_get k p.
Proof.
  induction p as [| [k' v] p IH].
  - cbn. destruct (String.eqb k "email"); reflexivity.
  - cbn [with_email map fst]. fold (with_email e p).
    destruct (String.eqb_spec k' "email") as [-> | Hk']; cbn [dict_get].
    + destruct (String.eqb k "email"); [reflexivity | exact IH].
    + destruct (String.eqb_spec k k') as [-> | Hk]; [| exact IH].
      apply String.eqb_neq in Hk'. rewrite Hk'. reflexivity.
Qed.

Lemma validate_field_other f e p :
  fname f <> "email" -> validate_field L f (with_email e p) = validate_field L f p.
Proof.
  intros H. unfold validate_field. rewrite dict_get_with_email.
  apply String.eqb_neq in H. rewrite H. reflexivity.
Qed.

Lemma validate_fields_errors fs p acc errs d :
  validate_fields L fs p acc errs = Valid d -> errs = [].
Proof.
  revert acc errs. induction fs as [| f fs IH]; intros acc errs; cbn [validate_fields].
  - destruct errs; [reflexivity | discriminate].
  - destruct (validate_field L f p) as [v | msg | e]; [| | discriminate].
    + apply IH.
    + intros H. apply IH in H. discriminate H.
Qed.

(** The fields other than the email see the same payload; the email field
    is a plain [str] with no validator, and takes the new value. *)
Lemma validate_fields_with_email fs e p acc errs d :
  Forall (fun f => fname f = "email" -> f = fld "email" TStr) fs ->
  validate_fields L fs p acc errs = Valid d ->
  validate_fields L fs (with_email e p) (with_email e acc) errs = Valid (with_email e d).
Proof.
  intros Hfs. revert acc errs.
  induction Hfs as [| f fs Hf _ IH]; intros acc errs; cbn [validate_fields].
  - destruct errs; [| discriminate]. intros [= <-]. unfold with_email.
    rewrite map_rev. reflexivity.
  - destruct (String.eqb_spec (fname f) "email") as [Heq | Hne].
    + rewrite (Hf Heq). unfold validate_field. cbn [fname fld fdefault fbefore fafter ftyp].
      rewrite dict_get_with_email. cbn [String.eqb Ascii.eqb Bool.eqb].
      destruct (dict_get "email" p) as [raw |].
      * cbn [option_map run_validator coerce].
        destruct raw; cbn [run_validator];
          try (intros H; apply validate_fields_errors in H; discriminate H).
        intros H. apply IH in H. exact H.
      * intros H. apply validate_fields_errors in H. discriminate H.
    + rewrite (validate_field_other f e p Hne).
      destruct (validate_field L f p) as [v | msg | x]; [| | discriminate].
      * intros H. apply IH in H. cbn [with_email map fst] in H |- *.
        apply String.eqb_neq in Hne. rewrite Hne in H. exact H.
      * intros H. apply validate_fields_errors in H. discriminate H.
Qed.

Lemma dump_with_email e d : dump (with_email e d) = with_email e (dump d).
Proof.
  unfold dump, with_email. rewrite !map_map. apply map_ext. intros [k v].
  destruct v; cbn [fst snd]; destruct (String.eqb k "email"); reflexivity.
Qed.

Lemma customer_model_takes_any_email e p d :
  model_validate L (CustomerModel L) p = Valid d ->
  model_validate L (CustomerModel L) (with_email e p) = Valid (with_email e d).
Proof.
  unfold model_validate. cbn [CustomerModel mfields mafter].
  destruct (validate_fields L _ p [] []) as [d' | |] eqn:E; [| discriminate | discriminate].
  intros [= ->].
  rewrite (validate_fields_with_email _ e p [] [] d); [reflexivity | | exact E].
  repeat constructor; cbn; try discriminate; reflexivity.
Qed.

(** C4 as amended. Every customer that [make_customer_unique] returns has
    the name that Faker generated for it, and the email that
    [make_customer_candidate] built from that very name: the name in lower
    case and stripped, a number, an at sign, one of the four domains and
    ".com". That email has one at sign more than the customer's own name,
    so it has exactly one if and only if that name has none. The validation
    layer itself takes any string as an email: a customer that it accepts
    is accepted with any other email in its place, and returned with it. *)
Theorem created_customers_have_one_at (cid : option string) (w : World) :
  match make_customer_unique L cid w with
  | (Ok (Some c), _) =>
      exists n k domain,
        domain ∈ ["gmail"; "outlook"; "hotmail"; "icloud"]
        /\ dict_get "name" c = Some (VStr (fake_name L n))
        /\ dict_get "email" c = Some (VStr (candidate_email (fake_name L n) k domain))
        /\ count_char "@" (candidate_email (fake_name L n) k domain)
           = S (count_char "@" (fake_name L n))
  | (Ok None, _) => True
  | (Raise _, _) => False
  end
  /\ (forall (e : string) (p r : pydict) (w0 w1 : World),
        validate_or_log L p (CustomerModel L) w0 = (Ok (Some r), w1) ->
        validate_or_log L (with_email e p) (CustomerModel L) w0
        = (Ok (Some (with_email e r)), w1)).
Proof.
  split.
  - pose proof (make_customer_unique_spec L cid w) as Hspec.
    unfold returns in Hspec.
    destruct (make_customer_unique L cid w) as [[[c |] | e] w']; [| exact I | exact Hspec].
    destruct Hspec as [Hc _].
    destruct Hc as (id & n & domain & k & mobile & login & gender & dob & vegan & spicy
                    & created & -> & Hdomain & _).
    exists n, k, domain. split; [exact Hdomain |].
    split; [reflexivity |]. split; [reflexivity |].
    apply candidate_email_count, Hdomain.
  - intros e p r w0 w1. unfold validate_or_log.
    destruct (model_validate L (CustomerModel L) p) as [d | errors | x] eqn:E.
    + rewrite (customer_model_takes_any_email e p d E).
      unfold ret. intros [= <- <-]. rewrite dump_with_email. reflexivity.
    + destruct (dict_keys p !! 1%nat); [| discriminate].
      destruct (prints _ && forallb prints _); discriminate.
    + discriminate.
Qed.

End Emails.

Lemma sample_names_have_no_at n : count_char "@" (fake_name Sample.lib n) = 0.
Proof.
  cbn [fake_name Sample.lib]. unfold Sample.numbered.
  rewrite count_char_app, (count_at_digits _ (of_N_all_digits _)). reflexivity.
Qed.

(** The customer made from the sample library, whose names have no at
    sign, has one at sign in its email; and the accepted customer of the
    sample is accepted with an email of two at signs. *)
Lemma created_customers_have_one_at_witness :
  match make_customer_unique Sample.lib None initial_world with
  | (Ok (Some c), _) =>
      exists e, dict_get "email" c = Some (VStr e) /\ count_char "@" e = 1
  | _ => False
  end
  /\ validate_or_log Sample.lib
       (with_email "a@b@c" (customer_payload (VStr "9876543210") (VStr "nobody")))
       (CustomerModel Sample.lib) initial_world
     = (Ok (Some (with_email "a@b@c"
                    (customer_payload (VStr "9876543210") (VStr "nobody")))),
        initial_world).
Proof.
  destruct (created_customers_have_one_at Sample.lib None initial_world) as [Hrun Hany].
  split.
  - destruct (make_customer_unique Sample.lib None initial_world) as [[[c |] | e] w'] eqn:E.
    + destruct Hrun as (n & k & domain & _ & _ & He & Hcount).
      eexists. split; [exact He |].
      rewrite Hcount, sample_names_have_no_at. reflexivity.
    + vm_compute in E. discriminate E.
    + exact Hrun.
  - apply Hany. vm_compute. reflexivity.
Defined.

End Registry.

Section Rounding.
Local Open Scope string_scope.
Local Open Scope N_scope.

Lemma quantize2_idem d q : quantize2 d = Ok q -> quantize2 q = Ok q.
Proof.
  destruct d as [s c e | s | [|]]; cbn [quantize2]; try discriminate.
  - destruct (rescale_half_up c e <? 10 ^ prec) eqn:E; [| discriminate].
    intros [= <-]. apply quantize2_cents, N.ltb_lt, E.
  - intros [= <-]. reflexivity.
Qed.

Lemma to_decimal_decimal d : to_decimal (VDec d) = quantize2 d.
Proof. unfold to_decimal, decimal_of_str. rewrite parse_dstr. reflexivity. Qed.

(** [to_decimal] loses nothing on the way through [str]: given a Decimal
    it only rounds; it rounds once (applying it to its own result changes
    nothing); its result is a quiet NaN or has exactly two decimals and at
    most [prec] digits. It raises the ValueError of [str] exactly when the
    value holds an int of more than 4300 digits, which has no text;
    whatever it raises for a value that has a text is InvalidOperation. *)
Theorem to_decimal_rounds_once (v : pyval) :
  match to_decimal v with
  | Ok q =>
      prints v = true /\
      to_decimal (VDec q) = Ok q /\
      (q = DNaN false \/ exists s c, q = DFin s c (-2) /\ c < 10 ^ prec) /\
      match v with VDec d => quantize2 d = Ok q | _ => True end
  | Raise e => e = if prints v then InvalidOperation else int_limit_error
  end.
Proof.
  destruct (to_decimal v) as [q | e] eqn:E.
  - assert (exists d, quantize2 d = Ok q /\ prints v = true
                      /\ match v with VDec d' => d' = d | _ => True end)
      as (d & Hq & Hp & Hv).
    { unfold to_decimal in E. destruct (decimal_of_str v) as [d | e] eqn:Ed; [| discriminate E].
      exists d. split; [exact E |]. unfold decimal_of_str in Ed.
      destruct v as [| b | z | s | d' | kv]; try discriminate Ed.
      - cbn [prints]. destruct (int_prints z); [auto | discriminate Ed].
      - auto.
      - rewrite parse_dstr in Ed. split; [reflexivity | congruence].
      - destruct (prints (VDict kv)); discriminate Ed. }
    split; [exact Hp |].
    split; [rewrite to_decimal_decimal; exact (quantize2_idem d q Hq) |].
    split.
    + destruct d as [s c e | s | [|]]; cbn [quantize2] in Hq; try discriminate.
      * destruct (rescale_half_up c e <? 10 ^ prec) eqn:Er; [| discriminate].
        injection Hq as <-. right. exists s, (rescale_half_up c e).
        split; [reflexivity | apply N.ltb_lt, Er].
      * injection Hq as <-. left. reflexivity.
    + destruct v; try exact I. subst. exact Hq.
  - unfold to_decimal in E. destruct (decimal_of_str v) as [d | e'] eqn:Ed.
    + cbn [res_bind] in E.
      assert (prints v = true) as ->.
      { unfold decimal_of_str in Ed.
        destruct v as [| b | z | s | d' | kv]; try reflexivity.
        - cbn [prints]. destruct (int_prints z); [reflexivity | discriminate Ed].
        - destruct (prints (VDict kv)); discriminate Ed. }
      destruct d as [s c e' | s | [|]]; cbn [quantize2] in E; try congruence.
      destruct (rescale_half_up c e' <? 10 ^ prec); congruence.
    + cbn [res_bind] in E. injection E as <-.
      unfold decimal_of_str in Ed.
      destruct v as [| b | z | s | d' | kv].
      * injection Ed as <-. reflexivity.
      * injection Ed as <-. reflexivity.
      * cbn [prints]. destruct (int_prints z); [| congruence].
        destruct (parse_decimal (str_int z)); congruence.
      * destruct (parse_decimal s); cbn [prints]; congruence.
      * rewrite parse_dstr in Ed. discriminate Ed.
      * destruct (prints (VDict kv)); congruence.
Qed.
End Rounding.

Section OrderItems.
Local Open Scope string_scope.
Local Open Scope N_scope.

Lemma format_cents s c : format_f (DFin s c (-2)) = sign_str s +:+ print_fixed (of_N c) 2.
Proof. reflexivity. Qed.

Lemma parse_format_cents s c : parse_decimal (format_f (DFin s c (-2))) = Some (DFin s c (-2)).
Proof. rewrite format_cents. apply (parse_print_fixed s c 2). Qed.

Lemma decimal_positive_cents c :
  c < 10 ^ prec ->
  decimal_positive (VStr (format_f (DFin false c (-2)))) = Ok (VDec (DFin false c (-2))).
Proof.
  intros Hc. unfold decimal_positive, nonnegative_amount, to_decimal, decimal_of_str.
  rewrite parse_format_cents. cbn [res_bind]. rewrite (quantize2_cents _ _ Hc). cbn [res_bind].
  unfold dlt, dcompare, of_int. cbn [res_bind].
  assert (cmp_fin false c (-2) (0 <? 0)%Z (Z.abs_N 0) 0 <> Lt) as Hcmp.
  { unfold cmp_fin. cbn. intros H. rewrite Z.compare_lt_iff in H. lia. }
  destruct (cmp_fin false c (-2) (0 <? 0)%Z (Z.abs_N 0) 0); [reflexivity | congruence | reflexivity].
Qed.

(** The order item check as the validation layer applies it to a candidate
    whose price and subtotal are amounts in hundredths and whose quantity
    is a positive int: the candidate comes back unchanged exactly when the
    subtotal is not more than one hundredth below price times quantity,
    however far above it may lie; otherwise the result is null. *)
Theorem order_item_accepted_from_one_cent_below (L : Lib) (w : World) (q : Z) (pc sc : N) :
  (0 < q)%Z -> pc * Z.to_N q < 10 ^ prec -> sc < 10 ^ prec ->
  let payload :=
    order_item_payload (VInt q) (VStr (format_f (DFin false pc (-2))))
      (VStr (format_f (DFin false sc (-2)))) in
  (pc * Z.to_N q <= sc + 1 ->
     validate_or_log L payload OrderItemModel w = (Ok (Some payload), w)) /\
  (sc + 1 < pc * Z.to_N q ->
     fst (validate_or_log L payload OrderItemModel w) = Ok None).
Proof.
  intros Hq Hfit Hsc payload.
  assert (pc < 10 ^ prec) as Hpc by nia.
  destruct (check_subtotal_cents q pc sc Hq Hfit) as [Hpass Hfail].
  unfold order_item_fields in Hpass, Hfail.
  assert (quantity_positive (VInt q) = Ok (VInt q)) as Hqty.
  { unfold quantity_positive. cbn [py_int res_bind].
    assert ((q <=? 0)%Z = false) as -> by (apply Z.leb_gt; lia). reflexivity. }
  assert (sc + 1 < pc * Z.to_N q ->
          forallb prints (error_inputs L OrderItemModel payload) = true) as Hfmt.
  { intros H. apply error_inputs_print; [| apply order_item_fields_print].
    repeat constructor. cbn [snd prints].
    apply (int_prints_below (10 ^ prec)); [| vm_compute; reflexivity].
    assert (Z.abs_N q = Z.to_N q) as -> by (destruct q; [reflexivity | reflexivity | lia]).
    destruct (N.eq_dec pc 0) as [-> | Hpos]; [lia |].
    apply N.le_lt_trans with (pc * Z.to_N q); [| exact Hfit].
    rewrite <- (N.mul_1_l (Z.to_N q)) at 1. apply N.mul_le_mono_r. lia. }
  unfold validate_or_log.
  split; intros H; [| rewrite (Hfmt H)];
    unfold model_validate, OrderItemModel, payload, order_item_payload;
    cbn -[decimal_positive quantity_positive check_subtotal format_f N.pow];
    rewrite Hqty; cbn -[decimal_positive quantity_positive check_subtotal format_f N.pow];
    rewrite !decimal_positive_cents by assumption;
    cbn -[decimal_positive quantity_positive check_subtotal format_f N.pow].
  - rewrite (Hpass H). reflexivity.
  - destruct (Hfail H) as [msg ->]. reflexivity.
Qed.

(** Price 2.50, quantity 4: the expected subtotal is 10.00, and 9.99 is
    enough. *)
Lemma order_item_accepted_from_one_cent_below_witness :
  (0 < 4)%Z /\ 250 * Z.to_N 4 < 10 ^ prec /\ 999 < 10 ^ prec /\
  (250 * Z.to_N 4 <= 999 + 1 ->
     validate_or_log Sample.lib
       (order_item_payload (VInt 4) (VStr (format_f (DFin false 250 (-2))))
          (VStr (format_f (DFin false 999 (-2))))) OrderItemModel initial_world
     = (Ok (Some (order_item_payload (VInt 4) (VStr (format_f (DFin false 250 (-2))))
                    (VStr (format_f (DFin false 999 (-2)))))), initial_world)).
Proof.
  split; [lia |]. split; [vm_compute; reflexivity |]. split; [vm_compute; reflexivity |].
  apply (order_item_accepted_from_one_cent_below Sample.lib initial_world 4 250 999);
    [lia | vm_compute; reflexivity | vm_compute; reflexivity].
Defined.
End OrderItems.

Section Generators.
Local Open Scope nat_scope.
Local Open Scope string_scope.

(** What [random_phone_india] generates always passes [validate_mobile],
    the validator of the customer's mobile and of the agent's phone: ten
    characters, the first one of 6, 7, 8, 9, the others ASCII digits; and
    generating it touches neither the registry nor the output. *)
Theorem random_phone_india_passes_validation (L : Lib) (w : World) :
  returns (random_phone_india L)
    (fun s w' =>
       String.length s = 10 /\ mobile_regex s = true /\
       validate_mobile (VStr s) = Ok (VStr s) /\ entropy_only w w') w.
Proof.
  apply returns_random_phone_india. intros s w' Hs Hw.
  split; [| split; [exact Hs | split; [apply mobile_regex_accepted, Hs | exact Hw]]].
  unfold mobile_regex in Hs. destruct s as [| c r]; [discriminate Hs |].
  apply andb_prop in Hs as [Hs _]. apply andb_prop in Hs as [_ Hl].
  apply Nat.eqb_eq in Hl. cbn [String.length]. rewrite Hl. reflexivity.
Qed.

End Generators.

Section NegativeTarget.
Local Open Scope Z_scope.

(** A target size that is no positive count: the final slice
    [rows[:batch_size]] gives the empty list for the target 0 and, for a
    negative target, the assembled rows without their last [- batch_size]
    records. *)
Theorem build_batch_of_nonpositive_target (L : Lib) (n : Z) (w : World) :
  n <= 0 ->
  match build_batch L n w with
  | (Ok out, w') =>
      exists rows,
        assemble L n w = (Ok rows, w') /\
        out = (if n =? 0 then [] else take (length rows - Z.to_nat (- n)) rows)
  | (Raise e, w') => assemble L n w = (Raise e, w')
  end.
Proof.
  intros Hn. unfold build_batch, bind.
  destruct (assemble L n w) as [[rows | e] w'] eqn:E; [| reflexivity].
  cbn [ret]. exists rows. split; [reflexivity |].
  unfold finish, slice_to. destruct (n =? 0) eqn:E0.
  - apply Z.eqb_eq in E0. subst n. cbn [Z.leb Z.compare Z.to_nat].
    destruct (0 <? Z.of_nat (length rows)) eqn:El; [reflexivity |].
    apply Z.ltb_ge in El. destruct rows; [reflexivity | cbn [length] in El; lia].
  - apply Z.eqb_neq in E0.
    assert ((n <? Z.of_nat (length rows)) = true) as -> by (apply Z.ltb_lt; lia).
    assert ((0 <=? n) = false) as -> by (apply Z.leb_gt; lia). reflexivity.
Qed.

Lemma build_batch_of_nonpositive_target_witness :
  -3 <= 0 /\
  match build_batch Sample.lib (-3) initial_world with
  | (Ok out, w') =>
      exists rows,
        assemble Sample.lib (-3) initial_world = (Ok rows, w') /\
        out = (if -3 =? 0 then [] else take (length rows - Z.to_nat (- -3)) rows)
  | (Raise e, w') => assemble Sample.lib (-3) initial_world = (Raise e, w')
  end.
Proof.
  split; [lia | apply (build_batch_of_nonpositive_target Sample.lib (-3) initial_world); lia].
Defined.

End NegativeTarget.

Section KeptKeys.
Local Open Scope nat_scope.
Local Open Scope string_scope.

Lemma registry_grows_trans R1 R2 R3 :
  registry_grows R1 R2 -> registry_grows R2 R3 -> registry_grows R1 R3.
Proof.
  intros (A1 & A2 & A3 & A4 & A5 & A6) (B1 & B2 & B3 & B4 & B5 & B6).
  repeat split; etrans; eassumption.
Qed.

Lemma keeps_same {A} (m : M A) :
  (forall w, registry (snd (m w)) = registry w) -> keeps_keys m.
Proof. intros H w. rewrite H. apply registry_grows_refl. Qed.

Lemma keeps_ret {A} (a : A) : keeps_keys (ret a).
Proof. apply keeps_same. reflexivity. Qed.

Lemma keeps_raise {A} (e : exn) : keeps_keys (@raise A e).
Proof. apply keeps_same. reflexivity. Qed.

Lemma keeps_lift {A} (r : res A) : keeps_keys (lift r).
Proof. apply keeps_same. reflexivity. Qed.

Lemma keeps_emit (e : log_entry) : keeps_keys (emit e).
Proof. apply keeps_same. reflexivity. Qed.

Lemma keeps_get_registry : keeps_keys get_registry.
Proof. apply keeps_same. reflexivity. Qed.

Lemma keeps_bind {A B} (m : M A) (k : A -> M B) :
  keeps_keys m -> (forall a, keeps_keys (k a)) -> keeps_keys (bind m k).
Proof.
  intros Hm Hk w. unfold bind. specialize (Hm w).
  destruct (m w) as [[a | e] w1]; [| exact Hm].
  eapply registry_grows_trans; [exact Hm | apply Hk].
Qed.

Lemma keeps_update_registry (f : Registry -> Registry) :
  (forall R, registry_grows R (f R)) -> keeps_keys (update_registry f).
Proof. intros H w. apply H. Qed.

Lemma grows_add_customer_keys m e nd R : registry_grows R (add_customer_keys m e nd R).
Proof. repeat split; cbn; set_solver. Qed.

Lemma grows_add_restaurant_key k R : registry_grows R (add_restaurant_key k R).
Proof. repeat split; cbn; set_solver. Qed.

Lemma grows_add_menu_key k R : registry_grows R (add_menu_key k R).
Proof. repeat split; cbn; set_solver. Qed.

Lemma grows_add_agent_phone k R : registry_grows R (add_agent_phone k R).
Proof. repeat split; cbn; set_solver. Qed.

Section WithLib.
Context (L : Lib).

Lemma keeps_draw : keeps_keys (draw L).
Proof. apply keeps_same. reflexivity. Qed.

(** One step through a computation: the frame rule that fits its head. *)
Ltac keeps_step :=
  lazymatch goal with
  | |- keeps_keys (ret _) => apply keeps_ret
  | |- keeps_keys (raise _) => apply keeps_raise
  | |- keeps_keys (lift _) => apply keeps_lift
  | |- keeps_keys (emit _) => apply keeps_emit
  | |- keeps_keys get_registry => apply keeps_get_registry
  | |- keeps_keys (draw _) => apply keeps_draw
  | |- keeps_keys (update_registry (add_customer_keys _ _ _)) =>
      apply keeps_update_registry, grows_add_customer_keys
  | |- keeps_keys (update_registry (add_restaurant_key _)) =>
      apply keeps_update_registry, grows_add_restaurant_key
  | |- keeps_keys (update_registry (add_menu_key _)) =>
      apply keeps_update_registry, grows_add_menu_key
  | |- keeps_keys (update_registry (add_agent_phone _)) =>
      apply keeps_update_registry, grows_add_agent_phone
  | |- keeps_keys (bind _ _) => apply keeps_bind; [| intros ?]
  | |- keeps_keys (match ?x with _ => _ end) => destruct x
  | |- keeps_keys (if ?x then _ else _) => destruct x
  | |- _ => assumption
  end.

Ltac keeps := repeat keeps_step.

Lemma keeps_validate_or_log payload m : keeps_keys (validate_or_log L payload m).
Proof. unfold validate_or_log. keeps. Qed.

Lemma keeps_choice {A} (l : list A) : keeps_keys (choice L l).
Proof. unfold choice. keeps. Qed.

Lemma keeps_randint a b : keeps_keys (randint L a b).
Proof. unfold randint. keeps. Qed.

Lemma keeps_random_below a b : keeps_keys (random_below L a b).
Proof. unfold random_below. keeps. Qed.

Lemma keeps_uniform_str2 a b : keeps_keys (uniform_str2 L a b).
Proof. unfold uniform_str2. keeps. Qed.

Lemma keeps_uniform_str1 a b : keeps_keys (uniform_str1 L a b).
Proof. unfold uniform_str1. keeps. Qed.

Lemma keeps_uniform a b : keeps_keys (uniform L a b).
Proof. unfold uniform. keeps. Qed.

Lemma keeps_uuid4_str : keeps_keys (uuid4_str L).
Proof. unfold uuid4_str. keeps. Qed.

Lemma keeps_now_iso : keeps_keys (now_iso L).
Proof. unfold now_iso. keeps. Qed.

Lemma keeps_fake table : keeps_keys (fake L table).
Proof. unfold fake. keeps. Qed.

Lemma keeps_random_digits k : keeps_keys (random_digits L k).
Proof. induction k as [| k IH]; cbn [random_digits]; keeps. Qed.

Lemma keeps_sample {A} (l : list A) k : keeps_keys (sample L l k).
Proof.
  revert l. induction k as [| k IH]; intros l; cbn [sample]; [keeps |].
  apply keeps_bind; [apply keeps_draw | intros n].
  destruct (l !! (n mod length l)); [| apply keeps_raise].
  apply keeps_bind; [apply IH | intros r; apply keeps_ret].
Qed.

Ltac keeps_lib :=
  repeat
    lazymatch goal with
    | |- keeps_keys (validate_or_log _ _ _) => apply keeps_validate_or_log
    | |- keeps_keys (choice _ _) => apply keeps_choice
    | |- keeps_keys (randint _ _ _) => apply keeps_randint
    | |- keeps_keys (random_below _ _ _) => apply keeps_random_below
    | |- keeps_keys (uniform_str2 _ _ _) => apply keeps_uniform_str2
    | |- keeps_keys (uniform_str1 _ _ _) => apply keeps_uniform_str1
    | |- keeps_keys (uniform _ _ _) => apply keeps_uniform
    | |- keeps_keys (uuid4_str _) => apply keeps_uuid4_str
    | |- keeps_keys (now_iso _) => apply keeps_now_iso
    | |- keeps_keys (fake _ _) => apply keeps_fake
    | |- keeps_keys (random_digits _ _) => apply keeps_random_digits
    | |- keeps_keys (sample _ _ _) => apply keeps_sample
    | |- _ => keeps_step
    end.

Lemma keeps_random_phone_india : keeps_keys (random_phone_india L).
Proof. unfold random_phone_india. keeps_lib. Qed.

Lemma keeps_make_customer_candidate cid : keeps_keys (make_customer_candidate L cid).
Proof. unfold make_customer_candidate. keeps_lib; apply keeps_random_phone_india. Qed.

Lemma keeps_for_attempts {A} n (body after : M (option A)) :
  keeps_keys body -> keeps_keys after -> keeps_keys (for_attempts n body after).
Proof.
  intros Hb Ha. induction n as [| n IH]; cbn [for_attempts]; [exact Ha |].
  apply keeps_bind; [exact Hb | intros [a |]; [apply keeps_ret | exact IH]].
Qed.

Lemma keeps_customer_attempt cid : keeps_keys (customer_attempt L cid).
Proof.
  unfold customer_attempt.
  apply keeps_bind; [apply keeps_make_customer_candidate | intros payload].
  keeps_lib.
Qed.

Lemma keeps_make_customer_unique cid : keeps_keys (make_customer_unique L cid).
Proof.
  apply keeps_for_attempts; [apply keeps_customer_attempt | keeps_lib].
Qed.

Lemma keeps_postcode_or_random {A} (of_postcode : string -> M A) (of_int : Z -> A) :
  (forall p, keeps_keys (of_postcode p)) -> keeps_keys (postcode_or_random L of_postcode of_int).
Proof. intros H. unfold postcode_or_random. keeps_lib. apply H. Qed.

Lemma keeps_make_address cid : keeps_keys (make_address L cid).
Proof.
  unfold make_address.
  do 13 (apply keeps_bind; [keeps_lib | intros ?]).
  apply keeps_bind; [apply keeps_postcode_or_random; intros p; keeps_lib | intros ?].
  keeps_lib.
Qed.

Lemma keeps_make_location : keeps_keys (make_location L).
Proof.
  unfold make_location.
  do 3 (apply keeps_bind; [keeps_lib | intros ?]).
  apply keeps_bind; [apply keeps_postcode_or_random; intros p; keeps_lib | intros ?].
  keeps_lib.
Qed.

Lemma keeps_make_delivery oid aid adr : keeps_keys (make_delivery L oid aid adr).
Proof. unfold make_delivery. keeps_lib. Qed.

Lemma keeps_make_loginaudit cid : keeps_keys (make_loginaudit L cid).
Proof. unfold make_loginaudit. keeps_lib. Qed.

Lemma keeps_make_restaurant_unique : keeps_keys (make_restaurant_unique L).
Proof.
  apply keeps_for_attempts; [unfold restaurant_attempt; keeps_lib | keeps_lib].
Qed.

Lemma keeps_make_menu_unique rid : keeps_keys (make_menu_unique L rid).
Proof.
  apply keeps_for_attempts; [unfold menu_attempt; keeps_lib | keeps_lib].
Qed.

Lemma keeps_make_deliveryagent_unique : keeps_keys (make_deliveryagent_unique L).
Proof.
  apply keeps_for_attempts; [| keeps_lib].
  unfold deliveryagent_attempt.
  apply keeps_bind; [apply keeps_random_phone_india | intros phone]. keeps_lib.
Qed.

Lemma keeps_order_items order_id chosen : keeps_keys (order_items L order_id chosen).
Proof.
  induction chosen as [| m rest IH]; cbn [order_items]; [keeps |].
  do 6 (apply keeps_bind; [keeps_lib | intros ?]).
  apply keeps_bind; [exact IH | intros ?; apply keeps_ret].
Qed.

Lemma keeps_make_order_with_items cid rid menus :
  keeps_keys (make_order_with_items L cid rid menus).
Proof.
  unfold make_order_with_items.
  apply keeps_bind; [keeps_lib | intros order_id].
  destruct menus as [| m0 menus]; [keeps |].
  apply keeps_bind; [keeps_lib | intros k].
  apply keeps_bind; [apply keeps_sample | intros chosen].
  apply keeps_bind; [apply keeps_order_items | intros items].
  destruct items; keeps_lib.
Qed.

Lemma keeps_customer_loop fuel n customers rows :
  keeps_keys (customer_loop L fuel n customers rows).
Proof.
  revert customers rows. induction fuel as [| fuel IH]; intros customers rows;
    cbn [customer_loop]; [keeps |].
  destruct (Z.of_nat (length customers) <? n)%Z; [| keeps].
  apply keeps_bind; [apply keeps_make_customer_unique | intros c].
  destruct (accepted c); apply IH.
Qed.

Lemma keeps_address_loop k cid addresses rows :
  keeps_keys (address_loop L k cid addresses rows).
Proof.
  revert addresses rows. induction k as [| k IH]; intros addresses rows;
    cbn [address_loop]; [keeps |].
  apply keeps_bind; [apply keeps_make_address | intros a].
  destruct (accepted a); apply IH.
Qed.

Lemma keeps_address_stage customers addresses rows :
  keeps_keys (address_stage L customers addresses rows).
Proof.
  revert addresses rows. induction customers as [| c rest IH]; intros addresses rows;
    cbn [address_stage]; [keeps |].
  apply keeps_bind; [keeps_lib | intros k].
  apply keeps_bind; [keeps_lib | intros cid].
  apply keeps_bind; [apply keeps_address_loop | intros [addresses' rows']].
  apply keeps_bind; [keeps_lib | intros login].
  apply keeps_bind; [| intros rows''; apply IH].
  destruct login; [| keeps].
  apply keeps_bind; [keeps_lib | intros cid'].
  apply keeps_bind; [apply keeps_make_loginaudit | intros la; keeps].
Qed.

Lemma keeps_pool_loop n factory pool rows :
  keeps_keys factory -> keeps_keys (pool_loop n factory pool rows).
Proof.
  intros Hf. revert pool rows. induction n as [| n IH]; intros pool rows;
    cbn [pool_loop]; [keeps |].
  apply keeps_bind; [exact Hf | intros r]. destruct (accepted r); apply IH.
Qed.

Lemma keeps_menu_loop k rid mlist rows : keeps_keys (menu_loop L k rid mlist rows).
Proof.
  revert mlist rows. induction k as [| k IH]; intros mlist rows; cbn [menu_loop]; [keeps |].
  apply keeps_bind; [apply keeps_make_menu_unique | intros m].
  destruct (accepted m); apply IH.
Qed.

Lemma keeps_menus_of_restaurant r rows : keeps_keys (menus_of_restaurant L r rows).
Proof.
  unfold menus_of_restaurant.
  apply keeps_bind; [keeps_lib | intros k].
  apply keeps_bind; [keeps_lib | intros rid].
  apply keeps_bind; [apply keeps_menu_loop | intros [mlist rows']].
  destruct mlist; keeps_lib.
Qed.

Lemma keeps_menu_stage restaurants menus rows :
  keeps_keys (menu_stage L restaurants menus rows).
Proof.
  revert menus rows. induction restaurants as [| r rest IH]; intros menus rows;
    cbn [menu_stage]; [keeps |].
  apply keeps_bind; [apply keeps_menus_of_restaurant | intros [mlist rows']].
  apply keeps_bind; [keeps_lib | intros rid]. apply IH.
Qed.

Lemma keeps_delivery_for cust order addresses agents rows :
  keeps_keys (delivery_for L cust order addresses agents rows).
Proof.
  unfold delivery_for.
  apply keeps_bind; [keeps_lib | intros wanted].
  destruct (wanted && _); [| keeps].
  apply keeps_bind; [keeps_lib | intros cust_addresses].
  apply keeps_bind; [destruct cust_addresses, addresses; keeps_lib | intros address_id].
  apply keeps_bind; [keeps_lib | intros agent].
  destruct (truthy address_id); [| keeps].
  apply keeps_bind; [keeps_lib | intros oid].
  apply keeps_bind; [keeps_lib | intros aid].
  apply keeps_bind; [apply keeps_make_delivery | intros d; keeps].
Qed.

Lemma keeps_order_loop fuel n customers restaurants menus addresses agents rows :
  keeps_keys (order_loop L fuel n customers restaurants menus addresses agents rows).
Proof.
  revert rows. induction fuel as [| fuel IH]; intros rows; cbn [order_loop]; [keeps |].
  destruct (Z.of_nat (length rows) <? n)%Z; [| keeps].
  do 5 (apply keeps_bind; [keeps_lib | intros ?]).
  apply keeps_bind; [apply keeps_make_order_with_items | intros [order_valid items]].
  apply keeps_bind; [| intros rows'; apply IH].
  destruct (accepted order_valid); [apply keeps_delivery_for | keeps].
Qed.

Lemma keeps_assemble n : keeps_keys (assemble L n).
Proof.
  unfold assemble.
  apply keeps_bind; [apply keeps_customer_loop | intros [customers rows1]].
  apply keeps_bind; [apply keeps_address_stage | intros [addresses rows2]].
  apply keeps_bind;
    [apply keeps_pool_loop, keeps_make_restaurant_unique | intros [restaurants rows3]].
  apply keeps_bind; [apply keeps_menu_stage | intros [menus rows4]].
  apply keeps_bind;
    [apply keeps_pool_loop, keeps_make_deliveryagent_unique | intros [agents rows5]].
  apply keeps_order_loop.
Qed.

(** Nothing in the program removes a key from the registry: whether they
    return a record, the null result or raise, the factories, the other
    generators, the validation helper and the batch builder leave every
    key of the six sets registered. Keys therefore stay taken from one
    batch to the next of [main]'s loop. *)
Theorem registry_only_grows (n : Z) (w : World) :
  registry_grows (registry w) (registry (snd (build_batch L n w))) /\
  (forall cid, registry_grows (registry w) (registry (snd (make_customer_unique L cid w)))) /\
  registry_grows (registry w) (registry (snd (make_restaurant_unique L w))) /\
  (forall rid, registry_grows (registry w) (registry (snd (make_menu_unique L rid w)))) /\
  registry_grows (registry w) (registry (snd (make_deliveryagent_unique L w))) /\
  (forall cid rid menus,
     registry_grows (registry w) (registry (snd (make_order_with_items L cid rid menus w)))) /\
  (forall payload m,
     registry_grows (registry w) (registry (snd (validate_or_log L payload m w)))).
Proof.
  split; [| split; [| split; [| split; [| split; [| split]]]]].
  - assert (keeps_keys (build_batch L n)) as H; [| apply H].
    unfold build_batch. apply keeps_bind; [apply keeps_assemble | intros rows; apply keeps_ret].
  - intros cid. apply keeps_make_customer_unique.
  - apply keeps_make_restaurant_unique.
  - intros rid. apply keeps_make_menu_unique.
  - apply keeps_make_deliveryagent_unique.
  - intros cid rid menus. apply keeps_make_order_with_items.
  - intros payload m. apply keeps_validate_or_log.
Qed.

End WithLib.
End KeptKeys.

Section Endings.

Lemma ends_ret {A} (a : A) (Q : A -> World -> Prop) E w : Q a w -> ends (ret a) Q E w.
Proof. intros H. exact H. Qed.

Lemma ends_raise {A} (e : exn) (Q : A -> World -> Prop) (E : exn -> Prop) w :
  E e -> ends (raise e) Q E w.
Proof. intros H. exact H. Qed.

Lemma ends_lift {A} (r : res A) (Q : A -> World -> Prop) (E : exn -> Prop) w :
  match r with Ok a => Q a w | Raise e => E e end -> ends (lift r) Q E w.
Proof. unfold ends, lift. destruct r; intros H; exact H. Qed.

Lemma ends_bind {A B} (m : M A) (k : A -> M B) (Q : B -> World -> Prop) E w :
  ends m (fun a w1 => ends (k a) Q E w1) E w -> ends (bind m k) Q E w.
Proof.
  unfold ends, bind. destruct (m w) as [[a | e] w1]; intros H; exact H.
Qed.

Lemma ends_mono {A} (m : M A) (Q Q' : A -> World -> Prop) (E E' : exn -> Prop) w :
  ends m Q E w -> (forall a w', Q a w' -> Q' a w') -> (forall e, E e -> E' e) ->
  ends m Q' E' w.
Proof.
  unfold ends. destruct (m w) as [[a | e] w1]; intros H HQ HE; [apply HQ, H | apply HE, H].
Qed.

Lemma ends_returns {A} (m : M A) (Q : A -> World -> Prop) E w :
  returns m Q w -> ends m Q E w.
Proof.
  unfold ends, returns. destruct (m w) as [[a | e] w1]; intros H; [exact H | destruct H].
Qed.

Lemma returns_ends {A} (m : M A) (Q : A -> World -> Prop) w :
  ends m Q (fun _ => False) w -> returns m Q w.
Proof. intros H. exact H. Qed.

End Endings.

Section Addresses.
Local Open Scope nat_scope.
Local Open Scope string_scope.

Lemma validate_coordinates_cases (L : Lib) s :
  (exists msg, validate_coordinates L (VStr s) = Raise (ValueError msg))
  \/ validate_coordinates L (VStr s) = Ok (VStr s).
Proof.
  unfold validate_coordinates. destruct (is_empty s); [right; reflexivity |].
  destruct (split_char "," s) as [| a [| b [| c l]]]; try (left; eauto; fail).
  destruct (py_float_within L (-90) 90 a) as [lat |]; [| left; eauto].
  destruct (py_float_within L (-180) 180 b) as [lon |]; [| left; eauto].
  destruct (lat && lon); [right; reflexivity | left; eauto].
Qed.

Lemma validate_pincode_cases z :
  (exists msg, validate_pincode (VInt z) = Raise (ValueError msg))
  \/ validate_pincode (VInt z) = Ok (VInt z).
Proof.
  unfold validate_pincode.
  destruct (negb (z =? 0)%Z && ((z <? 100000)%Z || (999999 <? z)%Z)); [left; eauto | right; reflexivity].
Qed.

(** The payload of [make_address] never validates: [floor] is an [int],
    and the field is declared [Optional[str]]. *)
Lemma validate_address_payload (L : Lib) address_id customer_id flatno houseno floor
    building landmark coordinates primaryflag address_type locality city state pincode
    created w :
  int_prints floor = true -> int_prints pincode = true ->
  returns
    (validate_or_log L
       [ ("type", VStr "customeraddressbook");
         ("address_id", VStr address_id);
         ("customer_id", VStr customer_id);
         ("flatno", VStr flatno);
         ("houseno", VStr houseno);
         ("floor", VInt floor);
         ("building", VStr building);
         ("landmark", VStr landmark);
         ("coordinates", VStr coordinates);
         ("primaryflag", VStr primaryflag);
         ("address_type", VStr address_type);
         ("locality", VStr locality);
         ("city", VStr city);
         ("state", VStr state);
         ("pincode", VInt pincode);
         ("created_date", VStr created) ]
       (AddressModel L))
    (fun r w' =>
       r = None /\ registry w' = registry w /\
       exists errors,
         output w' = ValidationFailed "AddressModel" (VStr address_id) errors :: output w
         /\ "floor" ∈ map fst errors) w.
Proof.
  intros Hfloor Hpin.
  eapply validate_or_log_cases;
    [repeat constructor; assumption | apply address_fields_print | reflexivity |].
  unfold model_validate, AddressModel.
  cbn -[validate_coordinates validate_pincode validate_iso].
  destruct (validate_coordinates_cases L coordinates) as [[m1 ->] | ->];
    destruct (validate_pincode_cases pincode) as [[m2 ->] | ->];
    destruct (validate_iso_cases L created) as [-> | ->];
    cbn; (split; [reflexivity |]; split; [reflexivity |]; eexists; split; [reflexivity |]);
    cbn; set_solver.
Qed.

Section WithLib.
Context (L : Lib).

Lemma ends_pincode w :
  ends
    (postcode_or_random L (fun p => bind (lift (py_int (VStr p))) (fun z => ret (VInt z))) VInt)
    (fun v w' => (exists z, v = VInt z /\ int_prints z = true) /\ entropy_only w w')
    int_error w.
Proof.
  unfold postcode_or_random.
  apply ends_bind, ends_returns, returns_fake. intros n1 w1 H1.
  apply ends_bind.
  apply (ends_mono _ (fun (_ : bool) w2 => entropy_only w w2) _ (fun _ => False));
    [| | intros e []].
  { destruct (isdigit (fake_postcode L n1)).
    - apply ends_bind, ends_returns, returns_fake. intros n2 w2 H2.
      apply ends_ret. eapply entropy_only_trans; eassumption.
    - apply ends_ret. exact H1. }
  intros six w2 H2. destruct six.
  - apply ends_bind, ends_returns, returns_fake. intros n3 w3 H3.
    apply ends_bind, ends_lift. cbn [py_int].
    destruct (int_of_string (fake_postcode L n3)) as [z | e] eqn:Ez;
      [| exact (int_of_string_raises _ _ Ez)].
    apply ends_ret. split; [| eapply entropy_only_trans; eassumption].
    exists z. split; [reflexivity | exact (int_of_string_prints _ _ Ez)].
  - apply ends_bind, ends_returns, returns_randint; [lia |]. intros k w3 Hk H3.
    apply ends_ret. split; [| eapply entropy_only_trans; eassumption].
    exists k. split; [reflexivity | apply int_prints_range; lia].
Qed.

(** What every call of [make_address] for a customer comes to. *)
Lemma make_address_spec (customer_id : string) (w : World) :
  ends (make_address L (VStr customer_id))
    (fun r w' =>
       r = None /\ registry w' = registry w /\
       exists address_id errors,
         output w' = ValidationFailed "AddressModel" (VStr address_id) errors :: output w
         /\ "floor" ∈ map fst errors)
    int_error w.
Proof.
  unfold make_address.
  apply ends_bind, ends_returns, returns_uuid4. intros address_id w1 [R1 O1].
  apply ends_bind, ends_returns, returns_randint; [lia |]. intros flatno w2 _ [R2 O2].
  apply ends_bind, ends_returns, returns_randint; [lia |]. intros houseno w3 _ [R3 O3].
  apply ends_bind, ends_returns, returns_randint; [lia |]. intros floor w4 Hfloor [R4 O4].
  apply ends_bind, ends_returns, returns_fake. intros building w5 [R5 O5].
  apply ends_bind, ends_returns, returns_fake. intros landmark w6 [R6 O6].
  apply ends_bind, ends_returns, returns_fake. intros lat w7 [R7 O7].
  apply ends_bind, ends_returns, returns_fake. intros lon w8 [R8 O8].
  apply ends_bind, ends_returns, returns_choice; [discriminate |]. intros flag w9 _ [R9 O9].
  apply ends_bind, ends_returns, returns_choice; [discriminate |]. intros kind w10 _ [R10 O10].
  apply ends_bind, ends_returns, returns_fake. intros locality w11 [R11 O11].
  apply ends_bind, ends_returns, returns_fake. intros city w12 [R12 O12].
  apply ends_bind, ends_returns, returns_fake. intros state w13 [R13 O13].
  apply ends_bind.
  eapply ends_mono; [apply ends_pincode | | intros e He; exact He].
  intros pincode w14 [(z & -> & Hz) [R14 O14]]. cbn beta.
  apply ends_bind, ends_returns, returns_now_iso. intros created w15 [R15 O15].
  apply ends_returns.
  eapply returns_mono;
    [apply validate_address_payload; [apply int_prints_range; lia | exact Hz] |].
  intros r w16 (-> & R16 & errors & O16 & Hfl). cbn beta.
  split; [reflexivity |].
  split; [congruence |].
  exists address_id, errors. split; [| exact Hfl]. congruence.
Qed.

(** [make_address] never returns an address. Its payload carries [floor]
    as an [int] where [AddressModel] declares [Optional[str]], and a [str]
    field takes no number; so every call for a customer, whose identifier
    is a [str], ends with the null result after one diagnostic that names
    [floor] (the registry untouched), unless [int] refuses the postcode it
    converts, which raises one of the two ValueErrors of [int]. *)
Theorem make_address_never_returns_a_record (customer_id : string) (w : World) :
  ends (make_address L (VStr customer_id))
    (fun r w' =>
       r = None /\ registry w' = registry w /\
       exists address_id errors,
         output w' = ValidationFailed "AddressModel" (VStr address_id) errors :: output w
         /\ "floor" ∈ map fst errors)
    int_error w.
Proof. exact (make_address_spec customer_id w). Qed.

End WithLib.
End Addresses.

Section Contract.
Local Open Scope nat_scope.
Local Open Scope string_scope.
Local Open Scope list_scope.
Context (L : Lib).

Lemma validate_fields_valid fs p acc errs d :
  validate_fields L fs p acc errs = Valid d ->
  errs = [] /\ exists more, d = rev acc ++ more /\ map fst more = map fname fs.
Proof.
  revert acc errs. induction fs as [| f fs IH]; intros acc errs; cbn [validate_fields].
  - destruct errs; [| discriminate]. intros [= <-]. split; [reflexivity |].
    exists []. split; [symmetry; apply app_nil_r | reflexivity].
  - destruct (validate_field L f p) as [v | msg | e]; [| | discriminate].
    + intros H. apply IH in H as (-> & more & -> & Hm). split; [reflexivity |].
      exists ((fname f, v) :: more). cbn [rev map fst]. rewrite <- app_assoc.
      split; [reflexivity | f_equal; exact Hm].
    + intros H. apply IH in H as (H & _). discriminate H.
Qed.

Lemma validate_fields_invalid fs p acc errs errors :
  validate_fields L fs p acc errs = Invalid errors -> errors <> [].
Proof.
  revert acc errs. induction fs as [| f fs IH]; intros acc errs; cbn [validate_fields].
  - destruct errs as [| e errs]; [discriminate |]. intros [= <-].
    cbn [rev]. intros H. apply app_eq_nil in H as [_ H]. discriminate H.
  - destruct (validate_field L f p) as [v | msg | e]; [apply IH | apply IH | discriminate].
Qed.

Lemma model_validate_valid (m : model) p d :
  model_validate L m p = Valid d -> validate_fields L (mfields m) p [] [] = Valid d.
Proof.
  unfold model_validate. destruct (validate_fields L (mfields m) p [] []) as [d' | |];
    [| discriminate | discriminate].
  destruct (mafter m) as [g |]; [| exact id].
  destruct (g d') as [u | [] ]; try discriminate. exact id.
Qed.

Lemma model_validate_invalid (m : model) p errors :
  model_validate L m p = Invalid errors -> errors <> [].
Proof.
  unfold model_validate.
  destruct (validate_fields L (mfields m) p [] []) as [d' | errs |] eqn:E; [| | discriminate].
  - destruct (mafter m) as [g |]; [| discriminate].
    destruct (g d') as [u | [] ]; try discriminate. intros [= <-]. discriminate.
  - intros [= <-]. exact (validate_fields_invalid _ _ _ _ _ E).
Qed.

Lemma model_validate_keys (m : model) p d :
  model_validate L m p = Valid d -> dict_keys d = map fname (mfields m).
Proof.
  intros H. apply model_validate_valid, validate_fields_valid in H as (_ & more & -> & Hm).
  exact Hm.
Qed.

Lemma dump_keys d : dict_keys (dump d) = dict_keys d.
Proof.
  unfold dict_keys, dump. rewrite map_map. apply map_ext.
  intros [k v]. destruct v; reflexivity.
Qed.

Lemma dump_no_decimal d : Forall (fun kv => is_decimal kv.2 = false) (dump d).
Proof.
  unfold dump. apply Forall_map, Forall_forall. intros [k v] _. destruct v; reflexivity.
Qed.

(** The contract of [validate_or_log], for every payload and model class.
    A returned record has exactly the fields the model declares, in the
    order of their declaration (whatever other keys the payload had), none
    of them a Decimal, and nothing was printed. The null result comes with
    exactly one diagnostic, which names the model class and lists at least
    one error. An exception leaves the state as it was. In no case is a
    key registered or entropy consumed. *)
Theorem validate_or_log_contract (payload : pydict) (m : model) (w : World) :
  match validate_or_log L payload m w with
  | (Ok (Some d), w') =>
      w' = w /\ dict_keys d = map fname (mfields m) /\
      Forall (fun kv => is_decimal kv.2 = false) d
  | (Ok None, w') =>
      tick w' = tick w /\ registry w' = registry w /\
      exists ident errors,
        output w' = ValidationFailed (mname m) ident errors :: output w /\
        (0 < length errors)
  | (Raise e, w') => w' = w
  end.
Proof.
  unfold validate_or_log. destruct (model_validate L m payload) as [d | errors | e] eqn:E.
  - cbn [ret]. split; [reflexivity |]. split; [| apply dump_no_decimal].
    rewrite dump_keys. exact (model_validate_keys m payload d E).
  - destruct (dict_keys payload !! 1) as [k |]; [| reflexivity].
    destruct (prints _ && forallb prints _); [| reflexivity].
    cbn. split; [reflexivity |]. split; [reflexivity |].
    eexists _, errors. split; [reflexivity |].
    apply model_validate_invalid in E. destruct errors; [congruence | cbn; lia].
  - reflexivity.
Qed.

End Contract.

Section Deliveries.
Local Open Scope nat_scope.
Local Open Scope string_scope.
Local Open Scope list_scope.
Context (L : Lib).

#[local] Arguments coerce L !t !v : simpl nomatch.

Lemma coerce_str v : coerce L TStr v = if is_str v then Some v else None.
Proof. destruct v; reflexivity. Qed.

Lemma is_str_true v : is_str v = true -> exists s, v = VStr s.
Proof. destruct v; try discriminate. eauto. Qed.

Lemma validate_iso_parses s :
  validate_iso L (VStr s) = if iso_parses L s then Ok (VStr s) else Raise (iso_error).
Proof. reflexivity. Qed.

(** *** Draws, with their place in the stream *)

Lemma drew_trans j k w1 w2 w3 : drew j w1 w2 -> drew k w2 w3 -> drew (j + k) w1 w3.
Proof. intros [T1 R1] [T2 R2]. unfold drew. split; [lia | congruence]. Qed.

Lemma returns_draw_at (Q : nat -> World -> Prop) w :
  (forall w', drew 1 w w' -> Q (rnd L (tick w)) w') -> returns (draw L) Q w.
Proof. intros H. apply H. unfold drew. cbn. split; [lia | reflexivity]. Qed.

Lemma returns_uuid4_at (Q : string -> World -> Prop) w :
  (forall w', drew 1 w w' -> Q (uuid4 L (rnd L (tick w))) w') -> returns (uuid4_str L) Q w.
Proof.
  intros H. unfold uuid4_str. apply returns_bind, returns_draw_at.
  intros w' Hw. apply returns_ret, H, Hw.
Qed.

Lemma returns_now_iso_at (Q : string -> World -> Prop) w :
  (forall w', drew 1 w w' -> Q (now_iso_at L (rnd L (tick w))) w') ->
  returns (now_iso L) Q w.
Proof.
  intros H. unfold now_iso. apply returns_bind, returns_draw_at.
  intros w' Hw. apply returns_ret, H, Hw.
Qed.

Lemma returns_choice_at {A} (l : list A) (Q : A -> World -> Prop) w :
  l <> [] ->
  (forall x w', x ∈ l -> drew 1 w w' -> Q x w') ->
  returns (choice L l) Q w.
Proof.
  intros Hl H. unfold choice. apply returns_bind, returns_draw_at.
  intros w' Hw.
  assert (rnd L (tick w) mod length l < length l)%nat as Hlt.
  { apply Nat.mod_upper_bound. destruct l; [congruence | cbn; lia]. }
  destruct (lookup_lt_is_Some_2 l _ Hlt) as [x Hx]. rewrite Hx.
  apply returns_ret, H; [| exact Hw].
  apply list_elem_of_lookup. eauto.
Qed.

Lemma returns_randint_at (a b : Z) (Q : Z -> World -> Prop) w :
  (a <= b)%Z ->
  (forall z w', (a <= z <= b)%Z -> drew 1 w w' -> Q z w') ->
  returns (randint L a b) Q w.
Proof.
  intros Hab H. unfold randint. apply returns_bind, returns_draw_at.
  intros w' Hw. apply returns_ret, H; [| exact Hw].
  pose proof (Z.mod_pos_bound (Z.of_nat (rnd L (tick w))) (b - a + 1) ltac:(lia)). lia.
Qed.

(** *** Deliveries *)

(** The payload of [make_delivery] validates exactly when the three
    identifiers are of type [str] and both timestamps parse, and then as
    it is. *)
Lemma model_validate_delivery delivery_id oid aid status minutes adr dd created :
  if is_str oid && is_str aid && is_str adr && iso_parses L dd && iso_parses L created
  then model_validate L (DeliveryModel L)
         (delivery_payload delivery_id oid aid status minutes adr dd created)
       = Valid (delivery_payload delivery_id oid aid status minutes adr dd created)
  else exists errors,
         model_validate L (DeliveryModel L)
           (delivery_payload delivery_id oid aid status minutes adr dd created)
         = Invalid errors.
Proof.
  unfold model_validate, DeliveryModel, delivery_payload.
  generalize ("00:" +:+ str_int minutes +:+ ":00"). intros eta.
  cbn -[validate_iso]. rewrite !coerce_str, !validate_iso_parses.
  destruct (is_str oid) eqn:Eo; [apply is_str_true in Eo as [o ->] |];
    (destruct (is_str aid) eqn:Ea; [apply is_str_true in Ea as [a ->] |]);
    (destruct (is_str adr) eqn:Ed; [apply is_str_true in Ed as [d ->] |]);
    cbn [is_str andb];
    destruct (iso_parses L dd), (iso_parses L created); cbn; eauto.
Qed.

(** With identifiers of type [str], validating the payload never raises. *)
Lemma validate_delivery_payload delivery_id oid aid status minutes adr dd created w :
  returns
    (validate_or_log L
       (delivery_payload delivery_id (VStr oid) (VStr aid) status minutes (VStr adr)
          dd created)
       (DeliveryModel L))
    (fun r w' =>
       drew 0 w w' /\
       r = if iso_parses L dd && iso_parses L created
           then Some (delivery_payload delivery_id (VStr oid) (VStr aid) status minutes
                        (VStr adr) dd created)
           else None) w.
Proof.
  eapply validate_or_log_cases;
    [repeat constructor | apply delivery_fields_print | reflexivity |].
  pose proof (model_validate_delivery delivery_id (VStr oid) (VStr aid) status minutes
                (VStr adr) dd created) as H.
  cbn [is_str andb] in H.
  destruct (iso_parses L dd && iso_parses L created).
  - rewrite H. split; [| reflexivity]. unfold drew. split; [lia | reflexivity].
  - destruct H as [errors ->]. split; [| reflexivity]. unfold drew, refused.
    cbn [tick registry]. split; [lia | reflexivity].
Qed.

(** With any identifiers, a record that comes back is the payload. *)
Lemma validate_delivery_any delivery_id oid aid status minutes adr dd created w :
  ends
    (validate_or_log L (delivery_payload delivery_id oid aid status minutes adr dd created)
       (DeliveryModel L))
    (fun r _ =>
       r = Some (delivery_payload delivery_id oid aid status minutes adr dd created)
       \/ r = None)
    (fun _ => True) w.
Proof.
  pose proof (model_validate_delivery delivery_id oid aid status minutes adr dd created)
    as H.
  unfold ends, validate_or_log.
  destruct (is_str oid && is_str aid && is_str adr && iso_parses L dd
            && iso_parses L created) eqn:E.
  - rewrite H. cbn [ret]. left.
    apply andb_prop in E as [E _]. apply andb_prop in E as [E _].
    apply andb_prop in E as [E Hd]. apply andb_prop in E as [Ho Ha].
    apply is_str_true in Ho as [o ->]. apply is_str_true in Ha as [a ->].
    apply is_str_true in Hd as [d ->]. reflexivity.
  - destruct H as [errors ->].
    destruct (dict_keys _ !! 1); [| exact I].
    destruct (prints _ && forallb prints _); [right; reflexivity | exact I].
Qed.

(** What [make_delivery] returns for identifiers of type [str]: the
    payload, made of the first five draws of the call, when the two
    timestamps among them parse. *)
Lemma make_delivery_spec (oid aid adr : string) (w : World) :
  returns (make_delivery L (VStr oid) (VStr aid) (VStr adr))
    (fun r w' =>
       drew 5 w w' /\
       exists status minutes,
         status ∈ ["assigned"; "picked_up"; "delivered"]
         /\ (10 <= minutes <= 40)%Z
         /\ r = if iso_parses L (now_iso_at L (rnd L (tick w + 3)))
                   && iso_parses L (now_iso_at L (rnd L (tick w + 4)))
                then Some (delivery_payload (uuid4 L (rnd L (tick w))) (VStr oid)
                             (VStr aid) status minutes (VStr adr)
                             (now_iso_at L (rnd L (tick w + 3)))
                             (now_iso_at L (rnd L (tick w + 4))))
                else None) w.
Proof.
  unfold make_delivery.
  apply returns_bind, returns_uuid4_at. intros w1 H1.
  apply returns_bind, returns_choice_at; [discriminate |]. intros status w2 Hs H2.
  apply returns_bind, returns_randint_at; [lia |]. intros minutes w3 Hm H3.
  apply returns_bind, returns_now_iso_at. intros w4 H4.
  apply returns_bind, returns_now_iso_at. intros w5 H5.
  eapply returns_mono; [apply validate_delivery_payload |].
  intros r w6 [H6 ->]. cbn beta.
  pose proof (drew_trans _ _ _ _ _ H1 H2) as D2.
  pose proof (drew_trans _ _ _ _ _ D2 H3) as D3.
  pose proof (drew_trans _ _ _ _ _ D3 H4) as D4.
  pose proof (drew_trans _ _ _ _ _ D4 H5) as D5.
  pose proof (drew_trans _ _ _ _ _ D5 H6) as D6.
  split; [exact D6 |].
  exists status, minutes. split; [exact Hs |]. split; [exact Hm |].
  destruct D3 as [-> _]. destruct D4 as [-> _]. reflexivity.
Qed.

(** [make_delivery] as [build_batch] calls it, with the identifiers of an
    order, an agent and an address, which are of type [str]: it never
    raises and never touches the registry or the output but for the
    diagnostic. It draws five values; the record is the payload made of
    them, with the identifiers as given, a status out of three and an
    estimated time of 10 to 40 minutes, and it is returned exactly when
    the two timestamps of the payload, the fourth and the fifth draw,
    parse; otherwise the result is null. *)
Theorem make_delivery_returns_its_payload (oid aid adr : string) (w : World) :
  returns (make_delivery L (VStr oid) (VStr aid) (VStr adr))
    (fun r w' =>
       tick w' = tick w + 5 /\ registry w' = registry w /\
       exists status minutes,
         status ∈ ["assigned"; "picked_up"; "delivered"]
         /\ (10 <= minutes <= 40)%Z
         /\ r = if iso_parses L (now_iso_at L (rnd L (tick w + 3)))
                   && iso_parses L (now_iso_at L (rnd L (tick w + 4)))
                then Some (delivery_payload (uuid4 L (rnd L (tick w))) (VStr oid)
                             (VStr aid) status minutes (VStr adr)
                             (now_iso_at L (rnd L (tick w + 3)))
                             (now_iso_at L (rnd L (tick w + 4))))
                else None) w.
Proof.
  eapply returns_mono; [apply (make_delivery_spec oid aid adr w) |].
  intros r w' [[T R] H]. auto.
Qed.

(** With any identifiers, a record that [make_delivery] returns is its
    payload. *)
Lemma make_delivery_any (oid aid adr : pyval) (w : World) :
  ends (make_delivery L oid aid adr)
    (fun r _ =>
       match r with
       | Some d =>
           exists delivery_id status minutes dd created,
             d = delivery_payload delivery_id oid aid status minutes adr dd created
       | None => True
       end)
    (fun _ => True) w.
Proof.
  unfold make_delivery.
  apply ends_bind, ends_returns, returns_uuid4. intros delivery_id w1 _.
  apply ends_bind, ends_returns, returns_choice; [discriminate |]. intros status w2 _ _.
  apply ends_bind, ends_returns, returns_randint; [lia |]. intros minutes w3 _ _.
  apply ends_bind, ends_returns, returns_now_iso. intros n1 w4 _.
  apply ends_bind, ends_returns, returns_now_iso. intros n2 w5 _.
  eapply ends_mono;
    [apply (validate_delivery_any delivery_id oid aid status minutes adr
              (now_iso_at L n1) (now_iso_at L n2) w5) | | auto].
  intros r w6 [-> | ->]; [| exact I]. eauto 6.
Qed.

Lemma addresses_of_sublist cust addresses l :
  addresses_of cust addresses = Ok l -> l ⊆ addresses.
Proof.
  revert l. induction addresses as [| a rest IH]; intros l; cbn [addresses_of].
  - intros [= <-] x Hx. exact Hx.
  - destruct (dict_item "customer_id" a) as [x |]; [| discriminate]. cbn [res_bind].
    destruct (dict_item "customer_id" cust) as [y |]; [| discriminate]. cbn [res_bind].
    destruct (addresses_of cust rest) as [more |]; [| discriminate]. cbn [res_bind].
    specialize (IH more eq_refl). destruct (py_eq x y); intros [= <-] z Hz.
    + apply elem_of_cons in Hz as [-> | Hz]; [left | right; apply IH, Hz].
    + right. apply IH, Hz.
Qed.

Lemma dict_item_get k d v : dict_item k d = Ok v -> dict_get k d = Some v.
Proof. unfold dict_item. destruct (dict_get k d); congruence. Qed.

(** What the optional delivery step appends. *)
Lemma delivery_for_spec (cust order_valid : pydict)
    (addresses agents rows : list pydict) (w : World) :
  ends (delivery_for L cust order_valid addresses agents rows)
    (fun rows' w' =>
       rows' = rows \/
       exists d a g,
         rows' = rows ++ [d] /\ a ∈ addresses /\ g ∈ agents /\
         dict_get "type" d = Some (VStr "delivery") /\
         dict_get "address_id" d = dict_get "address_id" a /\
         dict_get "deliveryagent_id" d = dict_get "deliveryagent_id" g /\
         dict_get "order_id" d = dict_get "order_id" order_valid)
    (fun e => addresses <> [] /\ agents <> []) w.
Proof.
  unfold delivery_for.
  apply ends_bind, ends_returns. unfold random_below.
  apply returns_bind, returns_draw. intros n w1 _. apply returns_ret.
  destruct agents as [| g0 agents'].
  { rewrite andb_false_r. apply ends_ret. left. reflexivity. }
  set (agents := g0 :: agents').
  destruct (n mod 10 <? 6)%nat; cbn [andb]; [| apply ends_ret; left; reflexivity].
  destruct addresses as [| a0 addresses'].
  { cbn [addresses_of lift]. apply ends_bind, ends_ret.
    apply ends_bind, ends_ret.
    apply ends_bind, ends_returns, returns_choice; [discriminate |]. intros g w2 _ _.
    cbn [truthy]. apply ends_ret. left. reflexivity. }
  set (addresses := a0 :: addresses').
  assert (addresses <> [] /\ agents <> []) as Hne by (split; discriminate).
  apply ends_bind, ends_lift.
  destruct (addresses_of cust addresses) as [cust_addresses |] eqn:Eof; [| exact Hne].
  apply addresses_of_sublist in Eof.
  apply ends_bind.
  apply (ends_mono _ (fun v _ => exists a, a ∈ addresses /\ dict_get "address_id" a = Some v)
           _ (fun _ => addresses <> [] /\ agents <> [])); [| | auto].
  { destruct cust_addresses as [| c0 cs].
    - apply ends_bind, ends_returns, returns_choice; [discriminate |]. intros a w2 Ha _.
      apply ends_lift. destruct (dict_item "address_id" a) as [v |] eqn:Ev; [| exact Hne].
      exists a. split; [exact Ha | apply dict_item_get, Ev].
    - apply ends_bind, ends_returns, returns_choice; [discriminate |]. intros a w2 Ha _.
      apply ends_lift. destruct (dict_item "address_id" a) as [v |] eqn:Ev; [| exact Hne].
      exists a. split; [apply Eof, Ha | apply dict_item_get, Ev]. }
  intros address_id w2 (a & Ha & Haid). cbn beta.
  apply ends_bind, ends_returns, returns_choice; [discriminate |]. intros g w3 Hg _.
  destruct (truthy address_id); [| apply ends_ret; left; reflexivity].
  apply ends_bind, ends_lift.
  destruct (dict_item "order_id" order_valid) as [oid |] eqn:Eoid; [| exact Hne].
  apply ends_bind, ends_lift.
  destruct (dict_item "deliveryagent_id" g) as [gid |] eqn:Egid; [| exact Hne].
  apply ends_bind.
  eapply ends_mono; [apply make_delivery_any | | intros e _; exact Hne].
  intros r w4 Hr. cbn beta. apply ends_ret.
  destruct r as [d |]; [| left; reflexivity].
  destruct Hr as (delivery_id & status & minutes & n1 & n2 & ->).
  cbn [accepted delivery_payload]. right.
  eexists _, a, g. split; [reflexivity |]. split; [exact Ha |]. split; [exact Hg |].
  cbn [dict_get String.eqb Ascii.eqb Bool.eqb].
  rewrite Haid, (dict_item_get _ _ _ Eoid), (dict_item_get _ _ _ Egid). auto.
Qed.

(** The optional delivery of an order. Whenever [delivery_for] returns, it
    has appended nothing or a single delivery record; the record's
    [address_id] is that of one of the addresses of the batch, its
    [deliveryagent_id] that of one of the agents, and its [order_id] that
    of the order. Without addresses, or without agents, it returns the
    rows as they were and raises nothing. *)
Theorem delivery_refers_to_batch_records (cust order_valid : pydict)
    (addresses agents rows : list pydict) (w : World) :
  ends (delivery_for L cust order_valid addresses agents rows)
    (fun rows' w' =>
       rows' = rows \/
       exists d a g,
         rows' = rows ++ [d] /\ a ∈ addresses /\ g ∈ agents /\
         dict_get "type" d = Some (VStr "delivery") /\
         dict_get "address_id" d = dict_get "address_id" a /\
         dict_get "deliveryagent_id" d = dict_get "deliveryagent_id" g /\
         dict_get "order_id" d = dict_get "order_id" order_valid)
    (fun e => addresses <> [] /\ agents <> []) w.
Proof. exact (delivery_for_spec cust order_valid addresses agents rows w). Qed.

End Deliveries.

Section Menus.
Local Open Scope nat_scope.
Local Open Scope string_scope.
Local Open Scope list_scope.
Context (L : Lib).

Lemma accepted_record (r : pydict) : r <> [] -> accepted (Some r) = Some r.
Proof. destruct r; [congruence | reflexivity]. Qed.

Lemma menu_record_accepted rid m : menu_record rid m -> accepted (Some m) = Some m.
Proof. intros (? & ? & ? & ? & ? & ? & -> & _). reflexivity. Qed.

Lemma menu_key_grows R R' k :
  registry_grows R R' -> k ∈ existing_menu_keys R -> k ∈ existing_menu_keys R'.
Proof. intros (_ & _ & _ & _ & _ & H) Hk. apply H, Hk. Qed.

(** The inner loop of the menu stage: it never raises, and appends to the
    menu list and to the rows the same records, at most one for each of
    its [k] passes, each one a menu item of the restaurant whose key is
    registered. *)
Lemma menu_loop_spec k rid mlist rows w :
  returns (menu_loop L k rid mlist rows)
    (fun '(mlist', rows') w' =>
       registry_grows (registry w) (registry w') /\
       exists new,
         mlist' = mlist ++ new /\ rows' = rows ++ new /\ length new <= k /\
         Forall (menu_record rid) new /\
         Forall (fun m => menu_key m ∈ existing_menu_keys (registry w')) new) w.
Proof.
  revert mlist rows w. induction k as [| k IH]; intros mlist rows w; cbn [menu_loop].
  - apply returns_ret. split; [apply registry_grows_refl |].
    exists []. rewrite !app_nil_r. repeat split; auto.
  - apply returns_bind.
    eapply returns_mono; [apply make_menu_unique_spec |].
    intros [m |] w1 Hm; cbn beta.
    + destruct Hm as [Hrec [Hfresh HR]]. rewrite (menu_record_accepted rid m Hrec).
      eapply returns_mono; [apply IH |].
      intros [mlist' rows'] w2 (Hgrow & new & -> & -> & Hlen & Hall & Hkeys).
      assert (registry_grows (registry w) (registry w1)) as Hg1.
      { rewrite HR. apply grows_add_menu_key. }
      split; [exact (registry_grows_trans _ _ _ Hg1 Hgrow) |].
      exists (m :: new). rewrite <- !app_assoc. cbn [app length].
      split; [reflexivity |]. split; [reflexivity |]. split; [lia |].
      split; [constructor; assumption |]. constructor; [| exact Hkeys].
      apply (menu_key_grows _ _ _ Hgrow). rewrite HR. cbn.
      apply elem_of_union_l, elem_of_singleton. reflexivity.
    + cbn [accepted]. eapply returns_mono; [apply IH |].
      intros [mlist' rows'] w2 (Hgrow & new & -> & -> & Hlen & Hall & Hkeys).
      split; [rewrite <- Hm; exact Hgrow |].
      exists new. repeat split; auto.
Qed.

(** The menu list of one restaurant. *)
Lemma menus_of_restaurant_spec (r : pydict) (rid : string) (rows : list pydict)
    (w : World) :
  dict_get "restaurant_id" r = Some (VStr rid) ->
  returns (menus_of_restaurant L r rows)
    (fun '(mlist, rows') w' =>
       rows' = rows ++ mlist /\ 1 <= length mlist <= 6 /\
       registry_grows (registry w) (registry w') /\
       Forall (fun m => menu_key m ∈ existing_menu_keys (registry w')) mlist /\
       (Forall (menu_record rid) mlist \/
        exists menu_id created,
          mlist = [fallback_menu menu_id (VStr rid) created] /\
          (rid, "basic item") ∈ existing_menu_keys (registry w'))) w.
Proof.
  intros Hrid. unfold menus_of_restaurant.
  apply returns_bind, returns_randint; [lia |]. intros k w1 Hk [R1 _].
  unfold dict_item. rewrite Hrid. cbn [res_bind key_str].
  apply returns_bind, (returns_lift _ rid); [reflexivity |].
  apply returns_bind.
  eapply returns_mono; [apply menu_loop_spec |].
  intros [mlist rows'] w2 (Hgrow & new & Hm & -> & Hlen & Hall & Hkeys).
  cbn [app] in Hm. subst mlist. cbn beta iota.
  rewrite R1 in Hgrow.
  destruct new as [| m new].
  - apply returns_bind, returns_uuid4. intros menu_id w3 [R3 _].
    apply returns_bind, (returns_lift _ (VStr rid)); [reflexivity |].
    apply returns_bind, returns_now_iso. intros created w4 [R4 _].
    cbn [fallback_menu dict_get String.eqb Ascii.eqb Bool.eqb res_bind key_str as_str].
    apply returns_bind, (returns_lift _ rid); [reflexivity |].
    apply returns_bind, (returns_lift _ "Basic Item"); [reflexivity |].
    apply returns_bind, returns_update_registry. intros w5 R5 _.
    apply returns_ret.
    assert ((rid, "basic item") ∈ existing_menu_keys (registry w5)) as Hin.
    { rewrite R5. cbn. apply elem_of_union_l, elem_of_singleton. reflexivity. }
    split; [rewrite app_nil_r; reflexivity |]. split; [cbn; lia |].
    split.
    { eapply registry_grows_trans; [exact Hgrow |].
      rewrite R5, R4, R3. apply grows_add_menu_key. }
    split; [constructor; [exact Hin | constructor] |].
    right. exists menu_id, (now_iso_at L created). split; [reflexivity | exact Hin].
  - apply returns_ret. split; [reflexivity |].
    split; [cbn [length] in *; lia |].
    split; [exact Hgrow |]. split; [exact Hkeys | left; exact Hall].
Qed.

(** The menu stage for one restaurant whose [restaurant_id] is a [str]. It
    never raises, and leaves the restaurant with at least one menu item
    and at most six, all of them appended to the rows, each with its key
    in the registry. Either they all come from [make_menu_unique], or none
    was made and the list is the single fallback item, "Basic Item" at
    100.00, whose key (the restaurant, "basic item") is then registered. *)
Theorem restaurant_gets_a_menu (r : pydict) (rid : string) (rows : list pydict)
    (w : World) :
  dict_get "restaurant_id" r = Some (VStr rid) ->
  returns (menus_of_restaurant L r rows)
    (fun '(mlist, rows') w' =>
       rows' = rows ++ mlist /\ 1 <= length mlist <= 6 /\
       registry_grows (registry w) (registry w') /\
       Forall (fun m => menu_key m ∈ existing_menu_keys (registry w')) mlist /\
       (Forall (menu_record rid) mlist \/
        exists menu_id created,
          mlist = [fallback_menu menu_id (VStr rid) created] /\
          (rid, "basic item") ∈ existing_menu_keys (registry w'))) w.
Proof. intros H0. exact (menus_of_restaurant_spec r rid rows w H0). Qed.

(** The whole menu stage, for restaurants whose [restaurant_id] is a
    [str]: it never raises, every restaurant ends with a menu list in
    [menus] that is not empty, and lists that were there before are still
    there or replaced by one that is not empty. *)
Theorem menu_stage_leaves_no_restaurant_without_menu (restaurants : list pydict)
    (menus : gmap string (list pydict)) (rows : list pydict) (w : World) :
  Forall (fun r => is_str (default VNone (dict_get "restaurant_id" r)) = true) restaurants ->
  returns (menu_stage L restaurants menus rows)
    (fun '(menus', rows') w' =>
       registry_grows (registry w) (registry w') /\
       (exists new, rows' = rows ++ new) /\
       Forall (fun r => exists rid mlist,
                 dict_get "restaurant_id" r = Some (VStr rid) /\
                 menus' !! rid = Some mlist /\ 1 <= length mlist) restaurants /\
       (forall rid mlist, menus !! rid = Some mlist -> 1 <= length mlist ->
          exists mlist', menus' !! rid = Some mlist' /\ 1 <= length mlist')) w.
Proof.
  revert menus rows w. induction restaurants as [| r rest IH]; intros menus rows w Hall;
    cbn [menu_stage].
  - apply returns_ret. split; [apply registry_grows_refl |].
    split; [exists []; symmetry; apply app_nil_r |]. split; [constructor |]. eauto.
  - apply Forall_cons in Hall as [Hr Hrest].
    destruct (dict_get "restaurant_id" r) as [v |] eqn:Erid; [| discriminate Hr].
    cbn [default] in Hr. destruct v; try discriminate Hr. rename s into rid.
    apply returns_bind.
    eapply returns_mono; [apply (menus_of_restaurant_spec r rid rows w Erid) |].
    intros [mlist rows1] w1 (-> & Hlen & Hgrow & _ & _). cbn beta iota.
    unfold dict_item. rewrite Erid. cbn [res_bind key_str].
    apply returns_bind, (returns_lift _ rid); [reflexivity |].
    eapply returns_mono; [apply (IH _ _ _ Hrest) |].
    intros [menus' rows'] w2 (Hgrow2 & [new ->] & Hall' & Hkeep).
    split; [exact (registry_grows_trans _ _ _ Hgrow Hgrow2) |].
    split; [exists (mlist ++ new); symmetry; apply app_assoc |].
    split.
    + constructor; [| exact Hall'].
      destruct (Hkeep rid mlist) as (mlist' & Hl & Hne); [apply lookup_insert_eq | lia |].
      exists rid, mlist'. auto.
    + intros k l Hl Hne. destruct (decide (k = rid)) as [-> | Hk].
      * apply (Hkeep rid mlist); [apply lookup_insert_eq | lia].
      * apply (Hkeep k l); [rewrite lookup_insert_ne by congruence; exact Hl | exact Hne].
Qed.

End Menus.

Section MenuWitnesses.
Local Open Scope nat_scope.
Local Open Scope string_scope.
Local Open Scope list_scope.

Lemma restaurant_gets_a_menu_witness :
  dict_get "restaurant_id" [("restaurant_id", VStr "r-1")] = Some (VStr "r-1") /\
  returns (menus_of_restaurant Sample.lib [("restaurant_id", VStr "r-1")] [])
    (fun '(mlist, rows') w' =>
       rows' = [] ++ mlist /\ 1 <= length mlist <= 6 /\
       registry_grows (registry initial_world) (registry w') /\
       Forall (fun m => menu_key m ∈ existing_menu_keys (registry w')) mlist /\
       (Forall (menu_record "r-1") mlist \/
        exists menu_id created,
          mlist = [fallback_menu menu_id (VStr "r-1") created] /\
          ("r-1", "basic item") ∈ existing_menu_keys (registry w'))) initial_world.
Proof.
  split; [reflexivity |].
  apply (restaurant_gets_a_menu Sample.lib [("restaurant_id", VStr "r-1")] "r-1" [] initial_world).
  reflexivity.
Defined.

Lemma menu_stage_leaves_no_restaurant_without_menu_witness :
  Forall (fun r => is_str (default VNone (dict_get "restaurant_id" r)) = true)
    [[("restaurant_id", VStr "r-1")]] /\
  returns (menu_stage Sample.lib [[("restaurant_id", VStr "r-1")]] ∅ [])
    (fun '(menus', rows') w' =>
       registry_grows (registry initial_world) (registry w') /\
       (exists new, rows' = [] ++ new) /\
       Forall (fun r => exists rid mlist,
                 dict_get "restaurant_id" r = Some (VStr rid) /\
                 menus' !! rid = Some mlist /\ 1 <= length mlist)
         [[("restaurant_id", VStr "r-1")]] /\
       (forall rid mlist, (∅ : gmap string (list pydict)) !! rid = Some mlist ->
          1 <= length mlist ->
          exists mlist', menus' !! rid = Some mlist' /\ 1 <= length mlist')) initial_world.
Proof.
  assert (Forall (fun r => is_str (default VNone (dict_get "restaurant_id" r)) = true)
            [[("restaurant_id", VStr "r-1")]]) as H.
  { constructor; [reflexivity | constructor]. }
  split; [exact H |].
  apply (menu_stage_leaves_no_restaurant_without_menu Sample.lib
           [[("restaurant_id", VStr "r-1")]] ∅ [] initial_world H).
Defined.

End MenuWitnesses.

Section Orders.
Local Open Scope nat_scope.
Local Open Scope string_scope.
Local Open Scope list_scope.

#[local] Arguments coerce L !t !v : simpl nomatch.

(** *** Amounts in hundredths *)

Lemma dstr_cents s c : dstr (DFin s c (-2)) = format_f (DFin s c (-2)).
Proof.
  rewrite dstr_plain; [reflexivity | lia |].
  pose proof (of_N_nonempty c) as H. destruct (of_N c); [discriminate H | cbn [String.length]; lia].
Qed.

Lemma nonnegative_amount_cents msg c :
  (c < 10 ^ prec)%N ->
  nonnegative_amount msg (VStr (format_f (DFin false c (-2)))) = Ok (VDec (DFin false c (-2))).
Proof.
  intros Hc. unfold nonnegative_amount, to_decimal, decimal_of_str.
  rewrite parse_format_cents. cbn [res_bind]. rewrite (quantize2_cents _ _ Hc). cbn [res_bind].
  unfold dlt, dcompare, of_int. cbn [res_bind].
  assert (cmp_fin false c (-2) (0 <? 0)%Z (Z.abs_N 0) 0 <> Lt) as Hcmp.
  { unfold cmp_fin. cbn. intros H. rewrite Z.compare_lt_iff in H. lia. }
  destruct (cmp_fin false c (-2) (0 <? 0)%Z (Z.abs_N 0) 0); [reflexivity | congruence | reflexivity].
Qed.

Lemma dmul_cents pc q :
  (0 < q)%Z -> (pc * Z.to_N q < 10 ^ prec)%N ->
  dmul (DFin false pc (-2)) (of_int q) = Ok (DFin false (pc * Z.to_N q) (-2)).
Proof.
  intros Hq Hfit. unfold dmul, of_int.
  assert ((q <? 0)%Z = false) as -> by (apply Z.ltb_ge; lia).
  cbn [xorb]. rewrite Z.add_0_r.
  assert (Z.abs_N q = Z.to_N q) as -> by lia.
  rewrite (fix_ctx_fits _ _ _ Hfit). reflexivity.
Qed.

Lemma dadd_cents a c :
  (a + c < 10 ^ prec)%N ->
  dadd (DFin false a (-2)) (DFin false c (-2)) = Ok (DFin false (a + c) (-2)).
Proof.
  intros Hfit. unfold dadd. change (Z.min (-2) (-2)) with (-2)%Z.
  change (-2 - -2)%Z with 0%Z. rewrite Z.pow_0_r, !Z.mul_1_r. unfold signed.
  assert (Z.abs_N (Z.of_N a + Z.of_N c) = (a + c)%N) as -> by lia.
  assert ((Z.of_N a + Z.of_N c <? 0)%Z = false) as -> by (apply Z.ltb_ge; lia).
  rewrite (fix_ctx_fits _ _ _ Hfit).
  destruct (Z.of_N a + Z.of_N c =? 0)%Z; reflexivity.
Qed.

Lemma dadd_zero_cents c :
  (c < 10 ^ prec)%N -> dadd (of_int 0) (DFin false c (-2)) = Ok (DFin false c (-2)).
Proof.
  intros Hfit. unfold dadd, of_int. change (0 <? 0)%Z with false. change (Z.abs_N 0) with 0%N.
  change (Z.min 0 (-2)) with (-2)%Z. change (-2 - -2)%Z with 0%Z. unfold signed.
  rewrite Z.pow_0_r, Z.mul_1_r. change (Z.of_N 0 * 10 ^ (0 - -2))%Z with 0%Z. rewrite Z.add_0_l.
  assert (Z.abs_N (Z.of_N c) = c) as -> by lia.
  assert ((Z.of_N c <? 0)%Z = false) as -> by (apply Z.ltb_ge; lia).
  rewrite (fix_ctx_fits _ _ _ Hfit).
  destruct (Z.of_N c =? 0)%Z; reflexivity.
Qed.

(** *** The sample of the menu *)

Section WithLib.
Context (L : Lib).

(** [random.sample(l, k)] with [k] within the length of [l] never raises
    and returns [k] elements of [l]. *)
Lemma returns_sample {A} (l : list A) (k : nat) (Q : list A -> World -> Prop) w :
  k <= length l ->
  (forall r w', length r = k -> Forall (fun x => x ∈ l) r -> entropy_only w w' -> Q r w') ->
  returns (sample L l k) Q w.
Proof.
  revert l Q w. induction k as [| k IH]; intros l Q w Hk HQ; cbn [sample].
  - apply returns_ret, HQ; [reflexivity | constructor | apply entropy_only_refl].
  - apply returns_bind, returns_draw. intros n w1 H1.
    assert (n mod length l < length l) as Hi by (apply Nat.mod_upper_bound; lia).
    destruct (lookup_lt_is_Some_2 l _ Hi) as [x Hx]. rewrite Hx.
    apply returns_bind, IH.
    + rewrite length_delete by eauto. lia.
    + intros r w2 Hlen Hall H2. apply returns_ret, HQ.
      * cbn [length]. lia.
      * constructor; [eapply list_elem_of_lookup_2; exact Hx |].
        eapply Forall_impl; [exact Hall |]. intros y Hy.
        eapply list_elem_of_delete_inv, Hy.
      * eapply entropy_only_trans; eassumption.
Qed.

(** *** One order item *)

Lemma check_subtotal_reads_amounts oiid oid mid q p s :
  check_subtotal
    [ ("type", VStr "orderitem"); ("orderitem_id", oiid); ("order_id", oid);
      ("menu_id", mid); ("quantity", VInt q); ("price", VDec p); ("subtotal", VDec s) ]
  = check_subtotal (order_item_fields q p s).
Proof. reflexivity. Qed.

(** The payload that [make_order_with_items] builds for an item passes
    validation and comes back as it is. *)
Lemma validate_order_item oiid oid mid q pc w :
  (1 <= q <= 3)%Z -> (0 < pc < 10 ^ 26)%N ->
  validate_or_log L
    [ ("type", VStr "orderitem");
      ("orderitem_id", VStr oiid);
      ("order_id", VStr oid);
      ("menu_id", VStr mid);
      ("quantity", VInt q);
      ("price", VStr (format_f (DFin false pc (-2))));
      ("subtotal", VStr (format_f (DFin false (pc * Z.to_N q) (-2)))) ]
    OrderItemModel w
  = (Ok (Some [ ("type", VStr "orderitem");
                ("orderitem_id", VStr oiid);
                ("order_id", VStr oid);
                ("menu_id", VStr mid);
                ("quantity", VInt q);
                ("price", VStr (format_f (DFin false pc (-2))));
                ("subtotal", VStr (format_f (DFin false (pc * Z.to_N q) (-2)))) ]), w).
Proof.
  intros Hq Hpc.
  assert (pc * Z.to_N q < 10 ^ prec)%N as Hfit.
  { change (10 ^ prec)%N with (10 ^ 26 * 100)%N. nia. }
  assert (pc < 10 ^ prec)%N as Hp by (change (10 ^ prec)%N with (10 ^ 26 * 100)%N; lia).
  destruct (check_subtotal_cents q pc (pc * Z.to_N q) ltac:(lia) Hfit) as [Hpass _].
  specialize (Hpass ltac:(lia)).
  assert (quantity_positive (VInt q) = Ok (VInt q)) as Hqty.
  { unfold quantity_positive. cbn [py_int res_bind].
    assert ((q <=? 0)%Z = false) as -> by (apply Z.leb_gt; lia). reflexivity. }
  unfold validate_or_log, model_validate, OrderItemModel.
  cbn -[decimal_positive quantity_positive check_subtotal format_f N.pow N.mul].
  rewrite Hqty. cbn -[decimal_positive quantity_positive check_subtotal format_f N.pow N.mul].
  unfold decimal_positive. rewrite !nonnegative_amount_cents by assumption.
  cbn -[check_subtotal format_f N.pow N.mul].
  rewrite check_subtotal_reads_amounts, Hpass. reflexivity.
Qed.

(** The loop over the chosen menu items never raises on menu items that
    are in order, and makes one order item of each. *)
Lemma order_items_spec (order_id : string) (chosen : list pydict) (w : World) :
  Forall menu_ok chosen ->
  returns (order_items L order_id chosen)
    (fun items w' =>
       registry w' = registry w /\
       exists subtotals,
         Forall2 (fun itm c => exists m, m ∈ chosen /\ order_item_record order_id m itm c)
           items subtotals /\
         length items = length chosen /\
         Forall (fun c => (c < 3 * 10 ^ 26)%N) subtotals) w.
Proof.
  revert w. induction chosen as [| m rest IH]; intros w Hall; cbn [order_items].
  - apply returns_ret. split; [reflexivity |]. exists []. repeat split; constructor.
  - apply Forall_cons in Hall as [(mid & pc & Hmid & Hprice & Hpc) Hrest].
    apply returns_bind, returns_randint; [lia |]. intros q w1 Hq [R1 _].
    assert (pc * Z.to_N q < 10 ^ prec)%N as Hfit.
    { change (10 ^ prec)%N with (10 ^ 26 * 100)%N. nia. }
    unfold dict_item. rewrite Hprice, Hmid. cbn [res_bind decimal_of_str].
    rewrite parse_format_cents.
    apply returns_bind, (returns_lift _ (DFin false pc (-2))); [reflexivity |].
    rewrite (dmul_cents pc q ltac:(lia) Hfit). cbn [res_bind].
    rewrite (quantize2_cents _ _ Hfit).
    apply returns_bind, (returns_lift _ (DFin false (pc * Z.to_N q) (-2))); [reflexivity |].
    apply returns_bind, returns_uuid4. intros oiid w2 [R2 _].
    apply returns_bind, (returns_lift _ (VStr mid)); [reflexivity |].
    rewrite !dstr_cents.
    apply returns_bind. unfold returns at 1.
    rewrite (validate_order_item oiid order_id mid q pc w2 Hq Hpc).
    apply returns_bind.
    eapply returns_mono; [apply (IH w2 Hrest) |].
    intros more w3 (R3 & cs & Hitems & Hlen & Hbound). cbn beta.
    apply returns_ret. cbn [accepted].
    split; [congruence |].
    exists (pc * Z.to_N q :: cs)%N.
    split; [| split].
    + constructor.
      * exists m. split; [left |].
        exists oiid, mid, pc, q. auto.
      * eapply Forall2_impl; [exact Hitems |].
        intros itm c (m' & Hm' & Hrec). exists m'. split; [right; exact Hm' | exact Hrec].
    + cbn [length]. lia.
    + constructor; [nia | exact Hbound].
Qed.

End WithLib.

(** *** The total *)

Lemma total_of_bound (cs : list N) (b : N) :
  Forall (fun c => (c < b)%N) cs -> (total_of cs <= b * N.of_nat (length cs))%N.
Proof.
  induction 1 as [| c cs Hc _ IH]; cbn [total_of foldr length]; [lia |].
  fold (total_of cs). lia.
Qed.

Lemma sum_subtotals_cents order_id (menus items : list pydict) (cs : list N) (a : N) :
  Forall2 (fun itm c => exists m, m ∈ menus /\ order_item_record order_id m itm c) items cs ->
  (a + total_of cs < 10 ^ prec)%N ->
  sum_subtotals (DFin false a (-2)) items = Ok (DFin false (a + total_of cs) (-2)).
Proof.
  intros H. revert a. induction H as [| itm c items cs Hitm _ IH]; intros a Hfit.
  - cbn [sum_subtotals total_of foldr]. rewrite N.add_0_r. reflexivity.
  - destruct Hitm as (m & _ & oiid & mid & pc & q & _ & _ & _ & _ & ->).
    cbn [total_of foldr] in *. fold (total_of cs) in *.
    cbn [sum_subtotals dict_item dict_get String.eqb Ascii.eqb Bool.eqb res_bind decimal_ctor].
    rewrite parse_format_cents. cbn [res_bind]. rewrite dadd_cents by lia. cbn [res_bind].
    rewrite IH by lia. f_equal. f_equal. lia.
Qed.

Lemma sum_subtotals_from_zero order_id (menus items : list pydict) (cs : list N) :
  Forall2 (fun itm c => exists m, m ∈ menus /\ order_item_record order_id m itm c) items cs ->
  items <> [] -> (total_of cs < 10 ^ prec)%N ->
  sum_subtotals (of_int 0) items = Ok (DFin false (total_of cs) (-2)).
Proof.
  intros H Hne Hfit. destruct H as [| itm c items cs Hitm Hrest]; [congruence |].
  destruct Hitm as (m & _ & oiid & mid & pc & q & _ & _ & _ & _ & ->).
  cbn [total_of foldr] in *. fold (total_of cs) in *.
  cbn [sum_subtotals dict_item dict_get String.eqb Ascii.eqb Bool.eqb res_bind decimal_ctor].
  rewrite parse_format_cents. cbn [res_bind]. rewrite dadd_zero_cents by lia. cbn [res_bind].
  apply (sum_subtotals_cents order_id menus items cs _ Hrest Hfit).
Qed.

(** The surcharge: a point of [[10, 60)] rounded to two places, so an
    amount from 10.00 up to 60.00. *)
Lemma surcharge_cents (n : nat) :
  exists r,
    to_decimal (VStr (print_fixed
                        (of_N (10 ^ 15 * 10 + N.of_nat n mod (10 ^ 15 * (60 - 10)))) 15))
    = Ok (DFin false r (-2)) /\ (1000 <= r <= 6000)%N.
Proof.
  set (cu := (10 ^ 15 * 10 + N.of_nat n mod (10 ^ 15 * (60 - 10)))%N).
  assert (10 ^ 16 <= cu < 6 * 10 ^ 16)%N as Hcu.
  { unfold cu. pose proof (N.mod_lt (N.of_nat n) (10 ^ 15 * (60 - 10))%N ltac:(discriminate)) as H.
    set (x := (N.of_nat n mod (10 ^ 15 * (60 - 10)))%N) in *. clearbody x.
    change (10 ^ 15 * (60 - 10))%N with 50000000000000000%N in H.
    change (10 ^ 15 * 10)%N with 10000000000000000%N.
    change (10 ^ 16)%N with 10000000000000000%N. lia. }
  clearbody cu.
  unfold to_decimal, decimal_of_str.
  pose proof (parse_print_fixed false cu 15) as Hparse.
  cbn [sign_str] in Hparse. rewrite str_app_nil_l in Hparse. rewrite Hparse.
  cbn [res_bind]. unfold quantize2, rescale_half_up.
  change (-2 <=? - Z.of_nat 15)%Z with false. cbn iota.
  change (10 ^ Z.to_N (-2 - - Z.of_nat 15))%N with (10 ^ 13)%N.
  set (up := if (10 ^ 13 <=? 2 * (cu mod 10 ^ 13))%N then 1%N else 0%N).
  assert (up <= 1)%N as Hup by (unfold up; destruct (_ <=? _)%N; lia).
  assert (1000 <= cu / 10 ^ 13 <= 5999)%N as Hdiv.
  { change (10 ^ 16)%N with 10000000000000000%N in Hcu. split.
    - apply N.div_le_lower_bound; [discriminate |].
      change (10 ^ 13 * 1000)%N with 10000000000000000%N. lia.
    - assert (cu / 10 ^ 13 < 6000)%N; [| lia].
      apply N.Div0.div_lt_upper_bound.
      change (10 ^ 13 * 6000)%N with 60000000000000000%N. lia. }
  assert ((cu / 10 ^ 13 + up <? 10 ^ prec)%N = true) as ->.
  { apply N.ltb_lt. change (10 ^ prec)%N with (10 ^ 26 * 100)%N.
    assert (1 <= 10 ^ 26)%N by (apply (N.pow_le_mono_r 10 0 26); lia). lia. }
  eexists. split; [reflexivity | lia].
Qed.

Section WithLib2.
Context (L : Lib).

(** Validating the payload of an order with identifiers of type [str]
    never raises; it succeeds exactly when both timestamps parse, and then
    returns the payload as it is. *)
Lemma validate_order_payload order_id cid rid order_date total status paymentmethod
    created w :
  (total < 10 ^ prec)%N ->
  returns
    (validate_or_log L
       (order_payload order_id (VStr cid) (VStr rid) order_date total status
          paymentmethod created)
       (OrderModel L))
    (fun r w' =>
       drew 0 w w' /\
       r = if iso_parses L order_date && iso_parses L created
           then Some (order_payload order_id (VStr cid) (VStr rid) order_date total status
                        paymentmethod created)
           else None) w.
Proof.
  intros Htotal.
  eapply validate_or_log_cases;
    [repeat constructor | apply order_fields_print | reflexivity |].
  unfold model_validate, OrderModel, order_payload.
  cbn -[validate_iso total_positive format_f N.pow].
  unfold total_positive. rewrite (nonnegative_amount_cents _ _ Htotal).
  rewrite !validate_iso_parses.
  cbn -[format_f N.pow].
  destruct (iso_parses L order_date), (iso_parses L created);
    cbn -[format_f N.pow]; (split; [| reflexivity]);
    unfold drew, refused; cbn [tick registry]; (split; [lia | reflexivity]).
Qed.

End WithLib2.

Section WithLib3.
Context (L : Lib).

(** What [make_order_with_items] returns on menu items that are in
    order. The order's two timestamps are the fourth-last and the last
    draw of the call. *)
Lemma make_order_with_items_spec (cid rid : string) (menus : list pydict)
    (w : World) :
  Forall menu_ok menus ->
  returns (make_order_with_items L (VStr cid) (VStr rid) menus)
    (fun '(order, items) w' =>
       registry w' = registry w /\
       match menus with
       | [] => order = None /\ items = []
       | _ :: _ =>
           exists order_id subtotals surcharge status paymentmethod,
             Forall2 (fun itm c =>
                        exists m, m ∈ menus /\ order_item_record order_id m itm c)
               items subtotals /\
             1 <= length items <= 3 /\ length items <= length menus /\
             (1000 <= surcharge <= 6000)%N /\
             order =
               if iso_parses L (now_iso_at L (rnd L (tick w' - 4)))
                  && iso_parses L (now_iso_at L (rnd L (tick w' - 1)))
               then Some (order_payload order_id (VStr cid) (VStr rid)
                            (now_iso_at L (rnd L (tick w' - 4)))
                            (total_of subtotals + surcharge) status paymentmethod
                            (now_iso_at L (rnd L (tick w' - 1))))
               else None
       end) w.
Proof.
  intros Hmenus. unfold make_order_with_items.
  apply returns_bind, returns_uuid4. intros order_id w1 [R1 _].
  destruct menus as [| m0 ms]; [apply returns_ret; auto |].
  set (menus := m0 :: ms) in *.
  assert (1 <= length menus) as Hlen0 by (cbn; lia).
  apply returns_bind, returns_randint; [lia |]. intros k w2 Hk [R2 _].
  apply returns_bind, returns_sample; [lia |]. intros chosen w3 Hlen Hin [R3 _].
  assert (Forall menu_ok chosen) as Hchosen.
  { eapply Forall_impl; [exact Hin |]. intros m Hm.
    rewrite Forall_forall in Hmenus. apply Hmenus, Hm. }
  apply returns_bind.
  eapply returns_mono; [apply (order_items_spec L order_id chosen w3 Hchosen) |].
  intros items w4 (R4 & cs & Hitems & Hlen' & Hbound). cbn beta.
  assert (Forall2 (fun itm c => exists m, m ∈ menus /\ order_item_record order_id m itm c)
            items cs) as Hitems'.
  { eapply Forall2_impl; [exact Hitems |]. intros itm c (m & Hm & Hrec).
    exists m. split; [| exact Hrec]. rewrite Forall_forall in Hin. apply Hin, Hm. }
  assert (1 <= length items <= 3) as Hcount by lia.
  assert (length cs = length items) as Hcs by (symmetry; eapply Forall2_length; exact Hitems).
  assert (total_of cs <= 9 * 10 ^ 26)%N as Htotal.
  { pose proof (total_of_bound cs _ Hbound) as Hb.
    assert (N.of_nat (length cs) <= 3)%N by lia.
    assert (1 <= 10 ^ 26)%N by (apply (N.pow_le_mono_r 10 0 26); lia). nia. }
  assert (1 <= 10 ^ 26)%N as Hpow by (apply (N.pow_le_mono_r 10 0 26); lia).
  destruct items as [| itm0 items']; [cbn in Hcount; lia |].
  set (items := itm0 :: items') in *. cbn iota.
  rewrite (sum_subtotals_from_zero order_id menus items cs Hitems' ltac:(discriminate));
    [| change (10 ^ prec)%N with (10 ^ 26 * 100)%N; lia].
  apply returns_bind, (returns_lift _ (DFin false (total_of cs) (-2))); [reflexivity |].
  apply returns_bind. unfold uniform.
  apply returns_bind, returns_draw. intros n w5 [R5 _]. apply returns_ret.
  destruct (surcharge_cents n) as (r & -> & Hr).
  apply returns_bind, (returns_lift _ (DFin false r (-2))); [reflexivity |].
  assert (total_of cs + r < 10 ^ prec)%N as Hfit.
  { change (10 ^ prec)%N with (10 ^ 26 * 100)%N. lia. }
  rewrite (dadd_cents _ _ Hfit).
  apply returns_bind, (returns_lift _ (DFin false (total_of cs + r) (-2))); [reflexivity |].
  apply returns_bind, returns_now_iso_at. intros w6 H6.
  apply returns_bind, returns_choice_at; [discriminate |]. intros status w7 _ H7.
  apply returns_bind, returns_choice_at; [discriminate |]. intros payment w8 _ H8.
  apply returns_bind, returns_now_iso_at. intros w9 H9.
  rewrite dstr_cents.
  apply returns_bind.
  eapply returns_mono;
    [apply (validate_order_payload L order_id cid rid _ (total_of cs + r)
              status payment _ w9 Hfit) |].
  intros o w10 [H10 ->]. cbn beta. apply returns_ret.
  pose proof (drew_trans _ _ _ _ _ H6 H7) as D7.
  pose proof (drew_trans _ _ _ _ _ D7 H8) as D8.
  pose proof (drew_trans _ _ _ _ _ D8 H9) as D9.
  pose proof (drew_trans _ _ _ _ _ D9 H10) as D10.
  destruct D8 as [T8 _]. destruct D10 as [T10 R10].
  split; [congruence |].
  exists order_id, cs, r, status, payment.
  split; [exact Hitems' |]. split; [exact Hcount |]. split; [lia |]. split; [exact Hr |].
  replace (tick w10 - 4) with (tick w5) by lia.
  replace (tick w10 - 1) with (tick w8) by lia.
  reflexivity.
Qed.

(** [make_order_with_items] as [build_batch] calls it: for a customer and
    a restaurant, whose identifiers are of type [str], and on menu items
    that are in order (an identifier, a positive price in hundredths;
    none at all is fine). It never raises and never touches the registry.
    Without menu items it returns the null order and no items. Otherwise
    it returns one to three order items, each made from a menu item of
    the list with a quantity of 1 to 3 and the subtotal price times
    quantity. The order is returned exactly when the two timestamps of
    its payload, the fourth-last and the last draw of the call, parse,
    and then it is that payload, with the sum of the items' subtotals
    plus a surcharge between 10.00 and 60.00 as [totalamount]; otherwise
    the order is null, and the items are returned all the same. *)
Theorem order_total_is_items_plus_surcharge (cid rid : string) (menus : list pydict)
    (w : World) :
  Forall menu_ok menus ->
  returns (make_order_with_items L (VStr cid) (VStr rid) menus)
    (fun '(order, items) w' =>
       registry w' = registry w /\
       match menus with
       | [] => order = None /\ items = []
       | _ :: _ =>
           exists order_id subtotals surcharge status paymentmethod,
             Forall2 (fun itm c =>
                        exists m, m ∈ menus /\ order_item_record order_id m itm c)
               items subtotals /\
             1 <= length items <= 3 /\ length items <= length menus /\
             (1000 <= surcharge <= 6000)%N /\
             order =
               if iso_parses L (now_iso_at L (rnd L (tick w' - 4)))
                  && iso_parses L (now_iso_at L (rnd L (tick w' - 1)))
               then Some (order_payload order_id (VStr cid) (VStr rid)
                            (now_iso_at L (rnd L (tick w' - 4)))
                            (total_of subtotals + surcharge) status paymentmethod
                            (now_iso_at L (rnd L (tick w' - 1))))
               else None
       end) w.
Proof. intros H0. exact (make_order_with_items_spec cid rid menus w H0). Qed.

End WithLib3.

End Orders.

Section OrderWitness.
Local Open Scope nat_scope.
Local Open Scope string_scope.
Local Open Scope list_scope.

Lemma fallback_menu_ok menu_id rid created :
  menu_ok (fallback_menu menu_id (VStr rid) created).
Proof.
  exists menu_id, 10000%N. split; [reflexivity |]. split; [reflexivity |].
  split; [lia |]. apply N.ltb_lt. reflexivity.
Qed.

(** An order from the fallback menu of a restaurant. *)
Lemma order_total_is_items_plus_surcharge_witness :
  Forall menu_ok [fallback_menu "m-1" (VStr "r-1") "2024-01-01T00:00:00"] /\
  returns
    (make_order_with_items Sample.lib (VStr "c-1") (VStr "r-1")
       [fallback_menu "m-1" (VStr "r-1") "2024-01-01T00:00:00"])
    (fun '(order, items) w' =>
       registry w' = registry initial_world /\
       exists order_id subtotals surcharge status paymentmethod,
         Forall2 (fun itm c =>
                    exists m, m ∈ [fallback_menu "m-1" (VStr "r-1") "2024-01-01T00:00:00"]
                              /\ order_item_record order_id m itm c)
           items subtotals /\
         1 <= length items <= 3 /\
         length items <= length [fallback_menu "m-1" (VStr "r-1") "2024-01-01T00:00:00"] /\
         (1000 <= surcharge <= 6000)%N /\
         order =
           if iso_parses Sample.lib (now_iso_at Sample.lib (rnd Sample.lib (tick w' - 4)))
              && iso_parses Sample.lib (now_iso_at Sample.lib (rnd Sample.lib (tick w' - 1)))
           then Some (order_payload order_id (VStr "c-1") (VStr "r-1")
                        (now_iso_at Sample.lib (rnd Sample.lib (tick w' - 4)))
                        (total_of subtotals + surcharge) status paymentmethod
                        (now_iso_at Sample.lib (rnd Sample.lib (tick w' - 1))))
           else None) initial_world.
Proof.
  assert (Forall menu_ok [fallback_menu "m-1" (VStr "r-1") "2024-01-01T00:00:00"]) as H.
  { constructor; [apply fallback_menu_ok | constructor]. }
  split; [exact H |].
  exact (order_total_is_items_plus_surcharge Sample.lib "c-1" "r-1"
           [fallback_menu "m-1" (VStr "r-1") "2024-01-01T00:00:00"] initial_world H).
Defined.

End OrderWitness.

Section Generators2.
Local Open Scope nat_scope.
Local Open Scope string_scope.
Local Open Scope list_scope.
Context (L : Lib).

#[local] Arguments coerce L !t !v : simpl nomatch.

Lemma returns_fake_at (table : Lib -> nat -> string) (Q : string -> World -> Prop) w :
  (forall w', drew 1 w w' -> Q (table L (rnd L (tick w))) w') ->
  returns (fake L table) Q w.
Proof.
  intros H. unfold fake. apply returns_bind, returns_draw_at.
  intros w' Hw. apply returns_ret, H, Hw.
Qed.

Lemma validate_login_payload login_id cid logintype device mdn web lastlogin w :
  returns
    (validate_or_log L
       (login_payload login_id (VStr cid) logintype device mdn web lastlogin)
       (LoginAuditModel L))
    (fun r w' =>
       drew 0 w w' /\
       r = if iso_parses L lastlogin
           then Some (login_payload login_id (VStr cid) logintype device mdn web lastlogin)
           else None) w.
Proof.
  eapply validate_or_log_cases;
    [repeat constructor | apply login_fields_print | reflexivity |].
  unfold model_validate, LoginAuditModel, login_payload, lastlogin_ok.
  cbn -[validate_iso]. rewrite !validate_iso_parses.
  destruct (iso_parses L lastlogin); cbn; (split; [| reflexivity]);
    unfold drew, refused; cbn [tick registry]; (split; [lia | reflexivity]).
Qed.

(** What [make_loginaudit] returns for a customer. *)
Lemma make_loginaudit_spec (cid : string) (w : World) :
  returns (make_loginaudit L (VStr cid))
    (fun r w' =>
       drew 6 w w' /\
       exists logintype device,
         logintype ∈ ["web"; "mobile"]
         /\ device ∈ ["iOS"; "Android"; "Chrome"; "Firefox"]
         /\ r = if iso_parses L (now_iso_at L (rnd L (tick w + 5)))
                then Some (login_payload (uuid4 L (rnd L (tick w))) (VStr cid) logintype
                             device (fake_user_agent L (rnd L (tick w + 3)))
                             (fake_user_agent L (rnd L (tick w + 4)))
                             (now_iso_at L (rnd L (tick w + 5))))
                else None) w.
Proof.
  unfold make_loginaudit.
  apply returns_bind, returns_uuid4_at. intros w1 H1.
  apply returns_bind, returns_choice_at; [discriminate |]. intros logintype w2 Ht H2.
  apply returns_bind, returns_choice_at; [discriminate |]. intros device w3 Hd H3.
  apply returns_bind, returns_fake_at. intros w4 H4.
  apply returns_bind, returns_fake_at. intros w5 H5.
  apply returns_bind, returns_now_iso_at. intros w6 H6.
  eapply returns_mono; [apply validate_login_payload |].
  intros r w7 [H7 ->]. cbn beta.
  pose proof (drew_trans _ _ _ _ _ H1 H2) as D2.
  pose proof (drew_trans _ _ _ _ _ D2 H3) as D3.
  pose proof (drew_trans _ _ _ _ _ D3 H4) as D4.
  pose proof (drew_trans _ _ _ _ _ D4 H5) as D5.
  pose proof (drew_trans _ _ _ _ _ D5 H6) as D6.
  pose proof (drew_trans _ _ _ _ _ D6 H7) as D7.
  split; [exact D7 |].
  exists logintype, device. split; [exact Ht |]. split; [exact Hd |].
  destruct D3 as [-> _]. destruct D4 as [-> _]. destruct D5 as [-> _]. reflexivity.
Qed.

Lemma validate_location_payload location_id city state zipcode activeflag created w :
  returns
    (validate_or_log L (location_payload location_id city state zipcode activeflag created)
       (LocationModel L))
    (fun r w' =>
       drew 0 w w' /\
       r = if iso_parses L created
           then Some (location_payload location_id city state zipcode activeflag created)
           else None) w.
Proof.
  eapply validate_or_log_cases;
    [repeat constructor | apply location_fields_print | reflexivity |].
  unfold model_validate, LocationModel, location_payload.
  cbn -[validate_iso]. rewrite !validate_iso_parses.
  destruct (iso_parses L created); cbn; (split; [| reflexivity]);
    unfold drew, refused; cbn [tick registry]; (split; [lia | reflexivity]).
Qed.

Lemma returns_zipcode (Q : pyval -> World -> Prop) w :
  (forall s w',
     ((exists n, s = fake_postcode L n) \/
      (exists k, s = str_int k /\ (100000 <= k <= 999999)%Z)) ->
     entropy_only w w' -> Q (VStr s) w') ->
  returns (postcode_or_random L (fun p => ret (VStr p)) (fun k => VStr (str_int k))) Q w.
Proof.
  intros HQ. unfold postcode_or_random.
  apply returns_bind, returns_fake. intros n1 w1 H1.
  apply returns_bind.
  apply (returns_mono _ (fun (_ : bool) w2 => entropy_only w w2)).
  { destruct (isdigit (fake_postcode L n1)).
    - apply returns_bind, returns_fake. intros n2 w2 H2.
      apply returns_ret. eapply entropy_only_trans; eassumption.
    - apply returns_ret. exact H1. }
  intros six w2 H2. destruct six.
  - apply returns_bind, returns_fake. intros n3 w3 H3.
    apply returns_ret, HQ; [left; eauto | eapply entropy_only_trans; eassumption].
  - apply returns_bind, returns_randint; [lia |]. intros k w3 Hk H3.
    apply returns_ret, HQ; [right; eauto | eapply entropy_only_trans; eassumption].
Qed.

(** The two generators whose payload holds only strings. For a customer,
    whose identifier is a [str], [make_loginaudit] never raises and never
    touches the registry; it draws six values, and returns the payload
    made of them exactly when its timestamp, the sixth draw, parses, and
    the null result otherwise. [make_location] never raises and never
    touches the registry either; it returns its payload exactly when its
    timestamp, the last draw of the call, parses. The [zipcode] of a
    location is a postcode of Faker, which need not be the one that was
    tested for six digits (three are drawn), or a number of six digits. *)
Theorem generators_return_their_payload (cid : string) (w : World) :
  returns (make_loginaudit L (VStr cid))
    (fun r w' =>
       tick w' = tick w + 6 /\ registry w' = registry w /\
       exists logintype device,
         logintype ∈ ["web"; "mobile"]
         /\ device ∈ ["iOS"; "Android"; "Chrome"; "Firefox"]
         /\ r = if iso_parses L (now_iso_at L (rnd L (tick w + 5)))
                then Some (login_payload (uuid4 L (rnd L (tick w))) (VStr cid) logintype
                             device (fake_user_agent L (rnd L (tick w + 3)))
                             (fake_user_agent L (rnd L (tick w + 4)))
                             (now_iso_at L (rnd L (tick w + 5))))
                else None) w
  /\ returns (make_location L)
       (fun r w' =>
          registry w' = registry w /\
          exists location_id n1 n2 zipcode activeflag,
            ((exists n3, zipcode = fake_postcode L n3) \/
             (exists k, zipcode = str_int k /\ (100000 <= k <= 999999)%Z))
            /\ activeflag ∈ ["Y"; "N"]
            /\ r = if iso_parses L (now_iso_at L (rnd L (tick w' - 1)))
                   then Some (location_payload location_id (fake_city L n1)
                                (fake_state L n2) zipcode activeflag
                                (now_iso_at L (rnd L (tick w' - 1))))
                   else None) w.
Proof.
  split.
  { eapply returns_mono; [apply (make_loginaudit_spec cid w) |].
    intros r w' [[T R] H]. auto. }
  unfold make_location.
  apply returns_bind, returns_uuid4. intros location_id w1 [R1 _].
  apply returns_bind, returns_fake. intros n1 w2 [R2 _].
  apply returns_bind, returns_fake. intros n2 w3 [R3 _].
  apply returns_bind, returns_zipcode. intros zipcode w4 Hzip [R4 _].
  apply returns_bind, returns_choice; [discriminate |]. intros flag w5 Hflag [R5 _].
  apply returns_bind, returns_now_iso_at. intros w6 [T6 R6].
  eapply returns_mono; [apply validate_location_payload |].
  intros r w7 [[T7 R7] ->]. cbn beta. split; [congruence |].
  exists location_id, n1, n2, zipcode, flag.
  split; [exact Hzip |]. split; [exact Hflag |].
  replace (tick w7 - 1) with (tick w5) by lia. reflexivity.
Qed.

End Generators2.

Section Batch.
Local Open Scope nat_scope.
Local Open Scope string_scope.
Local Open Scope list_scope.
Context (L : Lib).

Lemma accepted_inv (o : option pydict) d : accepted o = Some d -> o = Some d.
Proof. destruct o as [[| x l] |]; cbn [accepted]; congruence. Qed.

Lemma of_kind_mono kinds kinds' r :
  (forall t, t ∈ kinds -> t ∈ kinds') -> of_kind kinds r -> of_kind kinds' r.
Proof. intros H (t & Ht & Hin). exists t. auto. Qed.

Lemma customer_candidate_kind c :
  customer_candidate L c ->
  of_kind ["customer"] c /\ exists cid, dict_get "customer_id" c = Some (VStr cid).
Proof.
  intros (cid & n & domain & k & mobile & login & gender & dob & vegan & spicy
          & created & -> & _).
  split; [exists "customer"; split; [reflexivity | left] | exists cid; reflexivity].
Qed.

Lemma restaurant_record_kind r :
  restaurant_record r ->
  of_kind ["restaurant"] r /\ exists rid, dict_get "restaurant_id" r = Some (VStr rid).
Proof.
  intros (rid & name & cuisine & price & loc & created & ->).
  split; [exists "restaurant"; split; [reflexivity | left] | exists rid; reflexivity].
Qed.

Lemma agent_record_kind a : agent_record a -> of_kind ["deliveryagent"] a.
Proof.
  intros (aid & name & phone & vehicle & loc & status & rating & created & ->).
  exists "deliveryagent". split; [reflexivity | left].
Qed.

Lemma menu_record_kind rid m : menu_record rid m -> of_kind ["menu"] m /\ menu_ok m.
Proof.
  intros (mid & itemname & description & price & flag & created & -> & Hprice).
  split; [exists "menu"; split; [reflexivity | left] |].
  exists mid, price. split; [reflexivity |]. split; [reflexivity | exact Hprice].
Qed.

Lemma fallback_menu_kind menu_id rid created :
  of_kind ["menu"] (fallback_menu menu_id (VStr rid) created).
Proof. exists "menu". split; [reflexivity | left]. Qed.

(** *** The customer pool *)

Lemma customer_loop_spec fuel n customers rows w :
  returns (customer_loop L fuel n customers rows)
    (fun '(customers', rows') _ =>
       exists new,
         customers' = customers ++ new /\ rows' = rows ++ new /\
         Forall (customer_candidate L) new) w.
Proof.
  revert customers rows w. induction fuel as [| fuel IH]; intros customers rows w;
    cbn [customer_loop].
  - apply returns_ret. exists []. rewrite !app_nil_r. auto.
  - destruct (Z.of_nat (length customers) <? n)%Z.
    2:{ apply returns_ret. exists []. rewrite !app_nil_r. auto. }
    apply returns_bind.
    eapply returns_mono; [apply make_customer_unique_spec |].
    intros r w1 Hr. cbn beta.
    destruct (accepted r) as [c |] eqn:Eacc.
    + apply accepted_inv in Eacc. subst r. destruct Hr as [Hc _].
      eapply returns_mono; [apply IH |].
      intros [customers' rows'] w2 (new & -> & -> & Hnew).
      exists (c :: new). rewrite <- !app_assoc. cbn [app]. auto.
    + apply IH.
Qed.

(** *** Addresses and login events *)

Lemma address_loop_spec k (cid : string) addresses rows w :
  ends (address_loop L k (VStr cid) addresses rows)
    (fun '(addresses', rows') _ => addresses' = addresses /\ rows' = rows)
    batch_error w.
Proof.
  revert w. induction k as [| k IH]; intros w; cbn [address_loop].
  - apply ends_ret. auto.
  - apply ends_bind.
    eapply ends_mono; [apply make_address_spec | | intros e He; right; exact He].
    intros r w1 (-> & _). cbn [accepted]. apply IH.
Qed.

Lemma address_stage_spec customers addresses rows w :
  Forall (customer_candidate L) customers ->
  ends (address_stage L customers addresses rows)
    (fun '(addresses', rows') _ =>
       addresses' = addresses /\
       exists new, rows' = rows ++ new /\ Forall (of_kind ["loginaudit"]) new)
    batch_error w.
Proof.
  intros Hall. revert rows w.
  induction Hall as [| c rest Hc _ IH]; intros rows w; cbn [address_stage].
  - apply ends_ret. split; [reflexivity |]. exists []. rewrite app_nil_r. auto.
  - destruct (customer_candidate_kind c Hc) as [_ [cid Hcid]].
    apply ends_bind, ends_returns, returns_randint; [lia |]. intros k w1 _ _.
    unfold dict_item. rewrite Hcid.
    apply ends_bind, ends_lift.
    apply ends_bind.
    eapply ends_mono; [apply address_loop_spec | | auto].
    intros [addresses' rows'] w2 [-> ->]. cbn beta iota.
    apply ends_bind, ends_returns. unfold random_below.
    apply returns_bind, returns_draw. intros n w3 _. apply returns_ret.
    apply ends_bind.
    apply (ends_mono _ (fun rows' _ =>
                          exists new, rows' = rows ++ new /\
                                      Forall (of_kind ["loginaudit"]) new)
             _ batch_error); [| | auto].
    { destruct (n mod 10 <? 4)%nat.
      - apply ends_bind, ends_lift.
        apply ends_bind, ends_returns.
        eapply returns_mono; [apply make_loginaudit_spec |].
        intros r w4 [_ (logintype & device & _ & _ & ->)]. cbn beta. apply returns_ret.
        destruct (iso_parses L _); cbn [accepted login_payload].
        + eexists [_]. split; [reflexivity |]. constructor; [| constructor].
          exists "loginaudit". split; [reflexivity | left].
        + exists []. rewrite app_nil_r. auto.
      - apply ends_ret. exists []. rewrite app_nil_r. auto. }
    intros rows1 w4 (new1 & -> & Hnew1). cbn beta.
    eapply ends_mono; [apply IH | | auto].
    intros [addresses' rows'] w5 (-> & new2 & -> & Hnew2).
    split; [reflexivity |]. exists (new1 ++ new2). rewrite app_assoc.
    split; [reflexivity | apply Forall_app; auto].
Qed.

(** *** Pools filled by a factory *)

Lemma pool_loop_spec n (factory : M (option pydict)) (P : pydict -> Prop) pool rows w :
  (forall w1, returns factory
                (fun r _ => match r with Some d => P d | None => True end) w1) ->
  returns (pool_loop n factory pool rows)
    (fun '(pool', rows') _ =>
       exists new, pool' = pool ++ new /\ rows' = rows ++ new /\ Forall P new) w.
Proof.
  intros Hf. revert pool rows w. induction n as [| n IH]; intros pool rows w;
    cbn [pool_loop].
  - apply returns_ret. exists []. rewrite !app_nil_r. auto.
  - apply returns_bind.
    eapply returns_mono; [apply Hf |].
    intros r w1 Hr. cbn beta.
    destruct (accepted r) as [d |] eqn:Eacc.
    + apply accepted_inv in Eacc. subst r.
      eapply returns_mono; [apply IH |].
      intros [pool' rows'] w2 (new & -> & -> & Hnew).
      exists (d :: new). rewrite <- !app_assoc. cbn [app]. auto.
    + apply IH.
Qed.

(** *** The menus *)

Lemma menu_stage_spec restaurants (menus : gmap string (list pydict)) rows w :
  Forall restaurant_record restaurants ->
  (forall k l, menus !! k = Some l -> Forall menu_ok l) ->
  returns (menu_stage L restaurants menus rows)
    (fun '(menus', rows') _ =>
       (forall k l, menus' !! k = Some l -> Forall menu_ok l) /\
       exists new, rows' = rows ++ new /\ Forall (of_kind ["menu"]) new) w.
Proof.
  intros Hall. revert menus rows w.
  induction Hall as [| r rest Hr _ IH]; intros menus rows w Hmenus; cbn [menu_stage].
  - apply returns_ret. split; [exact Hmenus |]. exists []. rewrite app_nil_r. auto.
  - destruct (restaurant_record_kind r Hr) as [_ [rid Hrid]].
    apply returns_bind.
    eapply returns_mono; [apply (menus_of_restaurant_spec L r rid rows w Hrid) |].
    intros [mlist rows1] w1 (-> & _ & _ & _ & Hkind). cbn beta iota.
    unfold dict_item. rewrite Hrid. cbn [res_bind key_str].
    apply returns_bind, (returns_lift _ rid); [reflexivity |].
    assert (Forall menu_ok mlist /\ Forall (of_kind ["menu"]) mlist) as [Hok Hrows].
    { destruct Hkind as [Hrec | (menu_id & created & -> & _)].
      - split; (eapply Forall_impl; [exact Hrec |]); intros m Hm;
          apply (menu_record_kind rid m Hm).
      - split; (constructor; [| constructor]);
          [apply fallback_menu_ok | apply fallback_menu_kind]. }
    eapply returns_mono; [apply IH |].
    + intros k l Hl. destruct (decide (k = rid)) as [-> | Hk].
      * rewrite lookup_insert_eq in Hl. injection Hl as <-. exact Hok.
      * rewrite lookup_insert_ne in Hl by congruence. apply (Hmenus k l Hl).
    + intros [menus' rows'] w2 (Hmenus' & new & -> & Hnew).
      split; [exact Hmenus' |]. exists (mlist ++ new). rewrite app_assoc.
      split; [reflexivity | apply Forall_app; auto].
Qed.

(** *** The orders *)

Lemma ends_choice {A} (l : list A) (Q : A -> World -> Prop) (E : exn -> Prop) w :
  E IndexError -> (forall x w', x ∈ l -> Q x w') -> ends (choice L l) Q E w.
Proof.
  intros HE HQ. unfold choice.
  apply ends_bind, ends_returns, returns_draw. intros n w1 _.
  destruct (l !! (n mod length l)) as [x |] eqn:Ex.
  - apply ends_ret, HQ. eapply list_elem_of_lookup_2. exact Ex.
  - apply ends_raise, HE.
Qed.

Lemma order_item_record_kind order_id m itm c :
  order_item_record order_id m itm c -> of_kind ["orders"; "orderitem"] itm.
Proof.
  intros (oiid & mid & pc & q & _ & _ & _ & _ & ->).
  exists "orderitem". split; [reflexivity | right; left].
Qed.

Lemma order_items_kind order_id (menus items : list pydict) (cs : list N) :
  Forall2 (fun itm c => exists m, m ∈ menus /\ order_item_record order_id m itm c) items cs ->
  Forall (of_kind ["orders"; "orderitem"]) items.
Proof.
  induction 1 as [| itm c items cs (m & _ & Hrec) _ IHi]; constructor;
    [apply (order_item_record_kind _ _ _ _ Hrec) | exact IHi].
Qed.

Lemma order_loop_spec fuel n customers restaurants (menus : gmap string (list pydict))
    agents rows w :
  Forall (customer_candidate L) customers ->
  Forall restaurant_record restaurants ->
  (forall k l, menus !! k = Some l -> Forall menu_ok l) ->
  ends (order_loop L fuel n customers restaurants menus [] agents rows)
    (fun rows' _ =>
       exists new, rows' = rows ++ new /\ Forall (of_kind ["orders"; "orderitem"]) new)
    (fun e => e = IndexError) w.
Proof.
  intros Hcust Hrest Hmenus. revert rows w.
  induction fuel as [| fuel IH]; intros rows w; cbn [order_loop].
  - apply ends_ret. exists []. rewrite app_nil_r. auto.
  - destruct (Z.of_nat (length rows) <? n)%Z.
    2:{ apply ends_ret. exists []. rewrite app_nil_r. auto. }
    apply ends_bind, ends_choice; [reflexivity |]. intros cust w1 Hc.
    apply ends_bind, ends_choice; [reflexivity |]. intros rest w2 Hr.
    rewrite Forall_forall in Hcust, Hrest.
    destruct (customer_candidate_kind cust (Hcust cust Hc)) as [_ [cid Hcid]].
    destruct (restaurant_record_kind rest (Hrest rest Hr)) as [_ [rid Hrid]].
    unfold dict_item. rewrite Hcid, Hrid.
    apply ends_bind, ends_lift. apply ends_bind, ends_lift. apply ends_bind, ends_lift.
    assert (Forall menu_ok (default [] (menus !! rid))) as Hok.
    { destruct (menus !! rid) as [l |] eqn:El; [apply (Hmenus rid l El) | constructor]. }
    apply ends_bind, ends_returns.
    eapply returns_mono; [apply (make_order_with_items_spec L _ _ _ _ Hok) |].
    intros [order items] w3 [_ Hres]. cbn beta iota.
    apply ends_bind.
    apply (ends_mono _ (fun rows' _ =>
                          exists new, rows' = rows ++ new /\
                                      Forall (of_kind ["orders"; "orderitem"]) new)
             _ (fun e => e = IndexError)); [| | auto].
    { destruct (accepted order) as [o |] eqn:Eacc.
      2:{ apply ends_ret. exists []. rewrite app_nil_r. auto. }
      apply accepted_inv in Eacc. subst order.
      revert Hres. destruct (default [] (menus !! rid)) as [| m0 ms]; intros Hres;
        [destruct Hres; discriminate |].
      destruct Hres as (order_id & cs & r & status & pm & Hitems & _ & _ & _ & Ho).
      destruct (iso_parses L _ && iso_parses L _) in Ho; [| discriminate Ho].
      injection Ho as ->.
      eapply ends_mono; [apply delivery_for_spec | | intros e [He _]; congruence].
      intros rows' w4 [-> | (d & a & g & _ & Ha & _)]; [| apply elem_of_nil in Ha as []].
      eexists. split; [reflexivity |]. cbn [app]. constructor.
      - exists "orders". split; [reflexivity | left].
      - exact (order_items_kind _ _ _ _ Hitems). }
    intros rows1 w4 (new1 & -> & Hnew1). cbn beta.
    eapply ends_mono; [apply IH | | auto].
    intros rows' w5 (new2 & -> & Hnew2).
    exists (new1 ++ new2). rewrite app_assoc.
    split; [reflexivity | apply Forall_app; auto].
Qed.

(** *** The whole batch *)

(** Every kind of a short list is a kind of a batch. *)
Ltac kinds :=
  let t := fresh "t" in
  let Ht := fresh "Ht" in
  intros t Ht;
  repeat (apply elem_of_cons in Ht as [-> | Ht]);
  [.. | apply elem_of_nil in Ht as []];
  unfold batch_kinds;
  repeat first [apply list_elem_of_here | apply list_elem_of_further].

Lemma assemble_spec n w :
  ends (assemble L n) (fun rows _ => Forall (of_kind batch_kinds) rows) batch_error w.
Proof.
  unfold assemble.
  apply ends_bind, ends_returns.
  eapply returns_mono; [apply customer_loop_spec |].
  intros [customers rows1] w1 (new1 & -> & -> & Hcust). cbn [app] in *. cbn beta iota.
  apply ends_bind.
  eapply ends_mono; [apply (address_stage_spec _ _ _ _ Hcust) | | auto].
  intros [addresses rows2] w2 (-> & new2 & -> & Hlogin). cbn beta iota.
  apply ends_bind, ends_returns.
  eapply returns_mono;
    [apply (pool_loop_spec _ _ restaurant_record); intros w';
     eapply returns_mono; [apply make_restaurant_unique_spec |];
     intros [r |] w'' H; [apply H | exact I] |].
  intros [restaurants rows3] w3 (new3 & -> & -> & Hrest). cbn [app] in *. cbn beta iota.
  apply ends_bind, ends_returns.
  eapply returns_mono;
    [apply (menu_stage_spec _ _ _ _ Hrest); intros k l Hl; rewrite lookup_empty in Hl;
     discriminate Hl |].
  intros [menus rows4] w4 (Hmenus & new4 & -> & Hmenu). cbn beta iota.
  apply ends_bind, ends_returns.
  eapply returns_mono;
    [apply (pool_loop_spec _ _ agent_record); intros w';
     eapply returns_mono; [apply make_deliveryagent_unique_spec |];
     intros [r |] w'' H; [apply H | exact I] |].
  intros [agents rows5] w5 (new5 & -> & -> & Hagents). cbn [app] in *. cbn beta iota.
  eapply ends_mono;
    [apply (order_loop_spec _ _ _ _ _ _ _ _ Hcust Hrest Hmenus) | | intros e ->; left; reflexivity].
  intros rows w6 (new6 & -> & Horders). cbn beta.
  rewrite !Forall_app. split_and!;
    (eapply Forall_impl; [eassumption |]); intros r Hr.
  - apply (of_kind_mono ["customer"]); [kinds | apply (customer_candidate_kind r Hr)].
  - apply (of_kind_mono ["loginaudit"]); [kinds | exact Hr].
  - apply (of_kind_mono ["restaurant"]); [kinds | apply (restaurant_record_kind r Hr)].
  - apply (of_kind_mono ["menu"]); [kinds | exact Hr].
  - apply (of_kind_mono ["deliveryagent"]); [kinds | apply (agent_record_kind r Hr)].
  - apply (of_kind_mono ["orders"; "orderitem"]); [kinds | exact Hr].
Qed.

Lemma build_batch_spec (n : Z) (w : World) :
  ends (build_batch L n)
    (fun rows _ => Forall (of_kind batch_kinds) rows)
    batch_error w.
Proof.
  unfold build_batch. apply ends_bind.
  eapply ends_mono; [apply assemble_spec | | auto].
  intros rows w1 Hrows. cbn beta. apply ends_ret.
  unfold finish, slice_to.
  destruct (n <? Z.of_nat (length rows))%Z; [| exact Hrows].
  destruct (0 <=? n)%Z; apply Forall_take, Hrows.
Qed.

(** What a batch can hold, and how [build_batch] can fail. Every record
    that [build_batch] returns is a customer, a login audit, a restaurant,
    a menu item, a delivery agent, an order or an order item: since
    [make_address] never returns an address, the batch has no address, and
    so the delivery step never finds one and the batch has no delivery
    either. The only exceptions that end [build_batch] are the IndexError
    of [random.choice] on an empty pool of customers or restaurants, and
    the two ValueErrors of [int] on a postcode in [make_address]. *)
Theorem batch_has_no_address_and_no_delivery (n : Z) (w : World) :
  ends (build_batch L n)
    (fun rows _ => Forall (of_kind batch_kinds) rows)
    batch_error w.
Proof. exact (build_batch_spec n w). Qed.

End Batch.

Section OrderLoop.
Local Open Scope nat_scope.
Local Open Scope string_scope.
Local Open Scope list_scope.
Context (L : Lib).




End OrderLoop.

Section OrderLoopWitness.
Local Open Scope nat_scope.
Local Open Scope string_scope.
Local Open Scope list_scope.


End OrderLoopWitness.

Section MenusOfBatch.
Local Open Scope nat_scope.
Local Open Scope string_scope.
Local Open Scope list_scope.
Context (L : Lib).





End MenusOfBatch.

Section OrdersInGeneral.
Local Open Scope nat_scope.
Local Open Scope string_scope.
Local Open Scope list_scope.
Context (L : Lib).








End OrdersInGeneral.

End Properties.
